(** * sil_prep / customer_order: catalogue tree and order placement

    A shallow embedding of [customer_order/models.py],
    [customer_order/serializers.py] and [customer_order/views.py].

    - Primary keys are UUIDs; they are kept in their textual form.
    - [DecimalField(max_digits=10, decimal_places=2)] values are integers
      counting hundredths ([9999] is [Decimal('99.99')]).  A price times an
      integer quantity, and a sum of such products, is exact in Python's
      [Decimal] (the default context keeps 28 significant digits), so the
      arithmetic on hundredths is the arithmetic of the program.
    - A table is the list of its rows.  Every constraint the models declare
      (primary key, [unique=True], [unique_together], the non-negativity
      check of [PositiveIntegerField], the range of [numeric(10,2)]) is
      checked when a row is written, as the PostgreSQL backend selected in
      [settings.py] does, and a violation raises.
    - The [items] of an order request are dictionaries whose values no
      field checks: a [quantity] is any value of a JSON body, and Python's
      comparison and multiplication decide what becomes of it.
    - [uuid.uuid4()] and [time.time()] are oracles read at a tick that
      advances with every call. *)

From Stdlib Require Import List ZArith String Ascii Bool Lia Arith PeanoNat.
From Stdlib Require Import DecimalString QArith.
Import ListNotations.

Local Open Scope string_scope.
Local Open Scope Z_scope.

(** ** Data model (models.py) *)

Definition uuid := string.

(** Hundredths of a currency unit. *)
Definition Decimal := Z.

Module Models.

Record Category := mkCategory {
  cat_id : uuid;
  cat_name : string;
  cat_description : option string;
  cat_parent : option uuid;
  cat_slug : string;
  cat_is_active : bool
}.

Record Product := mkProduct {
  prod_id : uuid;
  prod_name : string;
  prod_price : Decimal;
  prod_sku : string;
  prod_category : uuid;
  stock_quantity : Z;
  prod_is_active : bool
}.

(** [status] is a [CharField]; its [choices] are not enforced when a row is
    saved, so the column holds any string. *)
Record Order := mkOrder {
  order_id : uuid;
  order_number : string;
  order_customer : uuid;
  order_status : string;
  total_amount : Decimal;
  shipping_address : string;
  notes : option string
}.

Record OrderItem := mkOrderItem {
  item_id : uuid;
  item_order : uuid;
  item_product : uuid;
  quantity : Z;
  unit_price : Decimal;
  total_price : Decimal
}.

Record DB := mkDB {
  categories : list Category;
  products : list Product;
  orders : list Order;
  order_items : list OrderItem
}.

Definition empty_db : DB := mkDB [] [] [] [].

(** *** Category (models.py 24-87) *)

(** [Meta.ordering = ['name']]: the rows of a queryset come sorted by name. *)
Fixpoint insert_by_name (c : Category) (l : list Category) : list Category :=
  match l with
  | [] => [c]
  | d :: l' =>
      if (cat_name c <=? cat_name d)%string then c :: d :: l'
      else d :: insert_by_name c l'
  end.

Definition order_by_name (l : list Category) : list Category :=
  fold_right insert_by_name [] l.

(** The row a foreign key points to. *)
Definition category_by_id (cs : list Category) (i : uuid) : option Category :=
  find (fun c => String.eqb (cat_id c) i) cs.

Definition has_parent (pid : uuid) (c : Category) : bool :=
  match cat_parent c with
  | Some q => String.eqb q pid
  | None => false
  end.

Definition is_root (c : Category) : bool :=
  match cat_parent c with
  | Some _ => false
  | None => true
  end.

(** [category.children.all()] *)
Definition children (cs : list Category) (c : Category) : list Category :=
  order_by_name (filter (has_parent (cat_id c)) cs).

(** The functions below walk parent or child links.  [fuel] bounds the
    number of loop turns (or the recursion depth); [None] stands for a run
    that yields no value: the walk does not end within [fuel], or a parent
    reference has no row. *)

(** [Category.level]: [while current.parent: level += 1; current = current.parent] *)
Fixpoint level_loop (fuel : nat) (cs : list Category) (current : Category)
    (level : nat) : option nat :=
  match fuel with
  | O => None
  | S fuel' =>
      match cat_parent current with
      | None => Some level
      | Some pid =>
          match category_by_id cs pid with
          | Some p => level_loop fuel' cs p (S level)
          | None => None
          end
      end
  end.

Definition level (fuel : nat) (cs : list Category) (c : Category) : option nat :=
  level_loop fuel cs c 0.

(** [self.parent] as the loops read it: [Some None] is Python's [None]. *)
Definition parent_of (cs : list Category) (c : Category) : option (option Category) :=
  match cat_parent c with
  | None => Some None
  | Some pid =>
      match category_by_id cs pid with
      | Some p => Some (Some p)
      | None => None
      end
  end.

(** [get_ancestors]: [ancestors.append(current)] up the chain, then [reversed]. *)
Fixpoint ancestors_loop (fuel : nat) (cs : list Category) (current : option Category)
    (ancestors : list Category) : option (list Category) :=
  match fuel with
  | O => None
  | S fuel' =>
      match current with
      | None => Some ancestors
      | Some c =>
          match parent_of cs c with
          | Some next => ancestors_loop fuel' cs next (ancestors ++ [c])
          | None => None
          end
      end
  end.

Definition get_ancestors (fuel : nat) (cs : list Category) (c : Category)
    : option (list Category) :=
  match parent_of cs c with
  | Some start => option_map (@rev Category) (ancestors_loop fuel cs start [])
  | None => None
  end.

(** [get_descendants]: the inner [_get_children] appends each child, then
    recurses into it. *)
Fixpoint _get_children (fuel : nat) (cs : list Category) (category : Category)
    (descendants : list Category) : option (list Category) :=
  match fuel with
  | O => None
  | S fuel' =>
      fold_left
        (fun acc child =>
           match acc with
           | Some ds => _get_children fuel' cs child (ds ++ [child])
           | None => None
           end)
        (children cs category) (Some descendants)
  end.

Definition get_descendants (fuel : nat) (cs : list Category) (c : Category)
    : option (list Category) :=
  _get_children fuel cs c [].

(** [' > '.join(path)] *)
Fixpoint join (sep : string) (l : list string) : string :=
  match l with
  | [] => ""
  | [s] => s
  | s :: l' => s ++ sep ++ join sep l'
  end.

(** [get_full_path]: [path.insert(0, current.name)] up the chain. *)
Fixpoint full_path_loop (fuel : nat) (cs : list Category) (current : option Category)
    (path : list string) : option (list string) :=
  match fuel with
  | O => None
  | S fuel' =>
      match current with
      | None => Some path
      | Some c =>
          match parent_of cs c with
          | Some next => full_path_loop fuel' cs next (cat_name c :: path)
          | None => None
          end
      end
  end.

Definition get_full_path (fuel : nat) (cs : list Category) (c : Category)
    : option string :=
  match parent_of cs c with
  | Some start => option_map (join " > ") (full_path_loop fuel cs start [cat_name c])
  | None => None
  end.

End Models.

(** ** Effects: exceptions, the database, the transaction *)

Module Effects.
Import Models.

Inductive exn :=
| ValidationError (msg : string)
| DoesNotExist
| MultipleObjectsReturned
| IntegrityError (constraint : string)
| DataError (msg : string)
| TypeError (msg : string)
| ValueError (msg : string)
| KeyError (key : string)
| Http404.

Inductive result (A : Type) :=
| Ok (a : A)
| Raise (e : exn).
Arguments Ok {A} a.
Arguments Raise {A} e.

(** What a request runs against: the database and the two oracles. *)
Record World := mkWorld {
  db : DB;
  uuid4 : nat -> uuid;
  time_time : nat -> Z;
  tick : nat
}.

Definition M (A : Type) : Type := World -> World * result A.

Definition ret {A} (a : A) : M A := fun w => (w, Ok a).

Definition raise {A} (e : exn) : M A := fun w => (w, Raise e).

Definition bind {A B} (m : M A) (k : A -> M B) : M B :=
  fun w =>
    match m w with
    | (w', Ok a) => k a w'
    | (w', Raise e) => (w', Raise e)
    end.

Definition lift {A} (r : result A) : M A := fun w => (w, r).

Definition get_db : M DB := fun w => (w, Ok (db w)).

Definition put_db (d : DB) : M unit :=
  fun w => (mkWorld d (uuid4 w) (time_time w) (tick w), Ok tt).

Definition next_tick (w : World) : World :=
  mkWorld (db w) (uuid4 w) (time_time w) (S (tick w)).

(** [uuid.uuid4()] *)
Definition new_uuid : M uuid := fun w => (next_tick w, Ok (uuid4 w (tick w))).

(** [int(time.time())] *)
Definition int_time : M Z := fun w => (next_tick w, Ok (time_time w (tick w))).

(** [@transaction.atomic]: an exception leaving the block restores the
    database to what it was on entry; the oracles are not rewound. *)
Definition atomic {A} (m : M A) : M A :=
  fun w =>
    match m w with
    | (w', Ok a) => (w', Ok a)
    | (w', Raise e) => (mkWorld (db w) (uuid4 w') (time_time w') (tick w'), Raise e)
    end.

End Effects.

Declare Scope py_scope.
Delimit Scope py_scope with py.
Notation "x <- m ;; k" := (Effects.bind m (fun x => k))
  (at level 61, m at next level, right associativity) : py_scope.
Notation "m ;;; k" := (Effects.bind m (fun _ => k))
  (at level 61, right associativity) : py_scope.

(** ** The values of a request body *)

Module Python.
Import Effects.
Local Open Scope string_scope.

(** What the JSON parser makes of the value under a key of a line item:
    [items] is a [ListField] of [DictField]s (serializers.py 148-152), and
    a [DictField] checks none of its values.  A float is a rational number
    or, for a literal beyond the range of a double, an infinity; what a
    list or an object holds plays no part. *)
Inductive json :=
| JInt (n : Z)
| JBool (b : bool)
| JFloat (x : Q)
| JInfinity (negative : bool)
| JStr (s : string)
| JNull
| JList
| JDict.

(** [type(v).__name__] *)
Definition type_name (v : json) : string :=
  match v with
  | JInt _ => "int"
  | JBool _ => "bool"
  | JFloat _ | JInfinity _ => "float"
  | JStr _ => "str"
  | JNull => "NoneType"
  | JList => "list"
  | JDict => "dict"
  end.

(** The integer [v] is: an [int], or a [bool], which is the [int] 0 or 1. *)
Definition as_int (v : json) : option Z :=
  match v with
  | JInt n => Some n
  | JBool b => Some (Z.b2z b)
  | _ => None
  end.

(** [v > n] for an [int] [n]: numbers compare by value, anything else is
    a [TypeError]. *)
Definition gt (v : json) (n : Z) : result bool :=
  match v with
  | JInt a => Ok (a >? n)
  | JBool b => Ok (Z.b2z b >? n)
  | JFloat x => Ok (negb (Qle_bool x (inject_Z n)))
  | JInfinity negative => Ok (negb negative)
  | _ => Raise (TypeError ("'>' not supported between instances of '"
                           ++ type_name v ++ "' and 'int'"))
  end.

(** The message of the [TypeError] of [d * v] for a [Decimal] [d]. *)
Definition Decimal_mul_error (v : json) : string :=
  match v with
  | JStr _ | JList => "can't multiply sequence by non-int of type 'decimal.Decimal'"
  | _ => "unsupported operand type(s) for *: 'decimal.Decimal' and '"
         ++ type_name v ++ "'"
  end.

(** [d * v] for a [Decimal] [d]: defined for an [int] only. *)
Definition Decimal_mul (d : Decimal) (v : json) : result Decimal :=
  match as_int v with
  | Some n => Ok (d * n)
  | None => Raise (TypeError (Decimal_mul_error v))
  end.

End Python.

(** ** Writing rows (models.py 90-204 and the column constraints) *)

Module ORM.
Import Models Effects Python.
Local Open Scope py_scope.

(** [str(n)] for an integer. *)
Definition str_int (n : Z) : string := NilZero.string_of_int (Z.to_int n).

(** [numeric(10, 2)]: at most ten digits, counted in hundredths. *)
Definition fits_numeric (d : Decimal) : bool :=
  (-10000000000 <? d) && (d <? 10000000000).

(** [PositiveIntegerField]: a 32-bit integer column with [CHECK (col >= 0)]. *)
Definition fits_integer (n : Z) : bool :=
  (-2147483648 <=? n) && (n <=? 2147483647).

(** [Model.objects.get(...)] over the rows that satisfy the lookup. *)
Definition objects_get {A} (p : A -> bool) (rows : list A) : result A :=
  match filter p rows with
  | [] => Raise DoesNotExist
  | [x] => Ok x
  | _ :: _ :: _ => Raise MultipleObjectsReturned
  end.

Definition set_products (d : DB) (ps : list Product) : DB :=
  mkDB (categories d) ps (orders d) (order_items d).

Definition set_orders (d : DB) (os : list Order) : DB :=
  mkDB (categories d) (products d) os (order_items d).

Definition set_order_items (d : DB) (its : list OrderItem) : DB :=
  mkDB (categories d) (products d) (orders d) its.

(** *** Product *)

Definition with_stock (p : Product) (s : Z) : Product :=
  mkProduct (prod_id p) (prod_name p) (prod_price p) (prod_sku p)
            (prod_category p) s (prod_is_active p).

Definition is_in_stock (p : Product) : bool := 0 <? stock_quantity p.

(** [product.save()] on an instance read from the table: an [UPDATE] of
    the row with its primary key (an [INSERT] when there is none).
    [stock_quantity] is a [PositiveIntegerField] (models.py 106): its
    column carries [CHECK (stock_quantity >= 0)], and Django raises the
    violation as an [IntegrityError]; [sku] is [unique=True]. *)
Definition Product_save (p : Product) : M unit :=
  d <- get_db ;;
  if negb (fits_numeric (prod_price p) && fits_integer (stock_quantity p)) then
    raise (DataError "products: value out of range")
  else if stock_quantity p <? 0 then
    raise (IntegrityError "products_stock_quantity_check")
  else if existsb (fun q => String.eqb (prod_sku q) (prod_sku p)
                            && negb (String.eqb (prod_id q) (prod_id p)))
                  (products d) then
    raise (IntegrityError "products_sku_key")
  else if existsb (fun q => String.eqb (prod_id q) (prod_id p)) (products d) then
    put_db (set_products d
              (map (fun q => if String.eqb (prod_id q) (prod_id p) then p else q)
                   (products d)))
  else
    put_db (set_products d (products d ++ [p])).

(** *** Order *)

Definition with_order_number (o : Order) (n : string) : Order :=
  mkOrder (order_id o) n (order_customer o) (order_status o) (total_amount o)
          (shipping_address o) (notes o).

Definition with_total_amount (o : Order) (t : Decimal) : Order :=
  mkOrder (order_id o) (order_number o) (order_customer o) (order_status o) t
          (shipping_address o) (notes o).

(** [f"ORD-{int(time.time())}"] *)
Definition generate_order_number (t : Z) : string := "ORD-" ++ str_int t.

(** [super().save()] for an order: [force_insert] is the [INSERT] issued
    by [objects.create]; otherwise the row with this primary key is
    updated. *)
Definition Order_super_save (o : Order) (force_insert : bool) : M unit :=
  d <- get_db ;;
  if negb (fits_numeric (total_amount o)) then
    raise (DataError "orders: numeric field overflow")
  else if (20 <? String.length (order_number o))%nat then
    raise (DataError "orders: value too long for type character varying(20)")
  else if force_insert && existsb (fun q => String.eqb (order_id q) (order_id o)) (orders d) then
    raise (IntegrityError "orders_pkey")
  else if existsb (fun q => String.eqb (order_number q) (order_number o)
                            && negb (String.eqb (order_id q) (order_id o)))
                  (orders d) then
    raise (IntegrityError "orders_order_number_key")
  else if existsb (fun q => String.eqb (order_id q) (order_id o)) (orders d) then
    put_db (set_orders d
              (map (fun q => if String.eqb (order_id q) (order_id o) then o else q)
                   (orders d)))
  else
    put_db (set_orders d (orders d ++ [o])).

(** [Order.save] (models.py 159-164).  The saved instance is returned,
    since [save] assigns [self.order_number]. *)
Definition Order_save (o : Order) (force_insert : bool) : M Order :=
  o' <- (if String.eqb (order_number o) "" then
           t <- int_time ;; ret (with_order_number o (generate_order_number t))
         else ret o) ;;
  Order_super_save o' force_insert ;;;
  ret o'.

(** *** OrderItem *)

(** [super().save()] for a new order item: [quantity] is a
    [PositiveIntegerField], (order, product) is [unique_together], and
    both references are foreign keys. *)
Definition OrderItem_super_save (i : OrderItem) : M unit :=
  d <- get_db ;;
  if negb (fits_numeric (unit_price i) && fits_numeric (total_price i)
           && fits_integer (quantity i)) then
    raise (DataError "order_items: value out of range")
  else if quantity i <? 0 then
    raise (IntegrityError "order_items_quantity_check")
  else if existsb (fun j => String.eqb (item_id j) (item_id i)) (order_items d) then
    raise (IntegrityError "order_items_pkey")
  else if existsb (fun j => String.eqb (item_order j) (item_order i)
                            && String.eqb (item_product j) (item_product i))
                  (order_items d) then
    raise (IntegrityError "order_items_order_id_product_id_uniq")
  else if negb (existsb (fun o => String.eqb (order_id o) (item_order i)) (orders d)) then
    raise (IntegrityError "order_items_order_id_fkey")
  else if negb (existsb (fun p => String.eqb (prod_id p) (item_product i)) (products d)) then
    raise (IntegrityError "order_items_product_id_fkey")
  else
    put_db (set_order_items d (order_items d ++ [i])).

(** [OrderItem.save] (models.py 200-204); [unit_price] is [None] when the
    caller passed none, and [Decimal('0.00')] is falsy as well.  [quantity]
    is whatever the caller passed: the product [unit_price * quantity] is
    a [TypeError] unless it is an [int], and the row written holds that
    [int]. *)
Definition OrderItem_save (pk order product : uuid) (product_price : Decimal)
    (quantity : json) (price : option Decimal) : M OrderItem :=
  let unit_price :=
    match price with
    | Some u => if u =? 0 then product_price else u
    | None => product_price
    end in
  match as_int quantity with
  | Some qty =>
      let total_price := unit_price * qty in
      let i := mkOrderItem pk order product qty unit_price total_price in
      OrderItem_super_save i ;;;
      ret i
  | None => raise (TypeError (Decimal_mul_error quantity))
  end.

(** [OrderItem.objects.create(order=, product=, quantity=, unit_price=)];
    a [total_price] keyword is overwritten by [save] and so is not taken. *)
Definition OrderItem_objects_create (order : Order) (product : Product)
    (qty : json) (price : option Decimal) : M OrderItem :=
  pk <- new_uuid ;;
  OrderItem_save pk (order_id order) (prod_id product) (prod_price product) qty price.

End ORM.

(** ** serializers.py: OrderCreateSerializer *)

Module Serializers.
Import Models Effects Python ORM.
Local Open Scope py_scope.

(** One entry of the [items] list of a request: a dictionary in which
    either key may be missing, and in which [quantity] may be any value
    of a JSON body.  [product_id] is the text of a primary key. *)
Record item_data := mkItem {
  product_id : option uuid;
  item_quantity : option json
}.

(** The values that travel in [validated_data] and in keyword arguments. *)
Inductive value :=
| VStr (s : string)
| VNone
| VDecimal (d : Decimal)
| VUser (u : uuid)
| VItems (l : list item_data).

(** A Python [dict] with string keys: insertion-ordered, keys unique. *)
Definition dict := list (string * value).

Definition dict_get (k : string) (d : dict) : option value :=
  option_map snd (find (fun kv => String.eqb (fst kv) k) d).

Definition dict_mem (k : string) (d : dict) : bool :=
  existsb (fun kv => String.eqb (fst kv) k) d.

Definition dict_remove (k : string) (d : dict) : dict :=
  filter (fun kv => negb (String.eqb (fst kv) k)) d.

(** [d[k] = v]: an existing key keeps its place. *)
Fixpoint dict_set (k : string) (v : value) (d : dict) : dict :=
  match d with
  | [] => [(k, v)]
  | (k', v') :: d' =>
      if String.eqb k' k then (k, v) :: d' else (k', v') :: dict_set k v d'
  end.

(** [{**a, **b}] *)
Definition dict_merge (a b : dict) : dict :=
  fold_left (fun acc kv => dict_set (fst kv) (snd kv) acc) b a.

(** [d.pop(k)] *)
Definition dict_pop (k : string) (d : dict) : result (value * dict) :=
  match dict_get k d with
  | Some v => Ok (v, dict_remove k d)
  | None => Raise (KeyError k)
  end.

(** A call of [f] with explicit keywords and a double-starred dictionary [d]: a key of [d] that repeats an explicit
    keyword is a [TypeError], raised before [f] runs. *)
Definition call_kwargs (explicit starstar : dict) : result dict :=
  match find (fun kv => dict_mem (fst kv) explicit) starstar with
  | Some (k, _) =>
      Raise (TypeError ("got multiple values for keyword argument '" ++ k ++ "'"))
  | None => Ok (explicit ++ starstar)%list
  end.

(** [Order] called with keyword arguments: the fields an order is built from, with the
    defaults of the model. *)
Record OrderFields := mkFields {
  f_order_number : string;
  f_customer : option uuid;
  f_status : string;
  f_total_amount : option Decimal;
  f_shipping_address : option string;
  f_notes : option string
}.

Definition default_fields : OrderFields :=
  mkFields "" None "pending" None (Some "") None.

Definition set_field (f : OrderFields) (k : string) (v : value) : result OrderFields :=
  if String.eqb k "customer" then
    match v with
    | VUser u => Ok (mkFields (f_order_number f) (Some u) (f_status f)
                       (f_total_amount f) (f_shipping_address f) (f_notes f))
    | VNone => Ok (mkFields (f_order_number f) None (f_status f)
                     (f_total_amount f) (f_shipping_address f) (f_notes f))
    | _ => Raise (ValueError "Order.customer must be a Customer instance")
    end
  else if String.eqb k "total_amount" then
    match v with
    | VDecimal t => Ok (mkFields (f_order_number f) (f_customer f) (f_status f)
                          (Some t) (f_shipping_address f) (f_notes f))
    | VNone => Ok (mkFields (f_order_number f) (f_customer f) (f_status f)
                     None (f_shipping_address f) (f_notes f))
    | _ => Raise (ValueError "total_amount must be a decimal number")
    end
  else if String.eqb k "shipping_address" then
    match v with
    | VStr s => Ok (mkFields (f_order_number f) (f_customer f) (f_status f)
                      (f_total_amount f) (Some s) (f_notes f))
    | VNone => Ok (mkFields (f_order_number f) (f_customer f) (f_status f)
                     (f_total_amount f) None (f_notes f))
    | _ => Raise (ValueError "shipping_address must be a string")
    end
  else if String.eqb k "notes" then
    match v with
    | VStr s => Ok (mkFields (f_order_number f) (f_customer f) (f_status f)
                      (f_total_amount f) (f_shipping_address f) (Some s))
    | VNone => Ok (mkFields (f_order_number f) (f_customer f) (f_status f)
                     (f_total_amount f) (f_shipping_address f) None)
    | _ => Raise (ValueError "notes must be a string")
    end
  else if String.eqb k "status" then
    match v with
    | VStr s => Ok (mkFields (f_order_number f) (f_customer f) s
                      (f_total_amount f) (f_shipping_address f) (f_notes f))
    | _ => Raise (ValueError "status must be a string")
    end
  else if String.eqb k "order_number" then
    match v with
    | VStr s => Ok (mkFields s (f_customer f) (f_status f)
                      (f_total_amount f) (f_shipping_address f) (f_notes f))
    | _ => Raise (ValueError "order_number must be a string")
    end
  else
    Raise (TypeError ("Order() got unexpected keyword arguments: '" ++ k ++ "'")).

Fixpoint init_fields (kwargs : dict) (f : OrderFields) : result OrderFields :=
  match kwargs with
  | [] => Ok f
  | (k, v) :: rest =>
      match set_field f k v with
      | Ok f' => init_fields rest f'
      | Raise e => Raise e
      end
  end.

(** [Order.objects.create] with keyword arguments: build the instance (its primary key
    defaults to [uuid.uuid4()]), then [save(force_insert=True)]. *)
Definition Order_objects_create (kwargs : dict) : M Order :=
  pk <- new_uuid ;;
  f <- lift (init_fields kwargs default_fields) ;;
  match f_customer f, f_total_amount f, f_shipping_address f with
  | Some c, Some t, Some a =>
      Order_save (mkOrder pk (f_order_number f) c (f_status f) t a (f_notes f)) true
  | _, _, _ => raise (IntegrityError "orders: null value violates not-null constraint")
  end.

(** [f"Insufficient stock for {product.name}. Available: {product.stock_quantity}"] *)
Definition insufficient_stock (product : Product) : string :=
  "Insufficient stock for " ++ prod_name product
  ++ ". Available: " ++ str_int (stock_quantity product).

(** [validate_items] (serializers.py 158-175).  It only reads the products. *)
Fixpoint validate_items_loop (d : DB) (value : list item_data) : result unit :=
  match value with
  | [] => Ok tt
  | item :: rest =>
      match product_id item, item_quantity item with
      | Some pid, Some qty =>
          match objects_get (fun p => String.eqb (prod_id p) pid && prod_is_active p)
                            (products d) with
          | Ok product =>
              match gt qty (stock_quantity product) with
              | Ok true => Raise (ValidationError (insufficient_stock product))
              | Ok false => validate_items_loop d rest
              | Raise e => Raise e
              end
          | Raise DoesNotExist =>
              Raise (ValidationError ("Product with id " ++ pid ++ " not found"))
          | Raise e => Raise e
          end
      | _, _ => Raise (ValidationError "Each item must have product_id and quantity")
      end
  end.

Definition validate_items (d : DB) (value : list item_data) : result (list item_data) :=
  match value with
  | [] => Raise (ValidationError "Order must contain at least one item")
  | _ :: _ =>
      match validate_items_loop d value with
      | Ok _ => Ok value
      | Raise e => Raise e
      end
  end.

(** The body of the [for item_data in items_data] loop of [create]
    (serializers.py 192-207), with the running [total_amount].  Once
    [OrderItem.objects.create] has returned, [quantity] is the [int] its
    [save] multiplied by, the [quantity] of the instance it returned. *)
Fixpoint create_items (order : Order) (items_data : list item_data)
    (total : Decimal) : M Decimal :=
  match items_data with
  | [] => ret total
  | item :: rest =>
      pid <- lift (match product_id item with
                   | Some pid => Ok pid
                   | None => Raise (KeyError "product_id")
                   end) ;;
      d <- get_db ;;
      product <- lift (objects_get (fun p => String.eqb (prod_id p) pid) (products d)) ;;
      qty <- lift (match item_quantity item with
                   | Some q => Ok q
                   | None => Raise (KeyError "quantity")
                   end) ;;
      order_item <- OrderItem_objects_create order product qty (Some (prod_price product)) ;;
      Product_save (with_stock product (stock_quantity product - quantity order_item)) ;;;
      create_items order rest (total + total_price order_item)
  end.

Definition create_body (user : uuid) (validated_data : dict) : M Order :=
  popped <- lift (dict_pop "items" validated_data) ;;
  items_data <- lift (match fst popped with
                      | VItems l => Ok l
                      | _ => Raise (TypeError "items is not a list")
                      end) ;;
  kwargs <- lift (call_kwargs [("customer", VUser user); ("total_amount", VDecimal 0)]
                              (snd popped)) ;;
  order <- Order_objects_create kwargs ;;
  total <- create_items order items_data 0 ;;
  Order_save (with_total_amount order total) false.

(** [OrderCreateSerializer.create] (serializers.py 177-213);
    [user] is [self.context['request'].user]. *)
Definition create (user : uuid) (validated_data : dict) : M Order :=
  atomic (create_body user validated_data).

(** [serializer.save] with keyword arguments [kwargs], on a serializer without instance:
    [create({**validated_data, **kwargs})]. *)
Definition save (user : uuid) (validated_data kwargs : dict) : M Order :=
  create user (dict_merge validated_data kwargs).

End Serializers.

(** ** views.py *)

Module Views.
Import Models Effects Python ORM Serializers.
Local Open Scope py_scope.

(** *** category_average_price (views.py 154-195) *)

Inductive Response (A : Type) :=
| HTTP_200 (data : A)
| HTTP_404 (error : string).
Arguments HTTP_200 {A} data.
Arguments HTTP_404 {A} error.

(** The data handed to [Response]; [average_price = None] is Python's
    [None], and [Avg('price')] is the exact quotient, in hundredths. *)
Record AveragePrice := mkAveragePrice {
  avg_category_id : uuid;
  avg_category_name : string;
  average_price : option Q;
  product_count : nat;
  avg_message : option string
}.

Definition sum_prices (ps : list Product) : Decimal :=
  fold_right (fun p acc => prod_price p + acc) 0 ps.

(** [Product.objects.filter(category__in=descendant_categories, is_active=True)] *)
Definition products_in (cats : list Category) (ps : list Product) : list Product :=
  filter (fun p => existsb (fun c => String.eqb (cat_id c) (prod_category p)) cats
                   && prod_is_active p) ps.

(** [None]: the view returns no response ([get_descendants] does not
    return, or the lookup raises something other than [DoesNotExist]). *)
Definition category_average_price (fuel : nat) (d : DB) (category_id : uuid)
    : option (Response AveragePrice) :=
  match objects_get (fun c => String.eqb (cat_id c) category_id && cat_is_active c)
                    (categories d) with
  | Raise DoesNotExist => Some (HTTP_404 "Category not found")
  | Raise _ => None
  | Ok category =>
      match get_descendants fuel (categories d) category with
      | None => None
      | Some ds =>
          let descendant_categories := category :: ds in
          let products := products_in descendant_categories (products d) in
          match products with
          | [] =>
              Some (HTTP_200 (mkAveragePrice (cat_id category) (cat_name category)
                                None 0 (Some "No products found in this category")))
          | _ :: _ =>
              Some (HTTP_200 (mkAveragePrice (cat_id category) (cat_name category)
                                (Some (Qmake (sum_prices products)
                                             (Pos.of_nat (List.length products))))
                                (List.length products) None))
          end
      end
  end.

(** *** category_tree (views.py 362-385) *)

#[warnings="-register-all"]
Inductive TreeNode :=
| Node (id : uuid) (name slug : string) (description : option string)
       (level : nat) (children : list TreeNode).

Definition node_id (n : TreeNode) : uuid := let '(Node i _ _ _ _ _) := n in i.
Definition node_name (n : TreeNode) : string := let '(Node _ s _ _ _ _) := n in s.
Definition node_level (n : TreeNode) : nat := let '(Node _ _ _ _ l _) := n in l.
Definition node_children (n : TreeNode) : list TreeNode :=
  let '(Node _ _ _ _ _ ch) := n in ch.

(** [Category.objects.filter(parent=parent, is_active=True).order_by('name')];
    [parent=None] selects the rows whose parent is null. *)
Definition active_children (cs : list Category) (parent : option Category)
    : list Category :=
  order_by_name
    (filter (fun c => match parent with
                      | Some p => has_parent (cat_id p) c
                      | None => is_root c
                      end && cat_is_active c) cs).

(** The [for category in categories] loop: one node per row, in order. *)
Fixpoint for_each {A B} (f : A -> option B) (l : list A) : option (list B) :=
  match l with
  | [] => Some []
  | a :: l' =>
      match f a with
      | Some b =>
          match for_each f l' with
          | Some bs => Some (b :: bs)
          | None => None
          end
      | None => None
      end
  end.

(** [build_tree]; [fuel] bounds its recursion depth and [lfuel] the loop
    of [category.level]. *)
Fixpoint build_tree (fuel lfuel : nat) (cs : list Category) (parent : option Category)
    : option (list TreeNode) :=
  match fuel with
  | O => None
  | S fuel' =>
      for_each
        (fun category =>
           match level lfuel cs category with
           | Some l =>
               match build_tree fuel' lfuel cs (Some category) with
               | Some ch =>
                   Some (Node (cat_id category) (cat_name category) (cat_slug category)
                              (cat_description category) l ch)
               | None => None
               end
           | None => None
           end)
        (active_children cs parent)
  end.

Definition category_tree (fuel : nat) (d : DB) : option (list TreeNode) :=
  build_tree fuel fuel (categories d) None.

(** *** OrderListCreateView (views.py 197-247) *)

(** The body of a POST, after the field checks of the framework. *)
Record Request := mkRequest {
  user : uuid;
  data_shipping_address : string;
  data_notes : option string;
  data_items : list item_data
}.

(** [serializer.is_valid(raise_exception=True)]: the declared fields in the
    order of [Meta.fields], [items] through [validate_items]. *)
Definition is_valid (d : DB) (r : Request) : result dict :=
  match validate_items d (data_items r) with
  | Ok items =>
      Ok ([("shipping_address", VStr (data_shipping_address r))]
          ++ match data_notes r with
             | Some n => [("notes", VStr n)]
             | None => []
             end
          ++ [("items", VItems items)])%list
  | Raise e => Raise e
  end.

(** An entry of the [items] list [perform_create] builds. *)
Record line := mkLine {
  line_product : Product;
  line_quantity : json;
  line_unit_price : Decimal;
  line_total_price : Decimal
}.

(** The first loop of [perform_create] (views.py 213-226). *)
Fixpoint price_items (d : DB) (order_items_data : list item_data)
    (total : Decimal) (items : list line) : result (Decimal * list line) :=
  match order_items_data with
  | [] => Ok (total, items)
  | item :: rest =>
      match product_id item with
      | None => Raise (KeyError "product_id")
      | Some pid =>
          match objects_get (fun p => String.eqb (prod_id p) pid && prod_is_active p)
                            (products d) with
          | Raise DoesNotExist => Raise Http404
          | Raise e => Raise e
          | Ok product =>
              match item_quantity item with
              | None => Raise (KeyError "quantity")
              | Some qty =>
                  match Decimal_mul (prod_price product) qty with
                  | Ok item_total =>
                      price_items d rest (total + item_total)
                        (items ++ [mkLine product qty (prod_price product) item_total])
                  | Raise e => Raise e
                  end
              end
          end
      end
  end.

(** The second loop (views.py 236-243). *)
Fixpoint create_lines (order : Order) (items : list line) : M unit :=
  match items with
  | [] => ret tt
  | l :: rest =>
      OrderItem_objects_create order (line_product l) (line_quantity l)
                               (Some (line_unit_price l)) ;;;
      create_lines order rest
  end.

(** [send_customer_sms] and [send_admin_email] read the order, talk to the
    outside and catch every exception: the database is not written. *)
Definition send_customer_sms (order : Order) : M unit := ret tt.
Definition send_admin_email (order : Order) : M unit := ret tt.

Definition perform_create (r : Request) (validated_data : dict) : M unit :=
  d <- get_db ;;
  priced <- lift (price_items d (data_items r) 0 []) ;;
  order <- save (user r) validated_data
             [("customer", VUser (user r));
              ("total_amount", VDecimal (fst priced));
              ("shipping_address", VStr (data_shipping_address r))] ;;
  create_lines order (snd priced) ;;;
  send_customer_sms order ;;;
  send_admin_email order.

(** POST /orders/: [is_valid], then [perform_create]. *)
Definition post (r : Request) : M unit :=
  d <- get_db ;;
  validated_data <- lift (is_valid d r) ;;
  perform_create r validated_data.

End Views.

(** ** Predicates the properties are stated with *)

Module Spec.
Import Models Effects Python ORM Serializers Views.

Fixpoint distinct (l : list string) : bool :=
  match l with
  | [] => true
  | s :: l' => negb (existsb (String.eqb s) l') && distinct l'
  end.

(** Primary keys of the category table are unique. *)
Definition category_ids_unique (cs : list Category) : bool :=
  distinct (map cat_id cs).

(** Primary keys of the product table are unique. *)
Definition product_ids_unique (d : DB) : bool :=
  distinct (map prod_id (products d)).

(** The node [build_tree] makes of a row. *)
Definition node_of (c : Category) (l : nat) (ch : list TreeNode) : TreeNode :=
  Node (cat_id c) (cat_name c) (cat_slug c) (cat_description c) l ch.

(** [n] occurs in the forest [t], at any depth. *)
Inductive in_forest : TreeNode -> list TreeNode -> Prop :=
| in_forest_here n t : In n t -> in_forest n t
| in_forest_below n m t : In m t -> in_forest n (node_children m) -> in_forest n t.

(** [below cs x c]: following parent references from [c] reaches the row
    with primary key [x] ([c] itself included). *)
Inductive below (cs : list Category) (x : uuid) : Category -> Prop :=
| below_self c : cat_id c = x -> below cs x c
| below_parent c pid p :
    cat_parent c = Some pid -> category_by_id cs pid = Some p ->
    below cs x p -> below cs x c.

(** [order.items.all()] *)
Definition items_of (d : DB) (o : uuid) : list OrderItem :=
  filter (fun i => String.eqb (item_order i) o) (order_items d).

Definition sum_total_price (l : list OrderItem) : Decimal :=
  fold_right (fun i acc => total_price i + acc) 0 l.

(** Every order's total is the sum of its items, every item's total is
    price times quantity, and every item belongs to an order of the table. *)
Definition totals_consistent (d : DB) : bool :=
  forallb (fun o => total_amount o =? sum_total_price (items_of d (order_id o))) (orders d)
  && forallb (fun i => total_price i =? unit_price i * quantity i) (order_items d)
  && forallb (fun i => existsb (fun o => String.eqb (order_id o) (item_order i)) (orders d))
             (order_items d).

(** The number of units a line orders, when its quantity is an [int]. *)
Definition units (line : item_data) : option Z :=
  match item_quantity line with
  | Some v => as_int v
  | None => None
  end.

(** The quantity the lines of a request order of product [pid]. *)
Definition ordered_quantity (items : list item_data) (pid : uuid) : Z :=
  fold_right
    (fun it acc =>
       match product_id it, units it with
       | Some p, Some q => if String.eqb p pid then q + acc else acc
       | _, _ => acc
       end) 0 items.

(** The order item a line of the request becomes: it names the one
    product row with the line's id, takes that row's price, and does not
    ask for more than that row has in stock. *)
Definition item_of_line (d : DB) (o : Order) (line : item_data) (i : OrderItem) : Prop :=
  product_id line = Some (item_product i) /\
  units line = Some (quantity i) /\
  item_order i = order_id o /\
  0 <= quantity i /\
  total_price i = unit_price i * quantity i /\
  exists p,
    filter (fun x => String.eqb (prod_id x) (item_product i)) (products d) = [p] /\
    unit_price i = prod_price p /\
    quantity i <= stock_quantity p.

(** The product row [p] after the lines of a request have been served. *)
Definition take_stock (items : list item_data) (p : Product) : Product :=
  with_stock p (stock_quantity p - ordered_quantity items (prod_id p)).

(** One line served: [qty] units leave the row with primary key [pid]. *)
Definition decrement (pid : uuid) (qty : Z) (p : Product) : Product :=
  if String.eqb (prod_id p) pid then with_stock p (stock_quantity p - qty) else p.

(** Some line asks for more than the stock of the product it names. *)
Definition exceeds_stock (d : DB) (items : list item_data) : Prop :=
  exists line p q,
    In line items /\ In p (products d) /\
    product_id line = Some (prod_id p) /\ item_quantity line = Some q /\
    gt q (stock_quantity p) = Ok true.

(** [v] is a number: an [int], a [bool] or a float. *)
Definition is_number (v : json) : bool :=
  match v with
  | JInt _ | JBool _ | JFloat _ | JInfinity _ => true
  | _ => false
  end.

(** The quantity of every line that has one is a number. *)
Definition numbers (items : list item_data) : Prop :=
  forall line v, In line items -> item_quantity line = Some v -> is_number v = true.

(** A product is named by two lines. *)
Fixpoint repeats_product (items : list item_data) : bool :=
  match items with
  | [] => false
  | it :: rest =>
      existsb (fun jt => match product_id it, product_id jt with
                         | Some a, Some b => String.eqb a b
                         | _, _ => false
                         end) rest
      || repeats_product rest
  end.

Definition stock_nonneg (d : DB) : bool :=
  forallb (fun p => 0 <=? stock_quantity p) (products d).

(** Order numbers and primary keys of the order table are unique. *)
Definition orders_unique (d : DB) : bool :=
  distinct (map order_id (orders d)) && distinct (map order_number (orders d)).

Definition is_validation_error (e : exn) : bool :=
  match e with
  | ValidationError _ => true
  | _ => false
  end.

(** [m] keeps the property [I] of the database, whether it returns or
    raises. *)
Definition preserves (I : DB -> Prop) {A} (m : M A) : Prop :=
  forall w w' r, I (db w) -> m w = (w', r) -> I (db w').

(** [m] never raises a [ValidationError]. *)
Definition quiet {A} (m : M A) : Prop :=
  forall w w' e, m w = (w', Raise e) -> is_validation_error e = false.

(** The operations of the order path, and their effect on the world. *)
Inductive order_op :=
| OpCreate (user : uuid) (validated_data : dict)
| OpPost (r : Request).

Definition run_op (w : World) (op : order_op) : World :=
  match op with
  | OpCreate u vd => fst (create u vd w)
  | OpPost r => fst (post r w)
  end.

Definition run_ops (ops : list order_op) (w : World) : World :=
  fold_left run_op ops w.

End Spec.

(** ** Concrete data: the fixtures of tests.py *)

Module Examples.
Import Models Effects Python ORM Serializers Views.

Definition electronics : Category :=
  mkCategory "c-1" "Electronics" None None "electronics" true.
Definition smartphones : Category :=
  mkCategory "c-2" "Smartphones" None (Some "c-1") "smartphones" true.
Definition android_phones : Category :=
  mkCategory "c-3" "Android Phones" None (Some "c-2") "android-phones" true.

(** A catalogue with an inactive branch that has an active child. *)
Definition books : Category :=
  mkCategory "c-4" "Books" (Some "All kinds of books") None "books" true.
Definition retired : Category :=
  mkCategory "c-5" "Retired" None (Some "c-1") "retired" false.
Definition still_listed : Category :=
  mkCategory "c-6" "Still listed" None (Some "c-5") "still-listed" true.

Definition pruned_catalogue : DB :=
  mkDB [electronics; smartphones; android_phones; books; retired; still_listed]
       [] [] [].

Definition test_product : Product :=
  mkProduct "p-1" "Test Product" 9999 "TEST-001" "c-1" 10 true.

Definition shop : DB :=
  mkDB [electronics; smartphones; android_phones] [test_product] [] [].

(** Primary keys [uuid-0], [uuid-1], ...; every clock reading falls in
    the same second. *)
Definition test_world : World :=
  mkWorld shop (fun n => "uuid-" ++ str_int (Z.of_nat n)) (fun _ => 1700000000) 0.

(** The POST of [test_order_creation]: two units of the test product. *)
Definition test_request : Request :=
  mkRequest "customer-1" "123 Test Street, Nairobi"
            (Some "Please deliver in the morning")
            [mkItem (Some "p-1") (Some (JInt 2))].

(** The same POST for two and a half units, without notes. *)
Definition half_units_request : Request :=
  mkRequest "customer-1" "123 Test Street, Nairobi" None
            [mkItem (Some "p-1") (Some (JFloat (5 # 2)))].

Definition order_data (items : list item_data) : dict :=
  [("shipping_address", VStr "123 Test Street, Nairobi"); ("items", VItems items)].

(** One unit of the test product, on two lines. *)
Definition twice_the_same : list item_data :=
  [mkItem (Some "p-1") (Some (JInt 1)); mkItem (Some "p-1") (Some (JInt 1))].

(** A line for a product that does not exist, then twenty units of the
    test product, of which there are ten. *)
Definition unknown_then_excess : list item_data :=
  [mkItem (Some "p-0") (Some (JInt 1)); mkItem (Some "p-1") (Some (JInt 20))].

(** A line for the test product with [null] for a quantity, then twenty
    units of it. *)
Definition null_then_excess : list item_data :=
  [mkItem (Some "p-1") (Some JNull); mkItem (Some "p-1") (Some (JInt 20))].

(** The world of the tests once two units have been ordered; its clock
    still shows the same second. *)
Definition same_second : World :=
  fst (create "customer-1" (order_data [mkItem (Some "p-1") (Some (JInt 2))]) test_world).

(** The same shop with a clock that advances one second per reading. *)
Definition ticking_world : World :=
  mkWorld shop (fun n => "uuid-" ++ str_int (Z.of_nat n))
          (fun n => 1700000000 + Z.of_nat n) 0.

(** The world once two units of the test product have been ordered. *)
Definition after_first_order : World :=
  fst (create "customer-1" (order_data [mkItem (Some "p-1") (Some (JInt 2))]) ticking_world).

End Examples.

(** ** More of the catalogue *)

Module Catalogue.
Import Models Effects Python ORM Serializers Views.

(** [l], read from its first row, is a chain of parent references that
    starts below [prev]: the first row's parent is [prev] ([None] for a
    root) and every further row's parent is the row before it. *)
Fixpoint path_from (cs : list Category) (prev : option Category) (l : list Category)
    : Prop :=
  match l with
  | [] => True
  | x :: l' => parent_of cs x = Some prev /\ path_from cs (Some x) l'
  end.

(** [x] is reached from [c] by following child links, one at least. *)
Inductive descends (cs : list Category) (c : Category) : Category -> Prop :=
| descends_child d :
    In d cs -> has_parent (cat_id c) d = true -> descends cs c d
| descends_step d x :
    descends cs c d -> In x cs -> has_parent (cat_id d) x = true -> descends cs c x.

(** [CategoryListCreateView.get_queryset] (views.py 93-108).  [parent] is
    the query parameter: [None] when the request has none, [Some ""] when
    it is present and empty. *)
Definition category_list (cs : list Category) (parent : option string) : list Category :=
  let queryset := order_by_name (filter cat_is_active cs) in
  match parent with
  | Some parent_id =>
      if String.eqb parent_id "" then queryset
      else filter (has_parent parent_id) queryset
  | None => filter is_root queryset
  end.

(** Names do not decrease along [l]. *)
Fixpoint sorted_by_name (l : list Category) : Prop :=
  match l with
  | [] => True
  | d :: l' =>
      (forall x, In x l' -> String.leb (cat_name d) (cat_name x) = true)
      /\ sorted_by_name l'
  end.

End Catalogue.

(** ** Reading orders (views.py 335-360) *)

Module OrderViews.
Import Models Effects Python ORM Serializers Views.

(** [Order.STATUS_CHOICES] (models.py 125-132): code and display name. *)
Definition STATUS_CHOICES : list (string * string) :=
  [("pending", "Pending"); ("confirmed", "Confirmed"); ("processing", "Processing");
   ("shipped", "Shipped"); ("delivered", "Delivered"); ("cancelled", "Cancelled")].

(** [Order.objects.filter(customer=customer)] *)
Definition orders_of (d : DB) (customer : uuid) : list Order :=
  filter (fun o => String.eqb (order_customer o) customer) (orders d).

(** [stats['orders_by_status'][status_name] = count] *)
Fixpoint set_count (k : string) (n : nat) (stats : list (string * nat))
    : list (string * nat) :=
  match stats with
  | [] => [(k, n)]
  | (k', n') :: stats' =>
      if String.eqb k' k then (k, n) :: stats' else (k', n') :: set_count k n stats'
  end.

Record Statistics := mkStatistics {
  total_orders : nat;
  total_spent : Decimal;
  orders_by_status : list (string * nat)
}.

(** [order_statistics] (views.py 343-360), for [request.user = customer]. *)
Definition order_statistics (d : DB) (customer : uuid) : Statistics :=
  let orders := orders_of d customer in
  mkStatistics
    (List.length orders)
    (fold_left (fun acc order => acc + total_amount order) orders 0)
    (fold_left
       (fun stats choice =>
          set_count (snd choice)
            (List.length (filter (fun o => String.eqb (order_status o) (fst choice)) orders))
            stats)
       STATUS_CHOICES []).

(** The orders of [l] whose status is none of the declared codes. *)
Definition undeclared_status (l : list Order) : list Order :=
  filter (fun o => negb (existsb (fun choice => String.eqb (order_status o) (fst choice))
                                 STATUS_CHOICES)) l.

Definition sum_counts (stats : list (string * nat)) : nat :=
  fold_right (fun kv acc => (snd kv + acc)%nat) 0%nat stats.

(** [OrderDetailView] (views.py 335-341): the order with primary key [pk]
    among the orders of [customer]; [get_object_or_404] turns a missing
    row into a 404. *)
Definition order_detail (d : DB) (customer : uuid) (pk : uuid) : result Order :=
  match objects_get (fun o => String.eqb (order_id o) pk) (orders_of d customer) with
  | Raise DoesNotExist => Raise Http404
  | r => r
  end.

End OrderViews.

(** ** serializers.py: ProductCreateSerializer (80-110) *)

Module ProductCreation.
Import Models Effects Python ORM Serializers Views.
Local Open Scope py_scope.

Definition set_categories (d : DB) (cs : list Category) : DB :=
  mkDB cs (products d) (orders d) (order_items d).

(** [s.replace(' ', '-')] *)
Fixpoint replace_spaces (s : string) : string :=
  match s with
  | EmptyString => EmptyString
  | String a s' =>
      String (if Ascii.eqb a " "%char then "-"%char else a) (replace_spaces s')
  end.

(** The row a lookup by [parent=parent] selects: a null parent for [None]. *)
Definition parent_is (parent : option Category) (c : Category) : bool :=
  match parent with
  | Some p => has_parent (cat_id p) c
  | None => is_root c
  end.

(** The [INSERT] of a category: [name] is [varchar(100)] and unique,
    [slug] is [varchar(120)] and unique, [parent] is a foreign key. *)
Definition Category_insert (c : Category) : M unit :=
  d <- get_db ;;
  if ((100 <? String.length (cat_name c)) || (120 <? String.length (cat_slug c)))%nat then
    raise (DataError "categories: value too long")
  else if existsb (fun x => String.eqb (cat_id x) (cat_id c)) (categories d) then
    raise (IntegrityError "categories_pkey")
  else if existsb (fun x => String.eqb (cat_name x) (cat_name c)) (categories d) then
    raise (IntegrityError "categories_name_key")
  else if existsb (fun x => String.eqb (cat_slug x) (cat_slug c)) (categories d) then
    raise (IntegrityError "categories_slug_key")
  else if match cat_parent c with
          | Some pid => negb (existsb (fun x => String.eqb (cat_id x) pid) (categories d))
          | None => false
          end then
    raise (IntegrityError "categories_parent_id_fkey")
  else
    put_db (set_categories d (categories d ++ [c])).

(** [Category.objects.create(name=, parent=, slug=)]: [description] is
    null and [is_active] true by default. *)
Definition Category_objects_create (name : string) (parent : option Category)
    (slug : string) : M Category :=
  pk <- new_uuid ;;
  let c := mkCategory pk name None (option_map cat_id parent) slug true in
  Category_insert c ;;;
  ret c.

(** [Category.objects.get(name=, parent=)] *)
Definition Category_objects_get (d : DB) (name : string) (parent : option Category)
    : result Category :=
  objects_get (fun c => String.eqb (cat_name c) name && parent_is parent c) (categories d).

(** [Category.objects.get_or_create(name=, parent=, defaults={'slug': slug})]:
    the row if there is one; otherwise it is created inside a savepoint,
    and after an [IntegrityError] the lookup is tried once more before the
    error is raised again. *)
Definition Category_get_or_create (name : string) (parent : option Category)
    (slug : string) : M Category :=
  fun w =>
    match Category_objects_get (db w) name parent with
    | Ok c => (w, Ok c)
    | Raise DoesNotExist =>
        match atomic (Category_objects_create name parent slug) w with
        | (w', Ok c) => (w', Ok c)
        | (w', Raise (IntegrityError m)) =>
            match Category_objects_get (db w') name parent with
            | Ok c => (w', Ok c)
            | Raise DoesNotExist => (w', Raise (IntegrityError m))
            | Raise e => (w', Raise e)
            end
        | (w', Raise e) => (w', Raise e)
        end
    | Raise e => (w, Raise e)
    end.

(** The [INSERT] of a product: [name] is [varchar(200)], [sku] is
    [varchar(50)] and unique, [stock_quantity] is checked non-negative,
    [category] is a foreign key. *)
Definition Product_insert (p : Product) : M unit :=
  d <- get_db ;;
  if negb (fits_numeric (prod_price p) && fits_integer (stock_quantity p))
     || (200 <? String.length (prod_name p))%nat
     || (50 <? String.length (prod_sku p))%nat then
    raise (DataError "products: value out of range")
  else if stock_quantity p <? 0 then
    raise (IntegrityError "products_stock_quantity_check")
  else if existsb (fun q => String.eqb (prod_id q) (prod_id p)) (products d) then
    raise (IntegrityError "products_pkey")
  else if existsb (fun q => String.eqb (prod_sku q) (prod_sku p)) (products d) then
    raise (IntegrityError "products_sku_key")
  else if negb (existsb (fun c => String.eqb (cat_id c) (prod_category p)) (categories d)) then
    raise (IntegrityError "products_category_id_fkey")
  else
    put_db (set_products d (products d ++ [p])).

(** What [validated_data] holds for a product: [stock_quantity] and
    [is_active] may be left out and then take the defaults of the model.
    The free-text [description] is stored with the row and read by nothing
    here; it is not carried. *)
Record ProductData := mkProductData {
  pd_name : string;
  pd_price : Decimal;
  pd_sku : string;
  pd_stock_quantity : option Z;
  pd_is_active : option bool;
  pd_categories : list string
}.

(** [Product.objects.create] with the keywords of [validated_data]; a
    [category] of [None] violates the not-null constraint. *)
Definition Product_objects_create (data : ProductData) (category : option Category)
    : M Product :=
  pk <- new_uuid ;;
  match category with
  | None => raise (IntegrityError "products: null value in column category_id")
  | Some c =>
      let p := mkProduct pk (pd_name data) (pd_price data) (pd_sku data) (cat_id c)
                         (match pd_stock_quantity data with Some n => n | None => 0 end)
                         (match pd_is_active data with Some b => b | None => true end) in
      Product_insert p ;;;
      ret p
  end.

(** [name] is [unique=True]. *)
Definition category_names_unique (cs : list Category) : bool :=
  Spec.distinct (map cat_name cs).

Section Lower.

(** Python's [str.lower]. *)
Variable lower : string -> string.

(** The [for category_name in categories_data] loop, with
    [parent_category]. *)
Fixpoint category_path (names : list string) (parent_category : option Category)
    : M (option Category) :=
  match names with
  | [] => ret parent_category
  | category_name :: rest =>
      category <- Category_get_or_create category_name parent_category
                    (replace_spaces (lower category_name)) ;;
      category_path rest (Some category)
  end.

(** [ProductCreateSerializer.create]; no transaction surrounds it. *)
Definition create_product (data : ProductData) : M Product :=
  parent_category <- category_path (pd_categories data) None ;;
  Product_objects_create data parent_category.

End Lower.

End ProductCreation.

(** ** Further concrete data *)

Module Fixtures.
Import Models Effects Python ORM Serializers Views.

(** A product filed under the inactive category of [pruned_catalogue]. *)
Definition clearance_item : Product :=
  mkProduct "p-2" "Clearance Item" 500 "CLR-001" "c-5" 3 true.

Definition clearance_shop : DB :=
  mkDB (categories Examples.pruned_catalogue) [clearance_item] [] [].

(** The order of [Examples.after_first_order]. *)
Definition first_order : Order :=
  mkOrder "uuid-0" "ORD-1700000001" "customer-1" "pending" 19998
          "123 Test Street, Nairobi" None.

Definition first_order_data : dict :=
  Examples.order_data [mkItem (Some "p-1") (Some (JInt 2))].

(** A line that asks for minus three units of the test product. *)
Definition minus_three : item_data := mkItem (Some (prod_id Examples.test_product)) (Some (JInt (-3))).

(** Lower case for the letters A to Z, to run the examples with. *)
Definition lower_letter (a : ascii) : ascii :=
  let n := nat_of_ascii a in
  if ((65 <=? n) && (n <=? 90))%nat then ascii_of_nat (n + 32) else a.

Fixpoint ascii_lower (s : string) : string :=
  match s with
  | EmptyString => EmptyString
  | String a s' => String (lower_letter a) (ascii_lower s')
  end.

(** tests.py, [test_product_creation_with_categories]. *)
Definition new_product : ProductCreation.ProductData :=
  ProductCreation.mkProductData "New Product" 14999 "NEW-001" (Some 5) None
    ["Electronics"; "Computers"; "Laptops"].

(** The same product with the SKU of the test product, which is taken. *)
Definition clashing_product : ProductCreation.ProductData :=
  ProductCreation.mkProductData "New Product" 14999 "TEST-001" (Some 5) None
    ["Electronics"; "Computers"; "Laptops"].

End Fixtures.

(** * Proofs *)

Import Models Effects Python ORM Serializers Views Spec.

(** ** Category tree *)

Lemma get_children_step fuel cs c ds :
  _get_children (S fuel) cs c ds
  = fold_left
      (fun acc child =>
         match acc with
         | Some ds' => _get_children fuel cs child (ds' ++ [child])
         | None => None
         end)
      (order_by_name (filter (has_parent (cat_id c)) cs)) (Some ds).
Proof. reflexivity. Qed.

Section CategoryChain.

Variable cs : list Category.
Variables A B C : Category.

Hypothesis A_root : cat_parent A = None.
Hypothesis B_under_A : cat_parent B = Some (cat_id A).
Hypothesis C_under_B : cat_parent C = Some (cat_id B).
Hypothesis A_row : category_by_id cs (cat_id A) = Some A.
Hypothesis B_row : category_by_id cs (cat_id B) = Some B.
Hypothesis A_children : filter (has_parent (cat_id A)) cs = [B].
Hypothesis B_children : filter (has_parent (cat_id B)) cs = [C].
Hypothesis C_children : filter (has_parent (cat_id C)) cs = [].

Lemma chain_descendants fuel :
  (3 <= fuel)%nat -> get_descendants fuel cs A = Some [B; C].
Proof.
  intros Hf. destruct fuel as [|[|[|f]]]; try lia.
  unfold get_descendants.
  rewrite get_children_step, A_children.
  cbn [order_by_name fold_right insert_by_name fold_left app].
  rewrite get_children_step, B_children.
  cbn [order_by_name fold_right insert_by_name fold_left app].
  rewrite get_children_step, C_children. reflexivity.
Qed.

Lemma chain_level fuel :
  (3 <= fuel)%nat -> level fuel cs C = Some 2%nat.
Proof.
  intros Hf. destruct fuel as [|[|[|f]]]; try lia.
  unfold level. cbn [level_loop].
  rewrite C_under_B, B_row, B_under_A, A_row, A_root. reflexivity.
Qed.

Lemma chain_full_path fuel :
  (3 <= fuel)%nat ->
  get_full_path fuel cs C
  = Some (cat_name A ++ " > " ++ cat_name B ++ " > " ++ cat_name C).
Proof.
  intros Hf. destruct fuel as [|[|[|f]]]; try lia.
  unfold get_full_path, parent_of. rewrite C_under_B, B_row.
  cbn [full_path_loop]. unfold parent_of.
  rewrite B_under_A, A_row, A_root. reflexivity.
Qed.

End CategoryChain.

(** C6. In a table where A is a root, B's parent is A, C's parent is B and
    these are the only child links below A, [get_descendants] of A is
    B then C (A itself is not among them), the level of C is 2 and the full
    path of C is the three names joined by " > ". Three turns of fuel are
    enough. *)
Theorem three_level_chain (cs : list Category) (A B C : Category) (fuel : nat) :
  cat_parent A = None ->
  cat_parent B = Some (cat_id A) ->
  cat_parent C = Some (cat_id B) ->
  category_by_id cs (cat_id A) = Some A ->
  category_by_id cs (cat_id B) = Some B ->
  filter (has_parent (cat_id A)) cs = [B] ->
  filter (has_parent (cat_id B)) cs = [C] ->
  filter (has_parent (cat_id C)) cs = [] ->
  (3 <= fuel)%nat ->
  get_descendants fuel cs A = Some [B; C] /\
  level fuel cs C = Some 2%nat /\
  get_full_path fuel cs C
  = Some (cat_name A ++ " > " ++ cat_name B ++ " > " ++ cat_name C).
Proof.
  intros HA HB HC HrA HrB HcA HcB HcC Hf. repeat split.
  - now apply chain_descendants.
  - now apply (chain_level cs A B C).
  - now apply chain_full_path.
Qed.

Lemma three_level_chain_witness :
  get_descendants 3 (categories Examples.shop) Examples.electronics
  = Some [Examples.smartphones; Examples.android_phones] /\
  level 3 (categories Examples.shop) Examples.android_phones = Some 2%nat /\
  get_full_path 3 (categories Examples.shop) Examples.android_phones
  = Some "Electronics > Smartphones > Android Phones".
Proof.
  apply (three_level_chain (categories Examples.shop) Examples.electronics
           Examples.smartphones Examples.android_phones 3);
    solve [reflexivity | lia].
Defined.

(** ** Rows with unique keys *)

Lemma distinct_NoDup l : distinct l = true <-> NoDup l.
Proof.
  induction l as [|s l IH]; simpl.
  - split; [constructor | reflexivity].
  - rewrite andb_true_iff, negb_true_iff, IH. split.
    + intros [Hn Hd]. constructor; [|assumption].
      intros Hin. assert (existsb (String.eqb s) l = true) as E.
      { apply existsb_exists. exists s. split; [assumption | apply String.eqb_refl]. }
      congruence.
    + intros Hnd. inversion Hnd as [|? ? Hn Hd]; subst. split; [|assumption].
      destruct (existsb (String.eqb s) l) eqn:E; [|reflexivity].
      apply existsb_exists in E. destruct E as [y [Hy Hs]].
      apply String.eqb_eq in Hs. subst y. contradiction.
Qed.

Section UniqueKey.

Context {A : Type} (key : A -> string).

Lemma unique_key_eq (l : list A) (x y : A) :
  distinct (map key l) = true -> In x l -> In y l -> key x = key y -> x = y.
Proof.
  rewrite distinct_NoDup. induction l as [|a l IH]; simpl; [contradiction|].
  intros Hnd Hx Hy Hk. inversion Hnd as [|? ? Hn Hd]; subst.
  destruct Hx as [-> | Hx], Hy as [-> | Hy]; trivial.
  - exfalso. apply Hn. rewrite Hk. now apply in_map.
  - exfalso. apply Hn. rewrite <- Hk. now apply in_map.
  - now apply IH.
Qed.

Lemma filter_key_absent (P : A -> bool) (l : list A) (k : string) :
  ~ In k (map key l) -> filter (fun y => String.eqb (key y) k && P y) l = [].
Proof.
  induction l as [|b l IH]; simpl; [reflexivity|]. intros Hn.
  destruct (String.eqb (key b) k) eqn:E.
  - apply String.eqb_eq in E. exfalso. apply Hn. now left.
  - simpl. apply IH. intros Hin. apply Hn. now right.
Qed.

Lemma filter_unique_key (P : A -> bool) (l : list A) (x : A) :
  distinct (map key l) = true -> In x l ->
  filter (fun y => String.eqb (key y) (key x) && P y) l = if P x then [x] else [].
Proof.
  rewrite distinct_NoDup. induction l as [|a l IH]; simpl; [contradiction|].
  intros Hnd Hx. inversion Hnd as [|? ? Hn Hd]; subst.
  destruct Hx as [-> | Hx].
  - rewrite String.eqb_refl. simpl.
    rewrite (filter_key_absent P l (key x) Hn). now destruct (P x).
  - destruct (String.eqb (key a) (key x)) eqn:E.
    + apply String.eqb_eq in E. exfalso. apply Hn. rewrite E. now apply in_map.
    + simpl. now apply IH.
Qed.

Lemma find_unique_key (l : list A) (x : A) :
  distinct (map key l) = true -> In x l ->
  find (fun y => String.eqb (key y) (key x)) l = Some x.
Proof.
  rewrite distinct_NoDup. induction l as [|a l IH]; simpl; [contradiction|].
  intros Hnd Hx. inversion Hnd as [|? ? Hn Hd]; subst.
  destruct Hx as [-> | Hx].
  - now rewrite String.eqb_refl.
  - destruct (String.eqb (key a) (key x)) eqn:E.
    + apply String.eqb_eq in E. exfalso. apply Hn. rewrite E. now apply in_map.
    + now apply IH.
Qed.

End UniqueKey.

Lemma objects_get_unique {A} (key : A -> string) (P : A -> bool) (l : list A) (x : A) :
  distinct (map key l) = true -> In x l -> P x = true ->
  objects_get (fun y => String.eqb (key y) (key x) && P y) l = Ok x.
Proof.
  intros Hd Hx HP. unfold objects_get.
  rewrite (filter_unique_key key P l x Hd Hx), HP. reflexivity.
Qed.

Lemma objects_get_In {A} (p : A -> bool) (l : list A) (x : A) :
  objects_get p l = Ok x -> In x l /\ p x = true /\ filter p l = [x].
Proof.
  unfold objects_get. destruct (filter p l) as [|a [|b r]] eqn:E; try discriminate.
  intros [= ->]. assert (In x (filter p l)) as H by (rewrite E; now left).
  apply filter_In in H. tauto.
Qed.

Lemma objects_get_none {A} (p : A -> bool) (l : list A) :
  (forall x, In x l -> p x = false) -> objects_get p l = Raise DoesNotExist.
Proof.
  intros H. unfold objects_get.
  assert (filter p l = []) as ->; [|reflexivity].
  induction l as [|a l IH]; simpl; [reflexivity|].
  rewrite (H a (or_introl eq_refl)). apply IH. intros x Hx. apply H. now right.
Qed.

(** ** Catalogue aggregation *)

Lemma products_in_nil (cats : list Category) (ps : list Product) :
  (forall p, In p ps -> prod_is_active p = true ->
             forall k, In k cats -> prod_category p <> cat_id k) ->
  products_in cats ps = [].
Proof.
  intros H. unfold products_in.
  induction ps as [|p ps IH]; simpl; [reflexivity|].
  assert (existsb (fun c => String.eqb (cat_id c) (prod_category p)) cats
          && prod_is_active p = false) as ->.
  { destruct (prod_is_active p) eqn:Ea; [|apply andb_false_r].
    rewrite andb_true_r.
    destruct (existsb _ cats) eqn:E; [|reflexivity].
    apply existsb_exists in E. destruct E as [k [Hk Hid]].
    apply String.eqb_eq in Hid. exfalso.
    apply (H p (or_introl eq_refl) Ea k Hk). now symmetry. }
  apply IH. intros q Hq. apply H. now right.
Qed.

(** ** Levels *)

Lemma level_loop_shift f cs c k :
  level_loop f cs c (S k) = option_map S (level_loop f cs c k).
Proof.
  revert c k. induction f as [|f IH]; intros c k; simpl; [reflexivity|].
  destruct (cat_parent c) as [pid|]; [|reflexivity].
  destruct (category_by_id cs pid) as [p|]; [apply IH | reflexivity].
Qed.

Lemma level_unfold f cs c :
  level (S f) cs c
  = match cat_parent c with
    | None => Some 0%nat
    | Some pid =>
        match category_by_id cs pid with
        | Some p => option_map S (level f cs p)
        | None => None
        end
    end.
Proof.
  unfold level. simpl. destruct (cat_parent c) as [pid|]; [|reflexivity].
  destruct (category_by_id cs pid) as [p|]; [apply level_loop_shift | reflexivity].
Qed.

Lemma level_mono f f' cs c k :
  level f cs c = Some k -> (f <= f')%nat -> level f' cs c = Some k.
Proof.
  revert f' c k. induction f as [|f IH]; intros f' c k H Hle; [discriminate|].
  destruct f' as [|f']; [lia|]. rewrite level_unfold in *.
  destruct (cat_parent c) as [pid|]; [|assumption].
  destruct (category_by_id cs pid) as [p|]; [|discriminate].
  destruct (level f cs p) as [j|] eqn:E; [|discriminate].
  rewrite (IH f' p j E); [assumption | lia].
Qed.

Lemma level_deterministic f f' cs c k k' :
  level f cs c = Some k -> level f' cs c = Some k' -> k = k'.
Proof.
  intros H H'.
  apply (level_mono f (Nat.max f f')) in H; [|lia].
  apply (level_mono f' (Nat.max f f')) in H'; [|lia].
  congruence.
Qed.

Lemma level_least_fuel f cs c k :
  level f cs c = Some k -> level (S k) cs c = Some k.
Proof.
  revert c k. induction f as [|f IH]; intros c k H; [discriminate|].
  rewrite level_unfold in H. rewrite level_unfold.
  destruct (cat_parent c) as [pid|]; [|assumption].
  destruct (category_by_id cs pid) as [p|]; [|discriminate].
  destruct (level f cs p) as [j|] eqn:E; [|discriminate].
  simpl in H. injection H as <-. now rewrite (IH p j E).
Qed.

Lemma category_by_id_In cs i c : category_by_id cs i = Some c -> In c cs /\ cat_id c = i.
Proof.
  unfold category_by_id. intros H. apply find_some in H.
  destruct H as [Hin Heq]. apply String.eqb_eq in Heq. tauto.
Qed.

(** The rows met on the way from [c] to its root are pairwise different,
    so a level is smaller than the number of rows. *)
Lemma level_path f cs c k :
  In c cs -> level f cs c = Some k ->
  exists l, List.length l = S k /\ incl l cs /\ NoDup l /\
            forall a, In a l -> exists j, (j <= k)%nat /\ level (S j) cs a = Some j.
Proof.
  revert c k. induction f as [|f IH]; intros c k Hc H; [discriminate|].
  pose proof (level_least_fuel _ _ _ _ H) as Hmin.
  rewrite level_unfold in H.
  destruct (cat_parent c) as [pid|] eqn:Ep.
  - destruct (category_by_id cs pid) as [p|] eqn:Ef; [|discriminate].
    destruct (level f cs p) as [j|] eqn:E; [|discriminate].
    simpl in H. injection H as <-.
    destruct (category_by_id_In _ _ _ Ef) as [Hp _].
    destruct (IH p j Hp E) as [l [Hlen [Hincl [Hnd Hall]]]].
    exists (c :: l). repeat split.
    + simpl. now rewrite Hlen.
    + intros a [<- | Ha]; [assumption | now apply Hincl].
    + constructor; [|assumption]. intros Hin.
      destruct (Hall c Hin) as [i [Hi Hl]].
      pose proof (level_deterministic _ _ _ _ _ _ Hl Hmin). lia.
    + intros a [<- | Ha].
      * exists (S j). split; [lia | assumption].
      * destruct (Hall a Ha) as [i [Hi Hl]]. exists i. split; [lia | assumption].
  - injection H as <-. exists [c]. repeat split.
    + intros a [<- | []]. assumption.
    + constructor; [intros [] | constructor].
    + intros a [<- | []]. exists 0%nat. split; [lia | assumption].
Qed.

Lemma level_bound f cs c k :
  In c cs -> level f cs c = Some k -> (k < List.length cs)%nat.
Proof.
  intros Hc H. destruct (level_path f cs c k Hc H) as [l [Hlen [Hincl [Hnd _]]]].
  pose proof (NoDup_incl_length Hnd Hincl). lia.
Qed.

Lemma level_of_child f cs p c k :
  category_ids_unique cs = true -> In p cs -> has_parent (cat_id p) c = true ->
  level f cs p = Some k -> level (S f) cs c = Some (S k).
Proof.
  intros Hu Hp Hc H. rewrite level_unfold. unfold has_parent in Hc.
  destruct (cat_parent c) as [pid|]; [|discriminate].
  apply String.eqb_eq in Hc. subst pid. unfold category_by_id.
  rewrite (find_unique_key cat_id cs p Hu Hp), H. reflexivity.
Qed.

(** ** Sorted querysets and the loop over them *)

Lemma In_insert_by_name c x l : In x (insert_by_name c l) <-> x = c \/ In x l.
Proof.
  induction l as [|d l IH]; simpl.
  - intuition.
  - destruct (cat_name c <=? cat_name d)%string; simpl; [intuition|].
    rewrite IH. intuition.
Qed.

Lemma In_order_by_name x l : In x (order_by_name l) <-> In x l.
Proof.
  induction l as [|d l IH]; simpl; [tauto|].
  rewrite In_insert_by_name, IH. intuition.
Qed.

Lemma In_active_children cs parent c :
  In c (active_children cs parent) <->
  In c cs /\ cat_is_active c = true /\
  match parent with
  | Some p => has_parent (cat_id p) c = true
  | None => cat_parent c = None
  end.
Proof.
  unfold active_children. rewrite In_order_by_name, filter_In, andb_true_iff.
  destruct parent as [p|]; [tauto|].
  unfold is_root. destruct (cat_parent c); intuition discriminate.
Qed.

Lemma for_each_Forall2 {A B} (f : A -> option B) l bs :
  for_each f l = Some bs -> Forall2 (fun a b => f a = Some b) l bs.
Proof.
  revert bs. induction l as [|a l IH]; simpl; intros bs H.
  - injection H as <-. constructor.
  - destruct (f a) as [b|] eqn:E; [|discriminate].
    destruct (for_each f l) as [bs'|]; [|discriminate].
    injection H as <-. constructor; [assumption | now apply IH].
Qed.

Lemma for_each_total {A B} (f : A -> option B) l :
  (forall a, In a l -> exists b, f a = Some b) -> exists bs, for_each f l = Some bs.
Proof.
  induction l as [|a l IH]; simpl; intros H.
  - now exists [].
  - destruct (H a (or_introl eq_refl)) as [b ->].
    destruct IH as [bs ->]; [intros x Hx; apply H; now right|].
    now exists (b :: bs).
Qed.

Lemma Forall2_In_r {A B} (R : A -> B -> Prop) l bs b :
  Forall2 R l bs -> In b bs -> exists a, In a l /\ R a b.
Proof.
  induction 1 as [|a b' l bs Hab HF IH]; simpl; [contradiction|].
  intros [<- | Hb].
  - exists a. tauto.
  - destruct (IH Hb) as [a' [Ha' HR]]. exists a'. tauto.
Qed.

(** ** The public category tree *)

Lemma build_tree_unfold fuel lfuel cs parent :
  build_tree (S fuel) lfuel cs parent
  = for_each
      (fun category =>
         match level lfuel cs category with
         | Some l =>
             match build_tree fuel lfuel cs (Some category) with
             | Some ch => Some (node_of category l ch)
             | None => None
             end
         | None => None
         end)
      (active_children cs parent).
Proof. reflexivity. Qed.

Lemma build_tree_top fuel lfuel cs parent t n :
  build_tree fuel lfuel cs parent = Some t -> In n t ->
  exists c fuel',
    In c (active_children cs parent) /\
    level lfuel cs c = Some (node_level n) /\
    build_tree fuel' lfuel cs (Some c) = Some (node_children n) /\
    n = node_of c (node_level n) (node_children n).
Proof.
  destruct fuel as [|fuel]; [discriminate|].
  rewrite build_tree_unfold. intros H Hn.
  apply for_each_Forall2 in H.
  destruct (Forall2_In_r _ _ _ _ H Hn) as [c [Hc Hf]].
  destruct (level lfuel cs c) as [l|] eqn:El; [|discriminate].
  destruct (build_tree fuel lfuel cs (Some c)) as [ch|] eqn:Eb; [|discriminate].
  injection Hf as <-. exists c, fuel. simpl. auto.
Qed.

Lemma build_tree_roots fuel lfuel cs parent t :
  build_tree fuel lfuel cs parent = Some t ->
  map node_id t = map cat_id (active_children cs parent).
Proof.
  destruct fuel as [|fuel]; [discriminate|].
  rewrite build_tree_unfold. intros H. apply for_each_Forall2 in H.
  induction H as [|c n l t Hf HF IH]; [reflexivity|]. simpl.
  destruct (level lfuel cs c) as [k|]; [|discriminate].
  destruct (build_tree fuel lfuel cs (Some c)) as [ch|]; [|discriminate].
  injection Hf as <-. simpl. now rewrite IH.
Qed.

(** Above a row selected under [parent], the first reference leads to
    [parent]. *)
Lemma below_active_child cs parent c y :
  category_ids_unique cs = true ->
  match parent with Some p => In p cs | None => True end ->
  In c (active_children cs parent) ->
  below cs y c ->
  (exists r, In r cs /\ cat_id r = y /\ cat_is_active r = true)
  \/ match parent with Some p => below cs y p | None => False end.
Proof.
  intros Hu Hp Hc Hb. apply In_active_children in Hc.
  destruct Hc as [Hin [Hact Hpar]].
  inversion Hb as [c' Hid | c' pid p' Hcp Hfind Hb']; subst.
  - left. exists c. auto.
  - right. destruct parent as [p|]; [|congruence].
    unfold has_parent in Hpar. rewrite Hcp in Hpar.
    apply String.eqb_eq in Hpar. subst pid.
    unfold category_by_id in Hfind.
    rewrite (find_unique_key cat_id cs p Hu Hp) in Hfind. now injection Hfind as <-.
Qed.

Lemma build_tree_nodes fuel lfuel cs :
  category_ids_unique cs = true ->
  forall parent t n,
    match parent with Some p => In p cs | None => True end ->
    build_tree fuel lfuel cs parent = Some t ->
    in_forest n t ->
    exists c,
      In c cs /\ cat_is_active c = true /\
      n = node_of c (node_level n) (node_children n) /\
      level lfuel cs c = Some (node_level n) /\
      map node_id (node_children n) = map cat_id (active_children cs (Some c)) /\
      forall y, below cs y c ->
        (exists r, In r cs /\ cat_id r = y /\ cat_is_active r = true)
        \/ match parent with Some p => below cs y p | None => False end.
Proof.
  intros Hu. induction fuel as [|fuel IH]; intros parent t n Hp H Hn; [discriminate|].
  inversion Hn as [n' t' Hin | n' m t' Hm Hsub]; subst.
  - destruct (build_tree_top _ _ _ _ _ _ H Hin) as [c [f' [Hc [Hl [Hch Hnode]]]]].
    exists c. pose proof (proj1 (In_active_children _ _ _) Hc) as [Hcs [Hact _]].
    repeat split; trivial.
    + apply (build_tree_roots f' lfuel _ _ _ Hch).
    + intros y Hy. now apply (below_active_child cs parent c y).
  - rewrite build_tree_unfold in H. apply for_each_Forall2 in H.
    destruct (Forall2_In_r _ _ _ _ H Hm) as [cm [Hcm Hf]].
    destruct (level lfuel cs cm) as [l|]; [|discriminate].
    destruct (build_tree fuel lfuel cs (Some cm)) as [ch|] eqn:Eb; [|discriminate].
    injection Hf as <-. simpl in Hsub.
    pose proof (proj1 (In_active_children _ _ _) Hcm) as [Hcs _].
    destruct (IH (Some cm) ch n Hcs Eb Hsub) as [c [Hc [Hact [Hnode [Hl [Hch Hbelow]]]]]].
    exists c. repeat split; trivial.
    intros y Hy. destruct (Hbelow y Hy) as [Hr | Hbm]; [now left|].
    now apply (below_active_child cs parent cm y).
Qed.

(** [build_tree] returns once the fuel covers the rows that can still lie
    below [parent]. *)
Lemma build_tree_total cs lfuel :
  category_ids_unique cs = true -> (List.length cs <= lfuel)%nat ->
  forall fuel parent,
    match parent with
    | Some p => In p cs /\ exists k, level lfuel cs p = Some k /\ (List.length cs <= fuel + k)%nat
    | None => (List.length cs < fuel)%nat
    end ->
    exists t, build_tree fuel lfuel cs parent = Some t.
Proof.
  intros Hu Hlf. induction fuel as [|fuel IH]; intros parent Hp.
  - destruct parent as [p|]; [|lia].
    destruct Hp as [Hin [k [Hl Hle]]].
    pose proof (level_bound _ _ _ _ Hin Hl). lia.
  - rewrite build_tree_unfold. apply for_each_total. intros c Hc.
    apply In_active_children in Hc. destruct Hc as [Hcs [_ Hpar]].
    assert (exists k, level lfuel cs c = Some k /\ (List.length cs <= fuel + k)%nat)
      as [k [Hl Hle]].
    { destruct parent as [p|].
      - destruct Hp as [Hin [k [Hl Hle]]]. exists (S k).
        pose proof (level_of_child _ _ _ _ _ Hu Hin Hpar (level_least_fuel _ _ _ _ Hl)) as Hc.
        pose proof (level_bound _ _ _ _ Hcs Hc). split; [|lia].
        apply (level_mono (S (S k))); [assumption | lia].
      - exists 0%nat. split; [|lia].
        destruct lfuel as [|lf]; [destruct cs; [contradiction | simpl in Hlf; lia]|].
        rewrite level_unfold, Hpar. reflexivity. }
    rewrite Hl. destruct (IH (Some c)) as [ch ->].
    + split; [assumption|]. exists k. split; [assumption | lia].
    + eexists. reflexivity.
Qed.

(** C7. With unique primary keys, [category_tree] returns (fuel above the
    number of rows suffices; an empty table gives the empty list), and in
    what it returns: every node, at any depth, is built from an active row
    of the table and carries that row's id, name, slug, description and
    level, with one child per active row whose parent it is; every row on
    the way from a node up to its root is active, so nothing that lies
    below an inactive row (the inactive row included) occurs in the tree;
    the top-level nodes are the active rows whose parent is null. *)
Theorem category_tree_prunes_inactive (d : DB) :
  category_ids_unique (categories d) = true ->
  (categories d = [] -> forall fuel, category_tree (S fuel) d = Some [])
  /\ (exists tree, category_tree (S (List.length (categories d))) d = Some tree)
  /\ forall fuel tree,
       category_tree fuel d = Some tree ->
       (forall n, in_forest n tree ->
          exists c, In c (categories d) /\ cat_is_active c = true /\
            n = Node (cat_id c) (cat_name c) (cat_slug c) (cat_description c)
                     (node_level n) (node_children n) /\
            level fuel (categories d) c = Some (node_level n) /\
            map node_id (node_children n)
            = map cat_id (active_children (categories d) (Some c)))
       /\ (forall x c n,
            In x (categories d) -> cat_is_active x = false ->
            In c (categories d) -> below (categories d) (cat_id x) c ->
            in_forest n tree -> node_id n <> cat_id c)
       /\ map node_id tree = map cat_id (active_children (categories d) None)
       /\ (forall c, In c (active_children (categories d) None) <->
                     In c (categories d) /\ cat_is_active c = true /\ cat_parent c = None).
Proof.
  intros Hu. split; [|split].
  - intros E fuel. unfold category_tree. rewrite E. reflexivity.
  - unfold category_tree. apply build_tree_total; [assumption | lia | lia].
  - intros fuel tree H. unfold category_tree in H. split; [|split; [|split]].
    + intros n Hn.
      destruct (build_tree_nodes _ _ _ Hu None tree n I H Hn)
        as [c [Hc [Hact [Hnode [Hl [Hch _]]]]]].
      exists c. auto.
    + intros x c n Hx Hoff Hc Hb Hn Heq.
      destruct (build_tree_nodes _ _ _ Hu None tree n I H Hn)
        as [c' [Hc' [_ [Hnode [_ [_ Hbelow]]]]]].
      assert (cat_id c' = cat_id c) as Hid by (rewrite <- Heq, Hnode; reflexivity).
      pose proof (unique_key_eq cat_id _ _ _ Hu Hc' Hc Hid). subst c'.
      destruct (Hbelow _ Hb) as [[r [Hr [Hrid Hract]]] | []].
      pose proof (unique_key_eq cat_id _ _ _ Hu Hr Hx Hrid). subst r. congruence.
    + now apply (build_tree_roots fuel fuel).
    + intros c. apply (In_active_children (categories d) None c).
Qed.

Lemma category_tree_prunes_inactive_witness :
  category_ids_unique (categories Examples.pruned_catalogue) = true
  /\ category_tree 7 Examples.pruned_catalogue
     = Some [Node "c-4" "Books" "books" (Some "All kinds of books") 0 [];
             Node "c-1" "Electronics" "electronics" None 0
               [Node "c-2" "Smartphones" "smartphones" None 1
                  [Node "c-3" "Android Phones" "android-phones" None 2 []]]]
  /\ forall tree n,
       category_tree 7 Examples.pruned_catalogue = Some tree ->
       in_forest n tree -> node_id n <> "c-6".
Proof.
  split; [reflexivity|]. split; [reflexivity|].
  intros tree n Htree Hn.
  destruct (category_tree_prunes_inactive Examples.pruned_catalogue eq_refl)
    as [_ [_ Hspec]].
  destruct (Hspec 7%nat tree Htree) as [_ [Hcut _]].
  apply (Hcut Examples.retired Examples.still_listed n).
  - simpl. tauto.
  - reflexivity.
  - simpl. tauto.
  - apply (below_parent _ _ _ "c-5" Examples.retired); [reflexivity | reflexivity |].
    now apply below_self.
  - assumption.
Defined.

(** ** Reasoning about the effects *)

Lemma bind_inv {A B} (m : M A) (k : A -> M B) w w' r :
  bind m k w = (w', r) ->
  (exists w1 a, m w = (w1, Ok a) /\ k a w1 = (w', r))
  \/ (exists e, m w = (w', Raise e) /\ r = Raise e).
Proof.
  unfold bind. destruct (m w) as [w1 [a|e]] eqn:E; intros H.
  - left. exists w1, a. auto.
  - right. injection H as <- <-. exists e. auto.
Qed.

Lemma bind_ok {A B} (m : M A) (k : A -> M B) w w' b :
  bind m k w = (w', Ok b) ->
  exists w1 a, m w = (w1, Ok a) /\ k a w1 = (w', Ok b).
Proof.
  intros H. destruct (bind_inv _ _ _ _ _ H) as [H1 | [e [_ H2]]];
    [assumption | discriminate].
Qed.

Lemma lift_inv {A} (r0 : result A) w w' r : lift r0 w = (w', r) -> w' = w /\ r0 = r.
Proof. unfold lift. intros [= <- <-]. auto. Qed.

Lemma get_db_inv w w' r : get_db w = (w', r) -> w' = w /\ r = Ok (db w).
Proof. unfold get_db. intros [= <- <-]. auto. Qed.

Lemma atomic_inv {A} (m : M A) w w' r :
  atomic m w = (w', r) ->
  match r with
  | Ok a => m w = (w', Ok a)
  | Raise e => db w' = db w /\ exists w1, m w = (w1, Raise e)
  end.
Proof.
  unfold atomic. destruct (m w) as [w1 [a|e]]; intros [= <- <-].
  - reflexivity.
  - split; [reflexivity | now exists w1].
Qed.

Section Preservation.

Variable I : DB -> Prop.

Lemma preserves_bind {A B} (m : M A) (k : A -> M B) :
  preserves I m -> (forall a, preserves I (k a)) -> preserves I (bind m k).
Proof.
  intros Hm Hk w w' r HI H.
  destruct (bind_inv _ _ _ _ _ H) as [[w1 [a [H1 H2]]] | [e [H1 _]]].
  - apply (Hk a w1 w' r); [|assumption]. now apply (Hm w w1 (Ok a)).
  - now apply (Hm w w' (Raise e)).
Qed.

Lemma preserves_pure {A} (m : M A) :
  (forall w w' r, m w = (w', r) -> db w' = db w) -> preserves I m.
Proof. intros Hm w w' r HI H. now rewrite (Hm w w' r H). Qed.

Lemma preserves_ret {A} (a : A) : preserves I (ret a).
Proof. apply preserves_pure. unfold ret. now intros w w' r [= <- _]. Qed.

Lemma preserves_raise {A} (e : exn) : preserves I (@raise A e).
Proof. apply preserves_pure. unfold raise. now intros w w' r [= <- _]. Qed.

Lemma preserves_lift {A} (r0 : result A) : preserves I (lift r0).
Proof. apply preserves_pure. unfold lift. now intros w w' r [= <- _]. Qed.

Lemma preserves_get_db : preserves I get_db.
Proof. apply preserves_pure. unfold get_db. now intros w w' r [= <- _]. Qed.

Lemma preserves_new_uuid : preserves I new_uuid.
Proof. apply preserves_pure. unfold new_uuid. now intros w w' r [= <- _]. Qed.

Lemma preserves_int_time : preserves I int_time.
Proof. apply preserves_pure. unfold int_time. now intros w w' r [= <- _]. Qed.

Lemma preserves_put_db (d : DB) : I d -> preserves I (put_db d).
Proof. intros Hd w w' r _. unfold put_db. now intros [= <- _]. Qed.

Lemma preserves_atomic {A} (m : M A) : preserves I m -> preserves I (atomic m).
Proof.
  intros Hm w w' r HI H. apply atomic_inv in H. destruct r as [a|e].
  - now apply (Hm w w' (Ok a)).
  - destruct H as [-> _]. assumption.
Qed.

End Preservation.

Lemma quiet_bind {A B} (m : M A) (k : A -> M B) :
  quiet m -> (forall a, quiet (k a)) -> quiet (bind m k).
Proof.
  intros Hm Hk w w' e H.
  destruct (bind_inv _ _ _ _ _ H) as [[w1 [a [H1 H2]]] | [e' [H1 [= ->]]]].
  - now apply (Hk a w1 w').
  - now apply (Hm w w').
Qed.

Lemma quiet_ret {A} (a : A) : quiet (ret a).
Proof. unfold quiet, ret. discriminate. Qed.

Lemma quiet_raise {A} (e : exn) : is_validation_error e = false -> quiet (@raise A e).
Proof. unfold quiet, raise. now intros H w w' e' [= _ <-]. Qed.

Lemma quiet_lift {A} (r0 : result A) :
  (forall e, r0 = Raise e -> is_validation_error e = false) -> quiet (lift r0).
Proof. unfold quiet, lift. intros H w w' e [= _ ->]. now apply H. Qed.

Lemma quiet_get_db : quiet get_db.
Proof. unfold quiet, get_db. discriminate. Qed.

Lemma quiet_put_db d : quiet (put_db d).
Proof. unfold quiet, put_db. discriminate. Qed.

Lemma quiet_new_uuid : quiet new_uuid.
Proof. unfold quiet, new_uuid. discriminate. Qed.

Lemma quiet_int_time : quiet int_time.
Proof. unfold quiet, int_time. discriminate. Qed.

Lemma quiet_atomic {A} (m : M A) : quiet m -> quiet (atomic m).
Proof.
  intros Hm w w' e H. apply atomic_inv in H. destruct H as [_ [w1 H]].
  now apply (Hm w w1).
Qed.

Lemma objects_get_quiet {A} (p : A -> bool) (l : list A) e :
  objects_get p l = Raise e -> is_validation_error e = false.
Proof.
  unfold objects_get. destruct (filter p l) as [|a [|b r]]; intros [= <-]; reflexivity.
Qed.

Ltac quiet_ifs :=
  repeat match goal with
         | |- quiet (if ?b then _ else _) => destruct b
         | |- quiet (bind _ _) => apply quiet_bind; [|intros ?]
         | |- quiet (raise _) => apply quiet_raise; reflexivity
         | |- quiet (put_db _) => apply quiet_put_db
         | |- quiet (ret _) => apply quiet_ret
         | |- quiet get_db => apply quiet_get_db
         | |- quiet new_uuid => apply quiet_new_uuid
         | |- quiet int_time => apply quiet_int_time
         end.

Lemma Product_save_quiet p : quiet (Product_save p).
Proof. unfold Product_save. quiet_ifs. Qed.

Lemma Order_super_save_quiet o f : quiet (Order_super_save o f).
Proof. unfold Order_super_save. quiet_ifs. Qed.

Lemma Order_save_quiet o f : quiet (Order_save o f).
Proof.
  unfold Order_save. quiet_ifs; apply Order_super_save_quiet.
Qed.

Lemma OrderItem_super_save_quiet i : quiet (OrderItem_super_save i).
Proof. unfold OrderItem_super_save. quiet_ifs. Qed.

Lemma OrderItem_objects_create_quiet o p q u : quiet (OrderItem_objects_create o p q u).
Proof.
  unfold OrderItem_objects_create, OrderItem_save. quiet_ifs.
  destruct (as_int q); quiet_ifs. apply OrderItem_super_save_quiet.
Qed.

(** ** What a successful write has checked and done *)

Ltac run_checks H :=
  repeat match type of H with
         | context [if ?b then _ else _] =>
             let E := fresh "E" in destruct b eqn:E
         end;
  try discriminate H.

Lemma OrderItem_super_save_ok i w w' u :
  OrderItem_super_save i w = (w', Ok u) ->
  db w' = set_order_items (db w) (order_items (db w) ++ [i])
  /\ 0 <= quantity i
  /\ existsb (fun j => String.eqb (item_order j) (item_order i)
                       && String.eqb (item_product j) (item_product i))
             (order_items (db w)) = false
  /\ existsb (fun o => String.eqb (order_id o) (item_order i)) (orders (db w)) = true.
Proof.
  unfold OrderItem_super_save, bind, get_db, raise, put_db. intros H.
  run_checks H. injection H as <- _. simpl.
  apply negb_false_iff in E3. apply Z.ltb_ge in E0. auto.
Qed.

Lemma Product_save_ok p w w' u :
  Product_save p w = (w', Ok u) ->
  0 <= stock_quantity p
  /\ db w' = set_products (db w)
               (if existsb (fun q => String.eqb (prod_id q) (prod_id p)) (products (db w))
                then map (fun q => if String.eqb (prod_id q) (prod_id p) then p else q)
                         (products (db w))
                else products (db w) ++ [p]).
Proof.
  unfold Product_save, bind, get_db, raise, put_db. intros H.
  run_checks H; injection H as <- _; simpl; apply Z.ltb_ge in E0; auto.
Qed.

Lemma Order_super_save_ok o f w w' u :
  Order_super_save o f w = (w', Ok u) ->
  db w' = set_orders (db w)
            (if existsb (fun q => String.eqb (order_id q) (order_id o)) (orders (db w))
             then map (fun q => if String.eqb (order_id q) (order_id o) then o else q)
                      (orders (db w))
             else orders (db w) ++ [o])
  /\ (f = true ->
      existsb (fun q => String.eqb (order_id q) (order_id o)) (orders (db w)) = false)
  /\ existsb (fun q => String.eqb (order_number q) (order_number o)
                       && negb (String.eqb (order_id q) (order_id o)))
             (orders (db w)) = false.
Proof.
  unfold Order_super_save, bind, get_db, raise, put_db. intros H.
  run_checks H; injection H as <- _; simpl; repeat split; trivial;
    intros ->; simpl in *; congruence.
Qed.

Lemma Order_save_ok o f w w' o' :
  Order_save o f w = (w', Ok o') ->
  exists w1,
    Order_super_save o' f w1 = (w', Ok tt)
    /\ db w1 = db w
    /\ o' = (if String.eqb (order_number o) ""
             then with_order_number o (generate_order_number (time_time w (tick w)))
             else o).
Proof.
  unfold Order_save. intros H.
  apply bind_ok in H. destruct H as [w1 [o1 [H1 H]]].
  apply bind_ok in H. destruct H as [w2 [[] [H2 H]]].
  unfold ret in H. injection H as <- <-.
  exists w1. split; [assumption|].
  destruct (String.eqb (order_number o) "").
  - unfold bind, int_time, ret in H1. injection H1 as <- <-. auto.
  - unfold ret in H1. injection H1 as <- <-. auto.
Qed.

Lemma with_stock_same p : with_stock p (stock_quantity p - 0) = p.
Proof. destruct p. unfold with_stock. simpl. f_equal. lia. Qed.

Lemma map_take_stock_nil ps : map (take_stock []) ps = ps.
Proof.
  induction ps as [|p ps IH]; simpl; [reflexivity|].
  rewrite IH. unfold take_stock. simpl. now rewrite with_stock_same.
Qed.

Lemma filter_map_swap {A} (g : A -> bool) (f : A -> A) l :
  (forall x, g (f x) = g x) -> filter g (map f l) = map f (filter g l).
Proof.
  intros Hg. induction l as [|a l IH]; simpl; [reflexivity|].
  rewrite Hg. destruct (g a); simpl; now rewrite IH.
Qed.

Lemma prod_id_decrement pid q x : prod_id (decrement pid q x) = prod_id x.
Proof. unfold decrement. now destruct (String.eqb (prod_id x) pid). Qed.

Lemma prod_price_decrement pid q x : prod_price (decrement pid q x) = prod_price x.
Proof. unfold decrement. now destruct (String.eqb (prod_id x) pid). Qed.

Lemma stock_decrement pid q x : 0 <= q -> stock_quantity (decrement pid q x) <= stock_quantity x.
Proof. unfold decrement. destruct (String.eqb (prod_id x) pid); simpl; lia. Qed.

(** A line served later names the same product row as in the table the
    loop started from. *)
Lemma item_of_line_earlier d d2 o line i pid q :
  0 <= q ->
  products d2 = map (decrement pid q) (products d) ->
  item_of_line d2 o line i -> item_of_line d o line i.
Proof.
  intros Hq Hps [H1 [H2 [H3 [H4 [H5 [p2 [Hf [Hu Hs]]]]]]]].
  repeat split; trivial.
  rewrite Hps, filter_map_swap in Hf
    by (intros x; now rewrite prod_id_decrement).
  destruct (filter (fun x => String.eqb (prod_id x) (item_product i)) (products d))
    as [|p [|p' r]]; try discriminate.
  simpl in Hf. injection Hf as <-. exists p. split; [reflexivity|].
  rewrite prod_price_decrement in Hu. split; [assumption|].
  pose proof (stock_decrement pid q p Hq). lia.
Qed.

Lemma take_stock_step pid q rest line x :
  product_id line = Some pid -> units line = Some q ->
  take_stock rest (decrement pid q x) = take_stock (line :: rest) x.
Proof.
  intros Hp Hq. unfold take_stock, decrement. simpl. rewrite Hp, Hq.
  rewrite (String.eqb_sym pid (prod_id x)).
  destruct (String.eqb (prod_id x) pid) eqn:E; [|reflexivity].
  destruct x. unfold with_stock. simpl. f_equal. lia.
Qed.

Lemma OrderItem_objects_create_ok order product qty w w' i :
  OrderItem_objects_create order product qty (Some (prod_price product)) w = (w', Ok i) ->
  db w' = set_order_items (db w) (order_items (db w) ++ [i])
  /\ item_order i = order_id order /\ item_product i = prod_id product
  /\ as_int qty = Some (quantity i) /\ unit_price i = prod_price product
  /\ total_price i = unit_price i * quantity i
  /\ 0 <= quantity i
  /\ existsb (fun j => String.eqb (item_order j) (order_id order)
                       && String.eqb (item_product j) (prod_id product))
             (order_items (db w)) = false.
Proof.
  unfold OrderItem_objects_create, OrderItem_save. intros H.
  apply bind_ok in H. destruct H as [w1 [pk [H1 H]]].
  destruct (as_int qty) as [q|]; [|discriminate H].
  apply bind_ok in H. destruct H as [w2 [[] [H2 H]]].
  unfold ret in H. injection H as <- <-.
  unfold new_uuid in H1. injection H1 as <- <-.
  apply OrderItem_super_save_ok in H2. simpl in H2.
  destruct H2 as [Hdb [Hq [Hpair _]]].
  assert ((if prod_price product =? 0 then prod_price product else prod_price product)
          = prod_price product) as Eu by (now destruct (prod_price product =? 0)).
  rewrite Eu in *. simpl. rewrite ?Eu. repeat split; trivial.
Qed.

Lemma Product_save_decrement product pid qty w w' u :
  filter (fun x => String.eqb (prod_id x) pid) (products (db w)) = [product] ->
  Product_save (with_stock product (stock_quantity product - qty)) w = (w', Ok u) ->
  qty <= stock_quantity product
  /\ db w' = set_products (db w) (map (decrement pid qty) (products (db w))).
Proof.
  intros Hf H. apply Product_save_ok in H. simpl in H. destruct H as [Hs Hdb].
  split; [lia|].
  assert (In product (filter (fun x => String.eqb (prod_id x) pid) (products (db w))))
    as Hin by (rewrite Hf; now left).
  apply filter_In in Hin. destruct Hin as [Hin Hid].
  apply String.eqb_eq in Hid.
  assert (existsb (fun q => String.eqb (prod_id q) (prod_id product)) (products (db w))
          = true) as Hex.
  { apply existsb_exists. exists product. split; [assumption | apply String.eqb_refl]. }
  rewrite Hex in Hdb. rewrite Hdb. f_equal.
  apply map_ext_in. intros x Hx. unfold decrement. rewrite Hid.
  destruct (String.eqb (prod_id x) pid) eqn:E; [|reflexivity].
  assert (In x (filter (fun y => String.eqb (prod_id y) pid) (products (db w))))
    as Hxf by (apply filter_In; auto).
  rewrite Hf in Hxf. destruct Hxf as [<- | []]. reflexivity.
Qed.

(** The loop of [create], when it runs to its end. *)
Lemma create_items_ok order items :
  forall total w w' total',
    create_items order items total w = (w', Ok total') ->
    exists new_items,
      order_items (db w') = (order_items (db w) ++ new_items)%list
      /\ Forall2 (item_of_line (db w) order) items new_items
      /\ total' = total + sum_total_price new_items
      /\ products (db w') = map (take_stock items) (products (db w))
      /\ orders (db w') = orders (db w)
      /\ categories (db w') = categories (db w)
      /\ NoDup (map item_product new_items)
      /\ (forall j x, In j new_items -> In x (order_items (db w)) ->
                      item_order x = order_id order ->
                      item_product x <> item_product j).
Proof.
  induction items as [|line rest IH]; intros total w w' total' H.
  - simpl in H. unfold ret in H. injection H as <- <-. exists [].
    rewrite app_nil_r, map_take_stock_nil. simpl.
    repeat split; trivial; try constructor; try lia.
  - simpl in H.
    apply bind_ok in H. destruct H as [w1 [pid [H1 H]]].
    apply lift_inv in H1. destruct H1 as [-> H1].
    destruct (product_id line) as [pid'|] eqn:Epid; [|discriminate].
    injection H1 as ->.
    apply bind_ok in H. destruct H as [w1 [d [H1 H]]].
    apply get_db_inv in H1. destruct H1 as [-> [= ->]].
    apply bind_ok in H. destruct H as [w1 [product [H1 H]]].
    apply lift_inv in H1. destruct H1 as [-> H1].
    apply objects_get_In in H1. destruct H1 as [Hpin [Hpid Hfilter]].
    apply String.eqb_eq in Hpid.
    apply bind_ok in H. destruct H as [w1 [qty [H1 H]]].
    apply lift_inv in H1. destruct H1 as [-> H1].
    destruct (item_quantity line) as [qty'|] eqn:Eqty; [|discriminate].
    injection H1 as ->.
    apply bind_ok in H. destruct H as [w1 [i [H1 H]]].
    apply OrderItem_objects_create_ok in H1.
    destruct H1 as [Hdb1 [Hio [Hip [Hiq [Hiu [Hit [Hq0 Hpair]]]]]]].
    assert (units line = Some (quantity i)) as Hunits
      by (unfold units; now rewrite Eqty).
    clear Eqty Hiq. clear qty. remember (quantity i) as qty eqn:Eqty.
    apply bind_ok in H. destruct H as [w2 [[] [H2 H]]].
    assert (filter (fun x => String.eqb (prod_id x) pid) (products (db w1)) = [product])
      as Hfilter1 by (rewrite Hdb1; exact Hfilter).
    apply (Product_save_decrement product pid qty) in H2; [|assumption].
    destruct H2 as [Hstock Hdb2].
    apply IH in H.
    destruct H as [new [Hitems [Hlines [Htotal [Hprods [Hord [Hcat [Hnd Hfresh]]]]]]]].
    assert (products (db w2) = map (decrement pid qty) (products (db w))) as Hp2
      by (rewrite Hdb2, Hdb1; reflexivity).
    assert (order_items (db w2) = (order_items (db w) ++ [i])%list) as Hi2
      by (rewrite Hdb2, Hdb1; reflexivity).
    exists (i :: new). repeat split.
    + rewrite Hitems, Hi2, <- app_assoc. reflexivity.
    + constructor.
      * repeat split; try congruence; try lia.
        exists product. rewrite Hip, Hpid. repeat split; trivial. lia.
      * eapply Forall2_impl; [|exact Hlines].
        intros l j Hlj. now apply (item_of_line_earlier (db w) (db w2) order l j pid qty).
    + rewrite Htotal. simpl. lia.
    + rewrite Hprods, Hp2, map_map. apply map_ext. intros x.
      now apply take_stock_step.
    + rewrite Hord, Hdb2, Hdb1. reflexivity.
    + rewrite Hcat, Hdb2, Hdb1. reflexivity.
    + simpl. constructor; [|assumption]. intros Hin.
      apply in_map_iff in Hin. destruct Hin as [j [Hj Hjin]].
      apply (Hfresh j i Hjin); [rewrite Hi2; apply in_or_app; right; now left | assumption | congruence].
    + intros j x [<- | Hj] Hx Hxo.
      * intros Heq.
        assert (existsb (fun j => String.eqb (item_order j) (order_id order)
                                  && String.eqb (item_product j) (prod_id product))
                        (order_items (db w)) = true) as Hex.
        { apply existsb_exists. exists x. split; [assumption|].
          rewrite Hxo, Heq, Hip, !String.eqb_refl. reflexivity. }
        congruence.
      * apply (Hfresh j x Hj); [rewrite Hi2; apply in_or_app; now left | assumption].
Qed.

Lemma generated_number_nonempty o w f w' o' :
  Order_save o f w = (w', Ok o') -> String.eqb (order_number o') "" = false.
Proof.
  intros H. apply Order_save_ok in H. destruct H as [w1 [_ [_ ->]]].
  destruct (String.eqb (order_number o) "") eqn:E; [reflexivity | assumption].
Qed.

Lemma fresh_number (os : list Order) (o : Order) :
  existsb (fun q => String.eqb (order_id q) (order_id o)) os = false ->
  existsb (fun q => String.eqb (order_number q) (order_number o)
                    && negb (String.eqb (order_id q) (order_id o))) os = false ->
  existsb (fun q => String.eqb (order_number q) (order_number o)) os = false.
Proof.
  induction os as [|q os IH]; simpl; [reflexivity|].
  rewrite !orb_false_iff. intros [Hid Hids] [Hn Hns].
  rewrite Hid in Hn. simpl in Hn. rewrite andb_true_r in Hn. auto.
Qed.

Lemma map_replace_absent (os : list Order) (k : uuid) (o : Order) :
  existsb (fun q => String.eqb (order_id q) k) os = false ->
  map (fun q => if String.eqb (order_id q) k then o else q) os = os.
Proof.
  induction os as [|q os IH]; simpl; [reflexivity|].
  rewrite orb_false_iff. intros [-> H]. now rewrite IH.
Qed.

Lemma existsb_app_last (os : list Order) (o o' : Order) :
  order_id o = order_id o' ->
  existsb (fun q => String.eqb (order_id q) (order_id o')) (os ++ [o]) = true.
Proof.
  intros E. rewrite existsb_app. simpl. rewrite E, String.eqb_refl.
  now rewrite orb_true_r.
Qed.

Lemma Order_objects_create_ok kwargs w w' o :
  Order_objects_create kwargs w = (w', Ok o) ->
  db w' = set_orders (db w) (orders (db w) ++ [o])
  /\ existsb (fun q => String.eqb (order_id q) (order_id o)) (orders (db w)) = false
  /\ existsb (fun q => String.eqb (order_number q) (order_number o)) (orders (db w)) = false
  /\ String.eqb (order_number o) "" = false.
Proof.
  unfold Order_objects_create. intros H.
  apply bind_ok in H. destruct H as [w1 [pk [H1 H]]].
  unfold new_uuid in H1. injection H1 as <- <-.
  apply bind_ok in H. destruct H as [w1 [f [H1 H]]].
  apply lift_inv in H1. destruct H1 as [-> _].
  destruct (f_customer f) as [c|]; [|discriminate].
  destruct (f_total_amount f) as [t|]; [|discriminate].
  destruct (f_shipping_address f) as [a|]; [|discriminate].
  pose proof (generated_number_nonempty _ _ _ _ _ H) as Hne.
  apply Order_save_ok in H. destruct H as [w1 [H [Hdb _]]].
  apply Order_super_save_ok in H. destruct H as [Hdb' [Hid Hnum]].
  specialize (Hid eq_refl). rewrite Hdb in Hid, Hnum, Hdb'. simpl in Hid, Hnum, Hdb'.
  rewrite Hid in Hdb'. repeat split; trivial.
  now apply fresh_number.
Qed.

Lemma item_of_line_ext d d' o o' line i :
  products d = products d' -> order_id o = order_id o' ->
  item_of_line d o line i -> item_of_line d' o' line i.
Proof.
  unfold item_of_line. intros <- <-. trivial.
Qed.

(** What [create] has done when it returns: one order row, one item row
    per line in the order of the request, one stock decrement per line. *)
Lemma create_ok user validated_data w w' o :
  create user validated_data w = (w', Ok o) ->
  exists items new_items,
    dict_get "items" validated_data = Some (VItems items)
    /\ orders (db w') = (orders (db w) ++ [o])%list
    /\ existsb (fun q => String.eqb (order_id q) (order_id o)) (orders (db w)) = false
    /\ existsb (fun q => String.eqb (order_number q) (order_number o)) (orders (db w)) = false
    /\ total_amount o = sum_total_price new_items
    /\ order_items (db w') = (order_items (db w) ++ new_items)%list
    /\ Forall2 (item_of_line (db w) o) items new_items
    /\ NoDup (map item_product new_items)
    /\ products (db w') = map (take_stock items) (products (db w))
    /\ categories (db w') = categories (db w).
Proof.
  unfold create. intros H. apply atomic_inv in H. unfold create_body in H.
  apply bind_ok in H. destruct H as [w1 [popped [H1 H]]].
  apply lift_inv in H1. destruct H1 as [-> Hpop].
  unfold dict_pop in Hpop.
  destruct (dict_get "items" validated_data) as [v|] eqn:Eget; [|discriminate].
  injection Hpop as <-. simpl in H.
  apply bind_ok in H. destruct H as [w1 [items [H1 H]]].
  apply lift_inv in H1. destruct H1 as [-> Hitems].
  destruct v as [| | | |l]; try discriminate. injection Hitems as ->.
  apply bind_ok in H. destruct H as [w1 [kwargs [H1 H]]].
  apply lift_inv in H1. destruct H1 as [-> _].
  apply bind_ok in H. destruct H as [w1 [order [H1 H]]].
  apply Order_objects_create_ok in H1. destruct H1 as [Hdb1 [Hid [Hnum Hne]]].
  apply bind_ok in H. destruct H as [w2 [total [H2 H]]].
  apply create_items_ok in H2.
  destruct H2 as [new [Hitems [Hlines [Htotal [Hprods [Hord [Hcat [Hnd _]]]]]]]].
  apply Order_save_ok in H. destruct H as [w3 [H [Hdb3 Ho]]].
  simpl in Ho. rewrite Hne in Ho. subst o.
  apply Order_super_save_ok in H. destruct H as [Hdb' _].
  rewrite Hdb3 in Hdb'. rewrite Hord, Hdb1 in Hdb'. simpl in Hdb'.
  rewrite (existsb_app_last (orders (db w)) order order eq_refl) in Hdb'.
  rewrite map_app in Hdb'. simpl in Hdb'. rewrite String.eqb_refl in Hdb'.
  rewrite (map_replace_absent (orders (db w)) (order_id order)
             (with_total_amount order total) Hid) in Hdb'.
  exists items, new. rewrite Hdb'. simpl.
  rewrite Hitems, Hprods, Hcat, Hdb1. simpl.
  repeat split; trivial.
  eapply Forall2_impl; [|exact Hlines].
  intros l j. apply item_of_line_ext; [rewrite Hdb1|]; reflexivity.
Qed.

(** ** [create] raises no validation error *)

Lemma init_fields_quiet kwargs : forall f e,
  init_fields kwargs f = Raise e -> is_validation_error e = false.
Proof.
  induction kwargs as [|[k v] rest IH]; intros f e; simpl; [discriminate|].
  destruct (set_field f k v) as [f'|e'] eqn:E.
  - apply IH.
  - intros [= <-]. unfold set_field in E.
    repeat match type of E with
           | context [if ?b then _ else _] => destruct b
           end;
      destruct v; try discriminate E; injection E as <-; reflexivity.
Qed.

Lemma Order_objects_create_quiet kwargs : quiet (Order_objects_create kwargs).
Proof.
  unfold Order_objects_create.
  apply quiet_bind; [apply quiet_new_uuid | intros pk].
  apply quiet_bind; [apply quiet_lift, init_fields_quiet | intros f].
  destruct (f_customer f); [|now apply quiet_raise].
  destruct (f_total_amount f); [|now apply quiet_raise].
  destruct (f_shipping_address f); [|now apply quiet_raise].
  apply Order_save_quiet.
Qed.

Lemma create_items_quiet order items : forall total, quiet (create_items order items total).
Proof.
  induction items as [|line rest IH]; intros total; simpl; [apply quiet_ret|].
  apply quiet_bind; [|intros pid].
  { apply quiet_lift. destruct (product_id line); intros e [= <-]. reflexivity. }
  apply quiet_bind; [apply quiet_get_db | intros d].
  apply quiet_bind; [apply quiet_lift; intros e; apply objects_get_quiet | intros product].
  apply quiet_bind; [|intros qty].
  { apply quiet_lift. destruct (item_quantity line); intros e [= <-]. reflexivity. }
  apply quiet_bind; [apply OrderItem_objects_create_quiet | intros i].
  apply quiet_bind; [apply Product_save_quiet | intros _]. apply IH.
Qed.

Lemma create_quiet user validated_data : quiet (create user validated_data).
Proof.
  unfold create, create_body. apply quiet_atomic.
  apply quiet_bind; [|intros popped].
  { apply quiet_lift. unfold dict_pop.
    destruct (dict_get "items" validated_data); intros e [= <-]. reflexivity. }
  apply quiet_bind; [|intros items].
  { apply quiet_lift. destruct (fst popped); intros e [= <-]; reflexivity. }
  apply quiet_bind; [|intros kwargs].
  { apply quiet_lift. unfold call_kwargs.
    destruct (find _ (snd popped)) as [[k v]|]; intros e [= <-]. reflexivity. }
  apply quiet_bind; [apply Order_objects_create_quiet | intros order].
  apply quiet_bind; [apply create_items_quiet | intros total].
  apply Order_save_quiet.
Qed.

(** ** Tables a write leaves alone *)

Lemma Order_super_save_frame o f w w' r :
  Order_super_save o f w = (w', r) ->
  products (db w') = products (db w) /\ order_items (db w') = order_items (db w)
  /\ categories (db w') = categories (db w).
Proof.
  unfold Order_super_save, bind, get_db, raise, put_db. intros H.
  run_checks H; injection H as <- _; auto.
Qed.

Lemma Order_save_frame o f w w' r :
  Order_save o f w = (w', r) ->
  products (db w') = products (db w) /\ order_items (db w') = order_items (db w)
  /\ categories (db w') = categories (db w).
Proof.
  unfold Order_save. intros H.
  assert (forall w1 o1 w2 r2, Order_super_save o1 f w1 = (w2, r2) -> db w1 = db w ->
            products (db w2) = products (db w) /\ order_items (db w2) = order_items (db w)
            /\ categories (db w2) = categories (db w)) as Hs.
  { intros w1 o1 w2 r2 H1 E. rewrite <- E. now apply (Order_super_save_frame o1 f w1 w2 r2). }
  destruct (bind_inv _ _ _ _ _ H) as [[w1 [o1 [H1 H2]]] | [e [H1 _]]].
  - assert (db w1 = db w) as E.
    { destruct (String.eqb (order_number o) "").
      - unfold bind, int_time, ret in H1. now injection H1 as <- _.
      - unfold ret in H1. now injection H1 as <- _. }
    destruct (bind_inv _ _ _ _ _ H2) as [[w2 [u [H3 H4]]] | [e [H3 _]]].
    + unfold ret in H4. injection H4 as <- _. now apply (Hs w1 o1 w2 (Ok u)).
    + now apply (Hs w1 o1 w' (Raise e)).
  - destruct (String.eqb (order_number o) "").
    + unfold bind, int_time, ret in H1. discriminate.
    + unfold ret in H1. discriminate.
Qed.

Lemma OrderItem_super_save_frame i w w' r :
  OrderItem_super_save i w = (w', r) ->
  products (db w') = products (db w) /\ orders (db w') = orders (db w).
Proof.
  unfold OrderItem_super_save, bind, get_db, raise, put_db. intros H.
  run_checks H; injection H as <- _; auto.
Qed.

Lemma OrderItem_objects_create_frame o p q u w w' r :
  OrderItem_objects_create o p q u w = (w', r) ->
  products (db w') = products (db w) /\ orders (db w') = orders (db w).
Proof.
  unfold OrderItem_objects_create, OrderItem_save, bind, new_uuid, ret, raise.
  destruct (as_int q) as [qty|]; [|intros [= <- _]; auto].
  destruct (OrderItem_super_save _ _) as [w1 [[]|e]] eqn:E; intros [= <- _];
    now apply OrderItem_super_save_frame in E.
Qed.

Lemma Product_save_frame p w w' r :
  Product_save p w = (w', r) -> orders (db w') = orders (db w).
Proof.
  unfold Product_save, bind, get_db, raise, put_db. intros H.
  run_checks H; injection H as <- _; auto.
Qed.

Lemma Product_save_raise p w w' e :
  Product_save p w = (w', Raise e) -> db w' = db w.
Proof.
  unfold Product_save, bind, get_db, raise, put_db. intros H.
  run_checks H; now injection H as <- _.
Qed.

(** ** The view: [perform_create] after [is_valid] *)

(** After [validate_items], the first loop of [perform_create] finds every
    product; it runs to its end when every quantity is an [int], and stops
    at the first that is not, on the product with the price. *)
Lemma validate_items_loop_prices d items :
  validate_items_loop d items = Ok tt ->
  forall total acc,
    ((forall line, In line items -> units line <> None) ->
     exists priced, price_items d items total acc = Ok priced)
    /\ (forall before line v after,
          items = (before ++ line :: after)%list ->
          (forall l, In l before -> units l <> None) ->
          item_quantity line = Some v -> as_int v = None ->
          price_items d items total acc = Raise (TypeError (Decimal_mul_error v)))
    /\ exists r,
         price_items d items total acc = r
         /\ match r with
            | Ok _ => True
            | Raise (TypeError _) => True
            | Raise _ => False
            end.
Proof.
  induction items as [|line rest IH]; simpl; intros H total acc.
  - split; [intros _; eexists; reflexivity|]. split; [|eexists; split; [reflexivity|exact I]].
    intros [|b before] l v after E; discriminate E.
  - destruct (product_id line) as [pid|]; [|discriminate].
    destruct (item_quantity line) as [qty|] eqn:Eq; [|discriminate].
    destruct (objects_get _ (products d)) as [product|e]; [|destruct e; discriminate].
    destruct (gt qty (stock_quantity product)) as [[|]|e]; try discriminate.
    unfold Decimal_mul.
    destruct (as_int qty) as [q|] eqn:Eint.
    + destruct (IH H (total + prod_price product * q)
                  (acc ++ [mkLine product qty (prod_price product) (prod_price product * q)])%list)
        as [Hall [Hfirst Hkind]].
      split; [|split].
      * intros Hi. apply Hall. intros l Hl. apply Hi. now right.
      * intros [|b before] l v after E Hb Hv Hn.
        -- injection E as <- _. rewrite Eq in Hv. injection Hv as <-. congruence.
        -- injection E as <- E. apply (Hfirst before l v after E); trivial.
           intros x Hx. apply Hb. now right.
      * exact Hkind.
    + split; [|split].
      * intros Hi. exfalso. apply (Hi line (or_introl eq_refl)).
        unfold units. now rewrite Eq.
      * intros [|b before] l v after E Hb Hv Hn.
        -- injection E as <- _. rewrite Eq in Hv. now injection Hv as <-.
        -- injection E as <- _. exfalso. apply (Hb line (or_introl eq_refl)).
           unfold units. now rewrite Eq.
      * eexists. split; [reflexivity|exact I].
Qed.

Lemma is_valid_shape d r validated_data :
  is_valid d r = Ok validated_data ->
  validate_items_loop d (data_items r) = Ok tt
  /\ validated_data
     = ([("shipping_address", VStr (data_shipping_address r))]
        ++ match data_notes r with
           | Some n => [("notes", VStr n)]
           | None => []
           end
        ++ [("items", VItems (data_items r))])%list.
Proof.
  unfold is_valid, validate_items.
  destruct (data_items r) as [|line rest] eqn:Ei; [discriminate|].
  destruct (validate_items_loop d (line :: rest)) as [[]|e]; [|discriminate].
  intros [= <-]. auto.
Qed.

(** The keyword arguments of [serializer.save] land in [validated_data],
    and [create] passes [customer] a second time. *)
Lemma save_duplicate_keyword u address notes items total w :
  exists w',
    save u
      ([("shipping_address", VStr address)]
       ++ match notes with
          | Some n => [("notes", VStr n)]
          | None => []
          end
       ++ [("items", VItems items)])%list
      [("customer", VUser u); ("total_amount", VDecimal total);
       ("shipping_address", VStr address)] w
    = (w', Raise (TypeError "got multiple values for keyword argument 'customer'"))
    /\ db w' = db w.
Proof.
  destruct notes as [n|]; eexists; split; reflexivity.
Qed.

Lemma perform_create_unfold r validated_data w :
  perform_create r validated_data w
  = match price_items (db w) (data_items r) 0 [] with
    | Ok priced =>
        (order <- save (user r) validated_data
                    [("customer", VUser (user r));
                     ("total_amount", VDecimal (fst priced));
                     ("shipping_address", VStr (data_shipping_address r))] ;;
         create_lines order (snd priced) ;;;
         send_customer_sms order ;;;
         send_admin_email order)%py w
    | Raise e => (w, Raise e)
    end.
Proof.
  unfold perform_create, bind at 1, get_db, bind at 1, lift.
  now destruct (price_items (db w) (data_items r) 0 []).
Qed.

Lemma perform_create_raises r validated_data w :
  is_valid (db w) r = Ok validated_data ->
  exists w' msg,
    perform_create r validated_data w = (w', Raise (TypeError msg))
    /\ db w' = db w
    /\ ((forall line, In line (data_items r) -> units line <> None) ->
        msg = "got multiple values for keyword argument 'customer'")
    /\ (forall before line v after,
          data_items r = (before ++ line :: after)%list ->
          (forall l, In l before -> units l <> None) ->
          item_quantity line = Some v -> as_int v = None ->
          msg = Decimal_mul_error v).
Proof.
  intros H. apply is_valid_shape in H. destruct H as [Hloop ->].
  destruct (validate_items_loop_prices _ _ Hloop 0 []) as [Hall [Hfirst [res [Hres Hkind]]]].
  rewrite perform_create_unfold.
  destruct res as [priced|e].
  - rewrite Hres.
    destruct (save_duplicate_keyword (user r) (data_shipping_address r) (data_notes r)
                (data_items r) (fst priced) w) as [w' [Hs Hdb]].
    exists w', "got multiple values for keyword argument 'customer'".
    unfold bind. rewrite Hs. repeat split; trivial.
    intros before line v after E Hb Hv Hn.
    rewrite (Hfirst before line v after E Hb Hv Hn) in Hres. discriminate Hres.
  - destruct e; try contradiction. rewrite Hres.
    exists w, msg. repeat split; trivial.
    + intros Hi. destruct (Hall Hi) as [priced Hp]. rewrite Hp in Hres. discriminate Hres.
    + intros before line v after E Hb Hv Hn.
      rewrite (Hfirst before line v after E Hb Hv Hn) in Hres. now injection Hres as ->.
Qed.

Lemma post_unfold r w :
  post r w
  = match is_valid (db w) r with
    | Ok validated_data => perform_create r validated_data w
    | Raise e => (w, Raise e)
    end.
Proof.
  unfold post, bind, get_db, lift. now destruct (is_valid (db w) r).
Qed.

(** A POST never writes: either validation rejects it, or [perform_create]
    stops before the first row. *)
Lemma post_never_commits r w :
  db (fst (post r w)) = db w /\ exists e, snd (post r w) = Raise e.
Proof.
  rewrite post_unfold.
  destruct (is_valid (db w) r) as [vd|e] eqn:E.
  - destruct (perform_create_raises r vd w E) as [w' [msg [-> [Hdb _]]]]. simpl.
    split; [assumption | eauto].
  - simpl. split; [reflexivity | eauto].
Qed.

(** C10. A request that passed [is_valid] reaches [perform_create] and
    never persists an order: the view path raises a [TypeError] before any
    row is written, so the database after [perform_create], and after the
    whole POST, is the database before.  When the quantity of every line
    is an [int], it is the error of the claim: the call
    [serializer.save(customer=..., total_amount=..., shipping_address=...)]
    puts [customer] and [total_amount] into [validated_data], and
    [OrderCreateSerializer.create] passes [customer] again to
    [Order.objects.create], a repeated keyword argument.  When some
    quantity is not an [int] (a float passes [validate_items]), the first
    such line stops [perform_create] earlier, at [product.price * quantity],
    before [serializer.save] is called. *)
Theorem view_path_never_persists (r : Request) (validated_data : dict) (w : World) :
  is_valid (db w) r = Ok validated_data ->
  (exists w' msg,
     perform_create r validated_data w = (w', Raise (TypeError msg))
     /\ db w' = db w)
  /\ (exists msg, snd (post r w) = Raise (TypeError msg))
  /\ db (fst (post r w)) = db w
  /\ ((forall line, In line (data_items r) -> units line <> None) ->
      snd (post r w)
      = Raise (TypeError "got multiple values for keyword argument 'customer'"))
  /\ (forall before line v after,
        data_items r = (before ++ line :: after)%list ->
        (forall l, In l before -> units l <> None) ->
        item_quantity line = Some v -> as_int v = None ->
        snd (post r w) = Raise (TypeError (Decimal_mul_error v))).
Proof.
  intros H.
  destruct (perform_create_raises r validated_data w H)
    as [w' [msg [Hp [Hdb [Hints Hfirst]]]]].
  rewrite post_unfold, H, Hp. simpl.
  split; [eauto|]. split; [eauto|]. split; [assumption|]. split.
  - intros Hi. now rewrite (Hints Hi).
  - intros before line v after E Hb Hv Hn. now rewrite (Hfirst before line v after E Hb Hv Hn).
Qed.

Lemma view_path_never_persists_witness :
  snd (post Examples.test_request Examples.test_world)
  = Raise (TypeError "got multiple values for keyword argument 'customer'")
  /\ db (fst (post Examples.test_request Examples.test_world)) = Examples.shop.
Proof.
  destruct (view_path_never_persists Examples.test_request
              [("shipping_address", VStr "123 Test Street, Nairobi");
               ("notes", VStr "Please deliver in the morning");
               ("items", VItems [mkItem (Some "p-1") (Some (JInt 2))])]
              Examples.test_world eq_refl) as [_ [_ [Hdb [Hints _]]]].
  split; [|exact Hdb].
  apply Hints. intros line [<- | []]. discriminate.
Defined.

(** Two and a half units pass [validate_items] (2.5 > 10 is false), and
    [perform_create] stops at [product.price * quantity]: the call
    [serializer.save] with its repeated keyword is never reached. *)
Lemma fractional_quantity_stops_before_save :
  is_valid Examples.shop Examples.half_units_request
  = Ok [("shipping_address", VStr "123 Test Street, Nairobi");
        ("items", VItems [mkItem (Some "p-1") (Some (JFloat (5 # 2)))])]
  /\ snd (post Examples.half_units_request Examples.test_world)
     = Raise (TypeError "unsupported operand type(s) for *: 'decimal.Decimal' and 'float'")
  /\ db (fst (post Examples.half_units_request Examples.test_world)) = Examples.shop.
Proof. repeat split; vm_compute; reflexivity. Qed.

(** ** Totals *)

Lemma filter_none {A} (p : A -> bool) l :
  (forall x, In x l -> p x = false) -> filter p l = [].
Proof.
  induction l as [|a l IH]; simpl; intros H; [reflexivity|].
  rewrite (H a (or_introl eq_refl)). apply IH. intros x Hx. apply H. now right.
Qed.

Lemma filter_all {A} (p : A -> bool) l :
  (forall x, In x l -> p x = true) -> filter p l = l.
Proof.
  induction l as [|a l IH]; simpl; intros H; [reflexivity|].
  rewrite (H a (or_introl eq_refl)). f_equal. apply IH. intros x Hx. apply H. now right.
Qed.

Lemma Forall2_In_l {A B} (R : A -> B -> Prop) l bs a :
  Forall2 R l bs -> In a l -> exists b, In b bs /\ R a b.
Proof.
  induction 1 as [|a' b l bs Hab HF IH]; simpl; [contradiction|].
  intros [<- | Ha].
  - exists b. tauto.
  - destruct (IH Ha) as [b' [Hb' HR]]. exists b'. tauto.
Qed.

Lemma order_id_absent (os : list Order) (k : uuid) (q : Order) :
  existsb (fun x => String.eqb (order_id x) k) os = false ->
  In q os -> String.eqb k (order_id q) = false.
Proof.
  intros Hex Hq. destruct (String.eqb k (order_id q)) eqn:E; [|reflexivity].
  apply String.eqb_eq in E. rewrite <- Hex. symmetry.
  apply existsb_exists. exists q. split; [assumption|].
  rewrite E. apply String.eqb_refl.
Qed.

(** C1. [create] keeps the totals consistent: if, before, every order's
    [total_amount] is the sum of its items' [total_price], every item's
    [total_price] is [unit_price * quantity] and every item belongs to an
    order of the table, then the same holds after, whether [create]
    commits or raises; and the order it commits is in the table with
    [total_amount] equal to the sum of the [total_price] of its items,
    each of which is its [unit_price] times its [quantity].  Amounts are
    integers of hundredths, so the equalities are exact. *)
Theorem create_keeps_totals (user : uuid) (validated_data : dict) (w : World) :
  totals_consistent (db w) = true ->
  totals_consistent (db (fst (create user validated_data w))) = true
  /\ forall o,
       snd (create user validated_data w) = Ok o ->
       let d' := db (fst (create user validated_data w)) in
       In o (orders d')
       /\ total_amount o = sum_total_price (items_of d' (order_id o))
       /\ forall i, In i (items_of d' (order_id o)) ->
                    total_price i = unit_price i * quantity i.
Proof.
  intros Hc. destruct (create user validated_data w) as [w' [o|e]] eqn:E; simpl.
  - apply create_ok in E.
    destruct E as [items [new [_ [Hord [Hid [_ [Htot [Hitems [Hlines _]]]]]]]]].
    unfold totals_consistent in Hc. rewrite !andb_true_iff in Hc.
    destruct Hc as [[Ho Hi] Hfk].
    rewrite forallb_forall in Ho, Hi, Hfk.
    assert (forall j, In j new ->
              item_order j = order_id o /\ total_price j = unit_price j * quantity j)
      as Hnew.
    { intros j Hj. destruct (Forall2_In_r _ _ _ _ Hlines Hj) as [l [_ Hl]].
      destruct Hl as [_ [_ [H3 [_ [H5 _]]]]]. auto. }
    assert (forall x, In x (order_items (db w)) ->
              String.eqb (item_order x) (order_id o) = false) as Hold.
    { intros x Hx. specialize (Hfk x Hx). apply existsb_exists in Hfk.
      destruct Hfk as [q [Hq Hqx]]. apply String.eqb_eq in Hqx.
      rewrite <- Hqx, String.eqb_sym. now apply (order_id_absent (orders (db w))). }
    assert (items_of (db w') (order_id o) = new) as Hmine.
    { unfold items_of. rewrite Hitems, filter_app, (filter_none _ _ Hold).
      simpl. apply filter_all. intros j Hj.
      rewrite (proj1 (Hnew j Hj)). apply String.eqb_refl. }
    assert (forall q, In q (orders (db w)) ->
              items_of (db w') (order_id q) = items_of (db w) (order_id q)) as Hother.
    { intros q Hq. unfold items_of. rewrite Hitems, filter_app.
      rewrite (filter_none _ new); [apply app_nil_r|].
      intros j Hj. rewrite (proj1 (Hnew j Hj)).
      now apply (order_id_absent (orders (db w))). }
    split.
    + unfold totals_consistent. rewrite !andb_true_iff, !forallb_forall.
      repeat split.
      * intros q Hq. rewrite Hord in Hq. apply in_app_or in Hq.
        destruct Hq as [Hq | [<- | []]].
        -- rewrite (Hother q Hq). now apply Ho.
        -- rewrite Hmine. now apply Z.eqb_eq.
      * intros j Hj. rewrite Hitems in Hj. apply in_app_or in Hj.
        destruct Hj as [Hj | Hj]; [now apply Hi|].
        apply Z.eqb_eq. now apply Hnew.
      * intros j Hj. rewrite Hitems in Hj. rewrite Hord, existsb_app.
        apply in_app_or in Hj. destruct Hj as [Hj | Hj].
        -- now rewrite (Hfk j Hj).
        -- simpl. rewrite (proj1 (Hnew j Hj)), String.eqb_refl.
           now rewrite orb_true_r.
    + intros o' [= <-]. rewrite Hmine. repeat split.
      * rewrite Hord. apply in_or_app. right. now left.
      * assumption.
      * intros i Hi'. now apply Hnew.
  - apply atomic_inv in E. destruct E as [-> _]. split; [assumption | discriminate].
Qed.

Lemma create_keeps_totals_witness :
  totals_consistent (db Examples.after_first_order) = true
  /\ map total_amount (orders (db Examples.after_first_order)) = [19998]
  /\ totals_consistent
       (db (fst (create "customer-1"
                   (Examples.order_data [mkItem (Some "p-1") (Some (JInt 3))])
                   Examples.after_first_order))) = true
  /\ map total_amount
       (orders (db (fst (create "customer-1"
                           (Examples.order_data [mkItem (Some "p-1") (Some (JInt 3))])
                           Examples.after_first_order))))
     = [19998; 29997].
Proof.
  assert (totals_consistent (db Examples.after_first_order) = true) as Hbefore
    by (vm_compute; reflexivity).
  pose proof (create_keeps_totals "customer-1"
                (Examples.order_data [mkItem (Some "p-1") (Some (JInt 3))])
                Examples.after_first_order Hbefore) as [Hafter _].
  split; [exact Hbefore|]. split; [vm_compute; reflexivity|].
  split; [exact Hafter | vm_compute; reflexivity].
Defined.

(** ** The transaction *)

(** C2. [create] is all or nothing.  When it returns an order, the table
    of orders has gained exactly that row, the table of items exactly one
    row per line of the request (for the named product, at its price, with
    [total_price = unit_price * quantity]), the order's total is the sum
    over these rows, and every product has lost exactly the quantity the
    lines order of it.  When it raises, the database is the one it started
    from: no order, no item, no decrement.  The POST view, which wraps it,
    leaves the database as it was in every case. *)
Theorem order_commit_all_or_nothing (user : uuid) (validated_data : dict) (w : World) :
  match create user validated_data w with
  | (w', Ok o) =>
      exists items new_items,
        dict_get "items" validated_data = Some (VItems items)
        /\ orders (db w') = (orders (db w) ++ [o])%list
        /\ total_amount o = sum_total_price new_items
        /\ order_items (db w') = (order_items (db w) ++ new_items)%list
        /\ Forall2 (item_of_line (db w) o) items new_items
        /\ products (db w') = map (take_stock items) (products (db w))
        /\ categories (db w') = categories (db w)
  | (w', Raise _) => db w' = db w
  end
  /\ forall r, db (fst (post r w)) = db w.
Proof.
  split; [|intros r; apply post_never_commits].
  destruct (create user validated_data w) as [w' [o|e]] eqn:E.
  - apply create_ok in E.
    destruct E as [items [new [H1 [H2 [_ [_ [H3 [H4 [H5 [_ [H6 H7]]]]]]]]]]].
    exists items, new. auto 10.
  - apply atomic_inv in E. tauto.
Qed.

(** tests.py, [test_order_creation], on the serializer: two units at 99.99
    with ten in stock give a total of 199.98 and leave eight. *)
Example order_two_units :
  let w' := fst (create "customer-1"
                   (Examples.order_data [mkItem (Some "p-1") (Some (JInt 2))])
                   Examples.test_world) in
  map total_amount (orders (db w')) = [19998]
  /\ map stock_quantity (products (db w')) = [8]
  /\ map total_price (order_items (db w')) = [19998].
Proof. repeat split. Qed.

(** ** Stock *)

Lemma stock_nonneg_frame {A} (m : M A) :
  (forall w w' r, m w = (w', r) -> products (db w') = products (db w)) ->
  preserves (fun d => stock_nonneg d = true) m.
Proof.
  intros Hm w w' r HI H. unfold stock_nonneg in *. now rewrite (Hm w w' r H).
Qed.

Lemma Product_save_stock_nonneg p :
  preserves (fun d => stock_nonneg d = true) (Product_save p).
Proof.
  intros w w' r HI H. destruct r as [u|e].
  - apply Product_save_ok in H. destruct H as [Hs ->].
    unfold stock_nonneg in *. simpl. rewrite forallb_forall in HI.
    apply forallb_forall. intros x Hx.
    destruct (existsb _ (products (db w))).
    + apply in_map_iff in Hx. destruct Hx as [y [<- Hy]].
      destruct (String.eqb (prod_id y) (prod_id p)); [now apply Z.leb_le | now apply HI].
    + apply in_app_or in Hx. destruct Hx as [Hx | [<- | []]];
        [now apply HI | now apply Z.leb_le].
  - now rewrite (Product_save_raise _ _ _ _ H).
Qed.

Lemma Order_objects_create_frame kwargs w w' r :
  Order_objects_create kwargs w = (w', r) ->
  products (db w') = products (db w) /\ order_items (db w') = order_items (db w)
  /\ categories (db w') = categories (db w).
Proof.
  unfold Order_objects_create, bind at 1, new_uuid, bind at 1, lift.
  destruct (init_fields kwargs default_fields) as [f|e]; [|now intros [= <- _]].
  destruct (f_customer f); [|now intros [= <- _]].
  destruct (f_total_amount f); [|now intros [= <- _]].
  destruct (f_shipping_address f); [|now intros [= <- _]].
  intros H. now apply Order_save_frame in H.
Qed.

Lemma create_items_stock_nonneg order items : forall total,
  preserves (fun d => stock_nonneg d = true) (create_items order items total).
Proof.
  induction items as [|line rest IH]; intros total; simpl; [apply preserves_ret|].
  apply preserves_bind; [apply preserves_lift | intros pid].
  apply preserves_bind; [apply preserves_get_db | intros d].
  apply preserves_bind; [apply preserves_lift | intros product].
  apply preserves_bind; [apply preserves_lift | intros qty].
  apply preserves_bind; [|intros i].
  { apply stock_nonneg_frame. intros w w' r H.
    now apply OrderItem_objects_create_frame in H. }
  apply preserves_bind; [apply Product_save_stock_nonneg | intros _]. apply IH.
Qed.

Lemma create_stock_nonneg user validated_data :
  preserves (fun d => stock_nonneg d = true) (create user validated_data).
Proof.
  unfold create, create_body. apply preserves_atomic.
  apply preserves_bind; [apply preserves_lift | intros popped].
  apply preserves_bind; [apply preserves_lift | intros items].
  apply preserves_bind; [apply preserves_lift | intros kwargs].
  apply preserves_bind; [|intros order].
  { apply stock_nonneg_frame. intros w w' r H.
    now apply Order_objects_create_frame in H. }
  apply preserves_bind; [apply create_items_stock_nonneg | intros total].
  apply stock_nonneg_frame. intros w w' r H. now apply Order_save_frame in H.
Qed.

Lemma run_ops_invariant (I : DB -> Prop) :
  (forall user validated_data, preserves I (create user validated_data)) ->
  forall ops w, I (db w) -> I (db (run_ops ops w)).
Proof.
  intros Hc. induction ops as [|op ops IH]; intros w HI; [assumption|].
  simpl. apply IH. destruct op as [u vd | r]; simpl.
  - destruct (create u vd w) as [w' res] eqn:E. now apply (Hc u vd w w' res).
  - now rewrite (proj1 (post_never_commits r w)).
Qed.

(** An [int] compares as the integer it is. *)
Lemma gt_as_int v n q : as_int v = Some q -> gt v n = Ok (q >? n).
Proof. destruct v; simpl; intros [= <-]; reflexivity. Qed.

Lemma gt_false_le v n q : gt v n = Ok false -> as_int v = Some q -> q <= n.
Proof.
  intros Hgt Hq. rewrite (gt_as_int v n q Hq) in Hgt. injection Hgt as Hgt.
  rewrite Z.gtb_ltb in Hgt. now apply Z.ltb_ge.
Qed.

Lemma gt_true_lt v n q : gt v n = Ok true -> as_int v = Some q -> n < q.
Proof.
  intros Hgt Hq. rewrite (gt_as_int v n q Hq) in Hgt. injection Hgt as Hgt.
  rewrite Z.gtb_ltb in Hgt. now apply Z.ltb_lt.
Qed.

Lemma validate_items_loop_checks d items :
  validate_items_loop d items = Ok tt ->
  forall line, In line items ->
    exists p v,
      In p (products d) /\ prod_is_active p = true
      /\ product_id line = Some (prod_id p) /\ item_quantity line = Some v
      /\ gt v (stock_quantity p) = Ok false
      /\ forall q, as_int v = Some q -> q <= stock_quantity p.
Proof.
  induction items as [|l rest IH]; simpl; intros H line Hin; [contradiction|].
  destruct (product_id l) as [pid|] eqn:Ep; [|discriminate].
  destruct (item_quantity l) as [qty|] eqn:Eq; [|discriminate].
  destruct (objects_get _ (products d)) as [product|e] eqn:Eg; [|destruct e; discriminate].
  destruct (gt qty (stock_quantity product)) as [[|]|e] eqn:Es; try discriminate.
  destruct Hin as [<- | Hin]; [|now apply IH].
  apply objects_get_In in Eg. destruct Eg as [Hp [Hpa _]].
  apply andb_true_iff in Hpa. destruct Hpa as [Hid Hact].
  apply String.eqb_eq in Hid. exists product, qty.
  rewrite Ep, Eq, Hid. repeat split; trivial.
  intros q. now apply gt_false_le.
Qed.

Lemma create_rejects_excess user validated_data items w :
  dict_get "items" validated_data = Some (VItems items) ->
  exceeds_stock (db w) items ->
  exists e, snd (create user validated_data w) = Raise e
            /\ db (fst (create user validated_data w)) = db w.
Proof.
  intros Hget [line [p [q [Hline [Hp [Hpid [Hq Hlt]]]]]]].
  destruct (create user validated_data w) as [w' [o|e]] eqn:E; simpl.
  - exfalso. apply create_ok in E.
    destruct E as [items' [new [Hget' [_ [_ [_ [_ [_ [Hlines _]]]]]]]]].
    rewrite Hget in Hget'. injection Hget' as <-.
    destruct (Forall2_In_l _ _ _ _ Hlines Hline) as [i [_ Hi]].
    destruct Hi as [H1 [H2 [_ [_ [_ [p' [Hf [_ Hs]]]]]]]].
    rewrite Hpid in H1. injection H1 as H1.
    unfold units in H2. rewrite Hq in H2. apply (gt_true_lt _ _ _ Hlt) in H2.
    assert (In p (filter (fun x => String.eqb (prod_id x) (item_product i))
                         (products (db w)))) as Hpf.
    { apply filter_In. split; [assumption|]. rewrite H1. apply String.eqb_refl. }
    rewrite Hf in Hpf. destruct Hpf as [<- | []]. lia.
  - apply atomic_inv in E. destruct E as [Hdb _]. eauto.
Qed.

(** C4. The stock is checked twice.  At validation, [validate_items]
    accepts a request only if every line names an active product and asks
    for no more than its stock.  At commit, [create] decrements and saves
    the product inside the transaction, and the non-negativity check of
    the [stock_quantity] column refuses the save when the line asks for
    more than the stock the product has then: [create] raises and the
    database is as before.  So no sequence of order operations (calls of
    [create], POSTs) makes a stock negative. *)
Theorem stock_never_negative :
  (forall d items,
     validate_items d items = Ok items ->
     forall line, In line items ->
       exists p v,
         In p (products d) /\ prod_is_active p = true
         /\ product_id line = Some (prod_id p) /\ item_quantity line = Some v
         /\ gt v (stock_quantity p) = Ok false
         /\ forall q, as_int v = Some q -> q <= stock_quantity p)
  /\ (forall user validated_data items w,
        dict_get "items" validated_data = Some (VItems items) ->
        exceeds_stock (db w) items ->
        exists e, snd (create user validated_data w) = Raise e
                  /\ db (fst (create user validated_data w)) = db w)
  /\ (forall ops w,
        stock_nonneg (db w) = true -> stock_nonneg (db (run_ops ops w)) = true).
Proof.
  split; [|split].
  - intros d items H. apply validate_items_loop_checks.
    unfold validate_items in H. destruct items as [|l rest]; [discriminate|].
    destruct (validate_items_loop d (l :: rest)) as [[]|e]; [reflexivity | discriminate].
  - apply create_rejects_excess.
  - intros ops w. apply (run_ops_invariant (fun d => stock_nonneg d = true)).
    apply create_stock_nonneg.
Qed.

Example order_twenty_units :
  snd (create "customer-1" (Examples.order_data [mkItem (Some "p-1") (Some (JInt 20))])
              Examples.test_world)
  = Raise (IntegrityError "products_stock_quantity_check").
Proof. reflexivity. Qed.

Lemma stock_never_negative_witness :
  (exists p v,
     In p (products Examples.shop) /\ prod_is_active p = true
     /\ Some "p-1" = Some (prod_id p) /\ Some (JInt 2) = Some v
     /\ gt v (stock_quantity p) = Ok false
     /\ forall q, as_int v = Some q -> q <= stock_quantity p)
  /\ (exists e,
        snd (create "customer-1" (Examples.order_data [mkItem (Some "p-1") (Some (JInt 20))])
                    Examples.test_world) = Raise e
        /\ db (fst (create "customer-1"
                      (Examples.order_data [mkItem (Some "p-1") (Some (JInt 20))])
                      Examples.test_world)) = Examples.shop)
  /\ stock_nonneg
       (db (run_ops
              [OpCreate "customer-1" (Examples.order_data [mkItem (Some "p-1") (Some (JInt 7))]);
               OpCreate "customer-1" (Examples.order_data [mkItem (Some "p-1") (Some (JInt 7))]);
               OpPost Examples.test_request]
              Examples.ticking_world)) = true.
Proof.
  destruct stock_never_negative as [Hvalidate [Hcommit Hinv]].
  split; [|split].
  - apply (Hvalidate Examples.shop [mkItem (Some "p-1") (Some (JInt 2))] eq_refl
             (mkItem (Some "p-1") (Some (JInt 2)))).
    simpl. now left.
  - apply (Hcommit "customer-1" (Examples.order_data [mkItem (Some "p-1") (Some (JInt 20))])
             [mkItem (Some "p-1") (Some (JInt 20))] Examples.test_world eq_refl).
    exists (mkItem (Some "p-1") (Some (JInt 20))), Examples.test_product, (JInt 20).
    simpl. repeat split; auto.
  - apply Hinv. reflexivity.
Defined.

(** ** Repeated products *)

Lemma validate_items_loop_app d a b :
  validate_items_loop d a = Ok tt ->
  validate_items_loop d (a ++ b) = validate_items_loop d b.
Proof.
  induction a as [|l a IH]; simpl; [reflexivity|].
  destruct (product_id l); [|discriminate].
  destruct (item_quantity l); [|discriminate].
  destruct (objects_get _ (products d)) as [product|e]; [|destruct e; discriminate].
  destruct (gt _ (stock_quantity product)) as [[|]|e]; try discriminate. exact IH.
Qed.

Lemma validate_items_ok d items :
  validate_items d items = Ok items <->
  items <> [] /\ validate_items_loop d items = Ok tt.
Proof.
  unfold validate_items. destruct items as [|l rest].
  - split; [discriminate | intros [H _]; congruence].
  - destruct (validate_items_loop d (l :: rest)) as [[]|e].
    + split; [split; [discriminate | reflexivity] | reflexivity].
    + split; [discriminate | intros [_ H]; discriminate].
Qed.

Lemma repeats_not_NoDup items new :
  repeats_product items = true ->
  Forall2 (fun l i => product_id l = Some (item_product i)) items new ->
  ~ NoDup (map item_product new).
Proof.
  intros Hrep HF. induction HF as [|l i items new Hl HF IH]; [discriminate|].
  simpl in Hrep. apply orb_true_iff in Hrep. intros Hnd.
  inversion Hnd as [|? ? Hnotin Hnd']; subst.
  destruct Hrep as [Hex | Hrep]; [|now apply IH].
  apply existsb_exists in Hex. destruct Hex as [jt [Hjt Hsame]].
  rewrite Hl in Hsame.
  destruct (Forall2_In_l _ _ _ _ HF Hjt) as [j [Hj Hjl]].
  rewrite Hjl in Hsame. apply String.eqb_eq in Hsame.
  apply Hnotin. rewrite Hsame. now apply in_map.
Qed.

(** C5, as the code has it.  [validate_items] looks at one line at a
    time, so a list of accepted lines stays accepted when it is repeated;
    it is [create] that fails on a product named twice, with an error that
    is not a [ValidationError] (the second item row violates the
    uniqueness of (order, product)), and the transaction leaves the
    database as it was: no quantities are merged, nothing is written. *)
Theorem repeated_product_fails_at_commit :
  (forall d items,
     validate_items d items = Ok items ->
     validate_items d (items ++ items) = Ok (items ++ items)%list)
  /\ (forall user validated_data items w,
        dict_get "items" validated_data = Some (VItems items) ->
        repeats_product items = true ->
        exists e, snd (create user validated_data w) = Raise e
                  /\ is_validation_error e = false
                  /\ db (fst (create user validated_data w)) = db w).
Proof.
  split.
  - intros d items H. apply validate_items_ok in H. destruct H as [Hne Hloop].
    apply validate_items_ok. split.
    + destruct items; [congruence | discriminate].
    + now rewrite (validate_items_loop_app d items items Hloop).
  - intros user vd items w Hget Hrep.
    destruct (create user vd w) as [w' [o|e]] eqn:E; simpl.
    + exfalso. apply create_ok in E.
      destruct E as [items' [new [Hget' [_ [_ [_ [_ [_ [Hlines [Hnd _]]]]]]]]]].
      rewrite Hget in Hget'. injection Hget' as <-.
      apply (repeats_not_NoDup items new Hrep); [|assumption].
      eapply Forall2_impl; [|exact Hlines]. intros l i Hli. apply Hli.
    + exists e. split; [reflexivity|]. split.
      * now apply (create_quiet user vd w w').
      * apply atomic_inv in E. tauto.
Qed.

(** A product on two lines passes [validate_items]; the failure comes at
    commit and is an [IntegrityError], and on the POST path a [TypeError]. *)
Lemma repeated_product_passes_validation :
  validate_items Examples.shop Examples.twice_the_same = Ok Examples.twice_the_same
  /\ snd (create "customer-1" (Examples.order_data Examples.twice_the_same)
                 Examples.test_world)
     = Raise (IntegrityError "order_items_order_id_product_id_uniq")
  /\ snd (post (mkRequest "customer-1" "123 Test Street, Nairobi" None
                          Examples.twice_the_same)
               Examples.test_world)
     = Raise (TypeError "got multiple values for keyword argument 'customer'")
  /\ ~ (forall d items,
          repeats_product items = true ->
          exists msg, validate_items d items = Raise (ValidationError msg)).
Proof.
  split; [reflexivity|]. split; [reflexivity|]. split; [reflexivity|].
  intros H. destruct (H Examples.shop Examples.twice_the_same eq_refl) as [msg Hmsg].
  discriminate Hmsg.
Qed.

Lemma repeated_product_fails_at_commit_witness :
  validate_items Examples.shop
    ([mkItem (Some "p-1") (Some (JInt 1))] ++ [mkItem (Some "p-1") (Some (JInt 1))])
  = Ok ([mkItem (Some "p-1") (Some (JInt 1))] ++ [mkItem (Some "p-1") (Some (JInt 1))])%list
  /\ exists e,
       snd (create "customer-1" (Examples.order_data Examples.twice_the_same)
                   Examples.test_world) = Raise e
       /\ is_validation_error e = false
       /\ db (fst (create "customer-1" (Examples.order_data Examples.twice_the_same)
                          Examples.test_world)) = Examples.shop.
Proof.
  destruct repeated_product_fails_at_commit as [Hvalid Hcommit]. split.
  - apply (Hvalid Examples.shop [mkItem (Some "p-1") (Some (JInt 1))]). reflexivity.
  - apply (Hcommit "customer-1" (Examples.order_data Examples.twice_the_same)
             Examples.twice_the_same Examples.test_world); reflexivity.
Defined.

(** ** Insufficient stock at validation *)

Lemma objects_get_unique_cases {A} (key : A -> string) (P : A -> bool) l k :
  distinct (map key l) = true ->
  objects_get (fun y => String.eqb (key y) k && P y) l = Raise DoesNotExist
  \/ exists x, objects_get (fun y => String.eqb (key y) k && P y) l = Ok x.
Proof.
  intros Hd. destruct (in_dec string_dec k (map key l)) as [Hin | Hout].
  - apply in_map_iff in Hin. destruct Hin as [x [<- Hx]].
    unfold objects_get. rewrite (filter_unique_key key P l x Hd Hx).
    destruct (P x); [right; now exists x | now left].
  - left. unfold objects_get. now rewrite (filter_key_absent key P l k Hout).
Qed.

Lemma gt_number v n : is_number v = true -> exists b, gt v n = Ok b.
Proof. destruct v; simpl; try discriminate; eauto. Qed.

(** What [validate_items] raises: a [ValidationError], or the [TypeError]
    of a comparison; the latter only for a quantity that is no number. *)
Lemma validate_items_loop_raises d items e :
  product_ids_unique d = true ->
  validate_items_loop d items = Raise e ->
  ((exists msg, e = ValidationError msg) \/ (exists msg, e = TypeError msg))
  /\ (numbers items -> exists msg, e = ValidationError msg).
Proof.
  intros Hu. induction items as [|l rest IH]; simpl; [discriminate|].
  destruct (product_id l) as [pid|]; [|intros [= <-]; eauto].
  destruct (item_quantity l) as [qty|] eqn:Eq; [|intros [= <-]; eauto].
  destruct (objects_get_unique_cases prod_id prod_is_active (products d) pid Hu)
    as [-> | [product ->]].
  - intros [= <-]. eauto.
  - destruct (gt qty (stock_quantity product)) as [[|]|e'] eqn:Eg.
    + intros [= <-]. eauto.
    + intros H. destruct (IH H) as [Hkind Hnum]. split; [exact Hkind|].
      intros Hn. apply Hnum. intros x u Hx. apply Hn. now right.
    + intros [= <-]. split.
      * right. destruct qty; simpl in Eg; try discriminate Eg; injection Eg as <-; eauto.
      * intros Hn. pose proof (Hn l qty (or_introl eq_refl) Eq) as Hnum.
        destruct (gt_number qty (stock_quantity product) Hnum) as [b Hb]. congruence.
Qed.

Lemma validate_items_loop_stops d a b e :
  validate_items_loop d a = Raise e -> validate_items_loop d (a ++ b) = Raise e.
Proof.
  induction a as [|l a IH]; simpl; [discriminate|].
  destruct (product_id l); [|trivial].
  destruct (item_quantity l); [|trivial].
  destruct (objects_get _ (products d)) as [product|e']; [|trivial].
  destruct (gt _ (stock_quantity product)) as [[|]|e']; trivial.
Qed.

Lemma exceeds_stock_rejected d items :
  product_ids_unique d = true -> exceeds_stock d items ->
  exists e, validate_items d items = Raise e
            /\ ((exists msg, e = ValidationError msg) \/ (exists msg, e = TypeError msg))
            /\ (numbers items -> exists msg, e = ValidationError msg).
Proof.
  intros Hu Hex. unfold validate_items.
  destruct items as [|l rest] eqn:Ei; [eexists; split; [reflexivity|]; eauto|].
  rewrite <- Ei in *.
  destruct (validate_items_loop d items) as [[]|e] eqn:E.
  - exfalso. destruct Hex as [line [p [q [Hline [Hp [Hpid [Hq Hlt]]]]]]].
    destruct (validate_items_loop_checks d items E line Hline)
      as [p' [q' [Hp' [_ [Hpid' [Hq' [Hle _]]]]]]].
    rewrite Hpid in Hpid'. injection Hpid' as Hid.
    rewrite Hq in Hq'. injection Hq' as <-.
    pose proof (unique_key_eq prod_id _ _ _ Hu Hp Hp' Hid). subst p'. congruence.
  - exists e. split; [reflexivity|]. now apply (validate_items_loop_raises d items e Hu).
Qed.

Lemma first_excess_reported d before line after p q :
  product_ids_unique d = true ->
  validate_items_loop d before = Ok tt ->
  In p (products d) -> prod_is_active p = true ->
  product_id line = Some (prod_id p) -> item_quantity line = Some q ->
  gt q (stock_quantity p) = Ok true ->
  validate_items d (before ++ line :: after)
  = Raise (ValidationError (insufficient_stock p)).
Proof.
  intros Hu Hb Hp Hact Hpid Hq Hlt. unfold validate_items.
  destruct (before ++ line :: after)%list as [|l rest] eqn:Ei;
    [now destruct before|].
  rewrite <- Ei, (validate_items_loop_app d before _ Hb). simpl.
  rewrite Hpid, Hq, (objects_get_unique prod_id prod_is_active _ p Hu Hp Hact), Hlt.
  reflexivity.
Qed.

(** The lines before the one that exceeds the stock decide the kind of
    the error. *)
Lemma excess_after_numbers d before line after p q :
  product_ids_unique d = true ->
  numbers before ->
  In p (products d) ->
  product_id line = Some (prod_id p) -> item_quantity line = Some q ->
  gt q (stock_quantity p) = Ok true ->
  exists msg, validate_items d (before ++ line :: after) = Raise (ValidationError msg).
Proof.
  intros Hu Hn Hp Hpid Hq Hlt.
  destruct (validate_items_loop d before) as [[]|e] eqn:Eb.
  - destruct (prod_is_active p) eqn:Hact.
    + eexists. now apply (first_excess_reported d before line after p q).
    + unfold validate_items.
      destruct (before ++ line :: after)%list as [|l rest] eqn:Ei;
        [now destruct before|].
      rewrite <- Ei, (validate_items_loop_app d before _ Eb). simpl.
      rewrite Hpid, Hq. unfold objects_get.
      rewrite (filter_unique_key prod_id prod_is_active _ p Hu Hp), Hact. eauto.
  - destruct (validate_items_loop_raises d before e Hu Eb) as [_ Hv].
    destruct (Hv Hn) as [msg ->]. exists msg. unfold validate_items.
    destruct (before ++ line :: after)%list as [|l rest] eqn:Ei;
      [now destruct before|].
    now rewrite <- Ei, (validate_items_loop_stops d before _ _ Eb).
Qed.

Lemma post_invalid r w e :
  validate_items (db w) (data_items r) = Raise e -> post r w = (w, Raise e).
Proof.
  intros H. rewrite post_unfold. unfold is_valid. now rewrite H.
Qed.

(** C3, as the code has it.  With unique product keys, a POST that
    contains a line asking for more than the stock of the product it names
    is stopped in [validate_items]; nothing has run but reads, so the world
    is unchanged: the stock is what it was and no order row exists.  The
    error is a [ValidationError] when the quantity of every line before
    that one is a number; a quantity that is a string, null, a list or an
    object makes the comparison with the stock a [TypeError].  The error
    is the insufficient-stock message, with the name of the product and
    the quantity available, when that line is the first one validation
    objects to: the product is active and the lines before it are
    accepted. *)
Theorem excess_rejected_by_validation (r : Request) (w : World) :
  product_ids_unique (db w) = true ->
  exceeds_stock (db w) (data_items r) ->
  (exists e,
     post r w = (w, Raise e)
     /\ ((exists msg, e = ValidationError msg) \/ (exists msg, e = TypeError msg)))
  /\ (forall before line after p q,
        data_items r = (before ++ line :: after)%list ->
        numbers before ->
        In p (products (db w)) ->
        product_id line = Some (prod_id p) -> item_quantity line = Some q ->
        gt q (stock_quantity p) = Ok true ->
        exists msg, post r w = (w, Raise (ValidationError msg)))
  /\ forall before line after p q,
       data_items r = (before ++ line :: after)%list ->
       validate_items_loop (db w) before = Ok tt ->
       In p (products (db w)) -> prod_is_active p = true ->
       product_id line = Some (prod_id p) -> item_quantity line = Some q ->
       gt q (stock_quantity p) = Ok true ->
       post r w
       = (w, Raise (ValidationError
                      ("Insufficient stock for " ++ prod_name p
                       ++ ". Available: " ++ str_int (stock_quantity p)))).
Proof.
  intros Hu Hex. split; [|split].
  - destruct (exceeds_stock_rejected _ _ Hu Hex) as [e [He [Hkind _]]].
    exists e. split; [now apply post_invalid | exact Hkind].
  - intros before line after p q Hitems Hn Hp Hpid Hq Hlt.
    destruct (excess_after_numbers (db w) before line after p q Hu Hn Hp Hpid Hq Hlt)
      as [msg Hmsg].
    exists msg. apply post_invalid. now rewrite Hitems.
  - intros before line after p q Hitems Hb Hp Hact Hpid Hq Hlt.
    apply post_invalid. rewrite Hitems.
    now apply (first_excess_reported (db w) before line after p q).
Qed.

Lemma excess_rejected_by_validation_witness :
  post (mkRequest "customer-1" "123 Test Street, Nairobi" None
                  [mkItem (Some "p-1") (Some (JInt 20))])
       Examples.test_world
  = (Examples.test_world,
     Raise (ValidationError "Insufficient stock for Test Product. Available: 10")).
Proof.
  assert (exceeds_stock Examples.shop [mkItem (Some "p-1") (Some (JInt 20))]) as Hex.
  { exists (mkItem (Some "p-1") (Some (JInt 20))), Examples.test_product, (JInt 20).
    simpl. repeat split; auto. }
  apply (proj2 (proj2 (excess_rejected_by_validation
                  (mkRequest "customer-1" "123 Test Street, Nairobi" None
                             [mkItem (Some "p-1") (Some (JInt 20))])
                  Examples.test_world eq_refl Hex))
               [] (mkItem (Some "p-1") (Some (JInt 20))) [] Examples.test_product (JInt 20));
    try reflexivity.
  simpl. now left.
Defined.

(** The request names an unknown product before the line that exceeds the
    stock: the error speaks of the unknown product, not of the stock. *)
Lemma unknown_product_reported_first :
  exceeds_stock Examples.shop Examples.unknown_then_excess
  /\ post (mkRequest "customer-1" "123 Test Street, Nairobi" None
                     Examples.unknown_then_excess)
          Examples.test_world
     = (Examples.test_world, Raise (ValidationError "Product with id p-0 not found"))
  /\ ~ (forall r w,
          product_ids_unique (db w) = true ->
          exceeds_stock (db w) (data_items r) ->
          exists p, In p (products (db w))
                    /\ snd (post r w) = Raise (ValidationError (insufficient_stock p))).
Proof.
  assert (exceeds_stock Examples.shop Examples.unknown_then_excess) as Hex.
  { exists (mkItem (Some "p-1") (Some (JInt 20))), Examples.test_product, (JInt 20).
    simpl. repeat split; auto. }
  split; [exact Hex|]. split; [reflexivity|].
  intros H.
  destruct (H (mkRequest "customer-1" "123 Test Street, Nairobi" None
                         Examples.unknown_then_excess)
              Examples.test_world eq_refl Hex) as [p [[<- | []] Hp]].
  discriminate Hp.
Qed.

(** The request has a line without a number for a quantity before the
    line that exceeds the stock: the comparison with the stock is a
    [TypeError], and no [ValidationError] is raised. *)
Example null_quantity_before_excess :
  exceeds_stock Examples.shop Examples.null_then_excess
  /\ post (mkRequest "customer-1" "123 Test Street, Nairobi" None
                     Examples.null_then_excess)
          Examples.test_world
     = (Examples.test_world,
        Raise (TypeError "'>' not supported between instances of 'NoneType' and 'int'")).
Proof.
  split; [|reflexivity].
  exists (mkItem (Some "p-1") (Some (JInt 20))), Examples.test_product, (JInt 20).
  simpl. repeat split; auto.
Qed.

(** ** Order numbers *)

Lemma Order_super_save_raise o f w w' e :
  Order_super_save o f w = (w', Raise e) -> db w' = db w.
Proof.
  unfold Order_super_save, bind, get_db, raise, put_db. intros H.
  run_checks H; now injection H as <- _.
Qed.

Lemma Order_save_raise o f w w' e :
  Order_save o f w = (w', Raise e) -> db w' = db w.
Proof.
  unfold Order_save. intros H.
  destruct (bind_inv _ _ _ _ _ H) as [[w1 [o1 [H1 H2]]] | [e' [H1 _]]].
  - assert (db w1 = db w) as E.
    { destruct (String.eqb (order_number o) "").
      - unfold bind, int_time, ret in H1. now injection H1 as <- _.
      - unfold ret in H1. now injection H1 as <- _. }
    destruct (bind_inv _ _ _ _ _ H2) as [[w2 [u [H3 H4]]] | [e' [H3 _]]].
    + unfold ret in H4. discriminate.
    + rewrite <- E. now apply (Order_super_save_raise o1 f w1 w' e').
  - destruct (String.eqb (order_number o) "").
    + unfold bind, int_time, ret in H1. discriminate.
    + unfold ret in H1. discriminate.
Qed.

Lemma NoDup_snoc {A} (l : list A) (x : A) : NoDup l -> ~ In x l -> NoDup (l ++ [x]).
Proof.
  induction l as [|a l IH]; simpl; intros Hnd Hx.
  - constructor; [intros [] | constructor].
  - inversion Hnd as [|? ? Ha Hl]; subst. constructor.
    + intros Hin. apply in_app_or in Hin. destruct Hin as [Hin | [<- | []]]; tauto.
    + apply IH; tauto.
Qed.

Lemma existsb_key_false {A} (key : A -> string) (l : list A) (k : string) :
  existsb (fun q => String.eqb (key q) k) l = false -> ~ In k (map key l).
Proof.
  intros Hex Hin. apply in_map_iff in Hin. destruct Hin as [q [<- Hq]].
  assert (existsb (fun x => String.eqb (key x) (key q)) l = true) as E.
  { apply existsb_exists. exists q. split; [assumption | apply String.eqb_refl]. }
  congruence.
Qed.

Lemma existsb_key_true {A} (key : A -> string) (l : list A) (k : string) :
  ~ In k (map key l) -> existsb (fun q => String.eqb (key q) k) l = false.
Proof.
  intros Hout. destruct (existsb _ l) eqn:E; [|reflexivity].
  apply existsb_exists in E. destruct E as [q [Hq Hk]].
  apply String.eqb_eq in Hk. exfalso. apply Hout. rewrite <- Hk. now apply in_map.
Qed.

Lemma replace_keeps_ids (os : list Order) (o : Order) :
  map order_id (map (fun q => if String.eqb (order_id q) (order_id o) then o else q) os)
  = map order_id os.
Proof.
  induction os as [|q os IH]; simpl; [reflexivity|]. rewrite IH. f_equal.
  destruct (String.eqb (order_id q) (order_id o)) eqn:E; [|reflexivity].
  apply String.eqb_eq in E. now symmetry.
Qed.

(** Updating the row of an order whose number no other row carries keeps
    the numbers pairwise different. *)
Lemma replace_keeps_numbers (os : list Order) (o : Order) :
  NoDup (map order_id os) -> NoDup (map order_number os) ->
  existsb (fun q => String.eqb (order_number q) (order_number o)
                    && negb (String.eqb (order_id q) (order_id o))) os = false ->
  NoDup (map order_number
           (map (fun q => if String.eqb (order_id q) (order_id o) then o else q) os)).
Proof.
  induction os as [|q os IH]; simpl; intros Hids Hnums Hex; [constructor|].
  inversion Hids as [|? ? Hid Hids']; subst.
  inversion Hnums as [|? ? Hnum Hnums']; subst.
  apply orb_false_iff in Hex. destruct Hex as [Hq Hex].
  destruct (String.eqb (order_id q) (order_id o)) eqn:E.
  - apply String.eqb_eq in E. rewrite E in Hid.
    pose proof (existsb_key_true order_id os (order_id o) Hid) as Habs.
    rewrite (map_replace_absent os (order_id o) o Habs).
    constructor; [|assumption].
    apply existsb_key_false. now apply fresh_number.
  - constructor; [|now apply IH].
    simpl in Hq. rewrite andb_true_r in Hq.
    intros Hin. apply in_map_iff in Hin. destruct Hin as [y [Hy Hyin]].
    apply in_map_iff in Hyin. destruct Hyin as [z [<- Hz]].
    destruct (String.eqb (order_id z) (order_id o)).
    + rewrite <- Hy, String.eqb_refl in Hq. discriminate.
    + apply Hnum. rewrite <- Hy. now apply in_map.
Qed.

Lemma Order_super_save_unique o f :
  preserves (fun d => orders_unique d = true) (Order_super_save o f).
Proof.
  intros w w' r HI H. destruct r as [u|e];
    [|now rewrite (Order_super_save_raise _ _ _ _ _ H)].
  apply Order_super_save_ok in H. destruct H as [-> [_ Hnum]].
  unfold orders_unique in *. simpl.
  rewrite andb_true_iff, !distinct_NoDup in *. destruct HI as [Hids Hnums].
  destruct (existsb (fun q => String.eqb (order_id q) (order_id o)) (orders (db w))) eqn:E.
  - rewrite replace_keeps_ids. split; [assumption|]. now apply replace_keeps_numbers.
  - rewrite !map_app. simpl. split; apply NoDup_snoc; trivial.
    + now apply existsb_key_false.
    + apply existsb_key_false. now apply fresh_number.
Qed.

Lemma Order_save_unique o f :
  preserves (fun d => orders_unique d = true) (Order_save o f).
Proof.
  unfold Order_save. apply preserves_bind; [|intros o'].
  - destruct (String.eqb (order_number o) "").
    + apply preserves_bind; [apply preserves_int_time | intros t; apply preserves_ret].
    + apply preserves_ret.
  - apply preserves_bind; [apply Order_super_save_unique | intros _; apply preserves_ret].
Qed.

Lemma orders_unique_frame {A} (m : M A) :
  (forall w w' r, m w = (w', r) -> orders (db w') = orders (db w)) ->
  preserves (fun d => orders_unique d = true) m.
Proof.
  intros Hm w w' r HI H. unfold orders_unique in *. now rewrite (Hm w w' r H).
Qed.

Lemma create_items_orders_unique order items : forall total,
  preserves (fun d => orders_unique d = true) (create_items order items total).
Proof.
  induction items as [|line rest IH]; intros total; simpl; [apply preserves_ret|].
  apply preserves_bind; [apply preserves_lift | intros pid].
  apply preserves_bind; [apply preserves_get_db | intros d].
  apply preserves_bind; [apply preserves_lift | intros product].
  apply preserves_bind; [apply preserves_lift | intros qty].
  apply preserves_bind; [|intros i].
  { apply orders_unique_frame. intros w w' r H.
    now apply OrderItem_objects_create_frame in H. }
  apply preserves_bind; [|intros _; apply IH].
  apply orders_unique_frame. intros w w' r H. now apply Product_save_frame in H.
Qed.

Lemma create_orders_unique user validated_data :
  preserves (fun d => orders_unique d = true) (create user validated_data).
Proof.
  unfold create, create_body. apply preserves_atomic.
  apply preserves_bind; [apply preserves_lift | intros popped].
  apply preserves_bind; [apply preserves_lift | intros items].
  apply preserves_bind; [apply preserves_lift | intros kwargs].
  apply preserves_bind; [|intros order].
  { unfold Order_objects_create.
    apply preserves_bind; [apply preserves_new_uuid | intros pk].
    apply preserves_bind; [apply preserves_lift | intros f].
    destruct (f_customer f); [|apply preserves_raise].
    destruct (f_total_amount f); [|apply preserves_raise].
    destruct (f_shipping_address f); [|apply preserves_raise].
    apply Order_save_unique. }
  apply preserves_bind; [apply create_items_orders_unique | intros total].
  apply Order_save_unique.
Qed.

Lemma Order_save_persists o f w w' o' :
  Order_save o f w = (w', Ok o') -> In o' (orders (db w')).
Proof.
  intros H. apply Order_save_ok in H. destruct H as [w1 [H _]].
  apply Order_super_save_ok in H. destruct H as [-> _]. simpl.
  destruct (existsb _ (orders (db w1))) eqn:E.
  - apply existsb_exists in E. destruct E as [q [Hq Hid]].
    apply in_map_iff. exists q. now rewrite Hid.
  - apply in_or_app. right. now left.
Qed.

Lemma colliding_number_rejected o w q :
  order_number o = "" -> In q (orders (db w)) ->
  order_number q = generate_order_number (time_time w (tick w)) ->
  exists e, snd (Order_save o true w) = Raise e
            /\ db (fst (Order_save o true w)) = db w.
Proof.
  intros Hempty Hq Hnum.
  destruct (Order_save o true w) as [w' [o'|e]] eqn:E; simpl.
  - exfalso. apply Order_save_ok in E. destruct E as [w1 [H [Hdb Ho']]].
    rewrite Hempty in Ho'. simpl in Ho'.
    apply Order_super_save_ok in H. destruct H as [_ [Hid Hn]].
    specialize (Hid eq_refl). rewrite Hdb in Hid, Hn.
    pose proof (fresh_number _ _ Hid Hn) as Hfresh.
    apply (existsb_key_false order_number) in Hfresh. apply Hfresh.
    rewrite Ho'. simpl. rewrite <- Hnum. now apply in_map.
  - exists e. split; [reflexivity|]. now apply (Order_save_raise o true w w' e).
Qed.

(** C9, as the code has it.  [Order.save] gives an order without number
    the number [ORD-<seconds>] of the clock reading it makes, and leaves a
    number that is set; the saved order is in the table.  The generated
    numbers are not unique by themselves: what keeps the numbers (and the
    primary keys) of the persisted orders pairwise different, under every
    [save] and every sequence of order operations, is the uniqueness
    check of the column, and an order whose generated number is already
    taken is not saved: the insert raises and the database is as before. *)
Theorem order_numbers_unique_by_constraint :
  (forall o f w w' o',
     Order_save o f w = (w', Ok o') ->
     In o' (orders (db w'))
     /\ order_number o'
        = if String.eqb (order_number o) ""
          then generate_order_number (time_time w (tick w))
          else order_number o)
  /\ (forall o f w,
        orders_unique (db w) = true ->
        orders_unique (db (fst (Order_save o f w))) = true)
  /\ (forall ops w,
        orders_unique (db w) = true -> orders_unique (db (run_ops ops w)) = true)
  /\ (forall o w q,
        order_number o = "" -> In q (orders (db w)) ->
        order_number q = generate_order_number (time_time w (tick w)) ->
        exists e, snd (Order_save o true w) = Raise e
                  /\ db (fst (Order_save o true w)) = db w).
Proof.
  split; [|split; [|split]].
  - intros o f w w' o' H. split; [now apply (Order_save_persists o f w)|].
    apply Order_save_ok in H. destruct H as [w1 [_ [_ ->]]].
    now destruct (String.eqb (order_number o) "").
  - intros o f w HI. destruct (Order_save o f w) as [w' r] eqn:E.
    now apply (Order_save_unique o f w w' r).
  - intros ops w. apply (run_ops_invariant (fun d => orders_unique d = true)).
    apply create_orders_unique.
  - apply colliding_number_rejected.
Qed.

(** Two orders placed within the same second are given the same number;
    the second is refused by the uniqueness check of the column. *)
Lemma same_second_same_number :
  map order_number (orders (db Examples.same_second)) = ["ORD-1700000000"]
  /\ generate_order_number (time_time Examples.same_second (tick Examples.same_second))
     = "ORD-1700000000"
  /\ snd (create "customer-1" (Examples.order_data [mkItem (Some "p-1") (Some (JInt 3))])
                 Examples.same_second)
     = Raise (IntegrityError "orders_order_number_key")
  /\ ~ (forall w t1 t2,
          t1 <> t2 ->
          generate_order_number (time_time w t1) <> generate_order_number (time_time w t2)).
Proof.
  split; [reflexivity|]. split; [reflexivity|]. split; [reflexivity|].
  intros H. apply (H Examples.test_world 0%nat 1%nat); [discriminate | reflexivity].
Qed.

Lemma order_numbers_unique_by_constraint_witness :
  orders_unique (db Examples.same_second) = true
  /\ orders_unique
       (db (run_ops
              [OpCreate "customer-1" (Examples.order_data [mkItem (Some "p-1") (Some (JInt 3))]);
               OpPost Examples.test_request]
              Examples.same_second)) = true
  /\ exists e,
       snd (Order_save (mkOrder "o-2" "" "customer-1" "pending" 0 "somewhere" None)
                       true Examples.same_second) = Raise e
       /\ db (fst (Order_save (mkOrder "o-2" "" "customer-1" "pending" 0 "somewhere" None)
                              true Examples.same_second))
          = db Examples.same_second.
Proof.
  destruct order_numbers_unique_by_constraint as [_ [_ [Hops Hcollide]]].
  split; [reflexivity|]. split.
  - apply Hops. reflexivity.
  - apply (Hcollide _ Examples.same_second
             (mkOrder "uuid-0" "ORD-1700000000" "customer-1" "pending" 19998
                      "123 Test Street, Nairobi" None)).
    + reflexivity.
    + simpl. now left.
    + reflexivity.
Defined.

(** * Further properties *)

Import Catalogue.

(** ** Ancestors, level and path of a category *)

Lemma path_from_snoc cs prev l x last :
  path_from cs prev (l ++ [last]) -> parent_of cs x = Some (Some last) ->
  path_from cs prev ((l ++ [last]) ++ [x]).
Proof.
  revert prev. induction l as [|a l IH]; simpl; intros prev [H1 H2] Hx.
  - auto.
  - split; [assumption | now apply IH].
Qed.

Lemma walk_up fuel cs : forall c k,
  level fuel cs c = Some k ->
  exists start l,
    parent_of cs c = Some start
    /\ List.length l = k
    /\ path_from cs None (l ++ [c])
    /\ (forall acc, ancestors_loop fuel cs start acc = Some (acc ++ rev l)%list)
    /\ (forall path, full_path_loop fuel cs start path = Some (map cat_name l ++ path)%list).
Proof.
  induction fuel as [|fuel IH]; intros c k H; [discriminate|].
  rewrite level_unfold in H. unfold parent_of.
  destruct (cat_parent c) as [pid|] eqn:Ep.
  - destruct (category_by_id cs pid) as [p|] eqn:Ef; [|discriminate].
    destruct (level fuel cs p) as [j|] eqn:El; [|discriminate].
    injection H as <-.
    destruct (IH p j El) as [start [l [Hstart [Hlen [Hpath [Hanc Hfull]]]]]].
    exists (Some p), (l ++ [p])%list. repeat split.
    + rewrite length_app, Hlen. simpl. lia.
    + apply path_from_snoc; [assumption|]. unfold parent_of. now rewrite Ep, Ef.
    + intros acc. simpl. rewrite Hstart, Hanc, rev_app_distr, <- app_assoc. reflexivity.
    + intros path. simpl. rewrite Hstart, Hfull, map_app, <- app_assoc. reflexivity.
  - injection H as <-. exists None, []. simpl. unfold parent_of. rewrite Ep.
    repeat split; trivial. intros acc. now rewrite app_nil_r.
Qed.

(** X1. Where [level] returns [k], [get_ancestors] returns [k] rows: a
    chain of parent references from a root down to the parent of the
    category, root first; and [get_full_path] is the names of these rows
    and of the category itself, joined by " > ". *)
Theorem ancestors_level_and_path_agree (fuel : nat) (cs : list Category)
    (c : Category) (k : nat) :
  level fuel cs c = Some k ->
  exists ancestors,
    get_ancestors fuel cs c = Some ancestors
    /\ List.length ancestors = k
    /\ path_from cs None (ancestors ++ [c])
    /\ get_full_path fuel cs c
       = Some (join " > " (map cat_name ancestors ++ [cat_name c])).
Proof.
  intros H. destruct (walk_up fuel cs c k H) as [start [l [Hs [Hlen [Hpath [Hanc Hfull]]]]]].
  exists l. unfold get_ancestors, get_full_path. rewrite Hs, Hanc, Hfull. simpl.
  rewrite rev_involutive. auto.
Qed.

Lemma ancestors_level_and_path_agree_witness :
  exists ancestors,
    get_ancestors 3 (categories Examples.shop) Examples.android_phones = Some ancestors
    /\ List.length ancestors = 2%nat
    /\ path_from (categories Examples.shop) None (ancestors ++ [Examples.android_phones])
    /\ get_full_path 3 (categories Examples.shop) Examples.android_phones
       = Some (join " > " (map cat_name ancestors ++ [cat_name Examples.android_phones])).
Proof.
  apply (ancestors_level_and_path_agree 3 (categories Examples.shop)
           Examples.android_phones 2).
  reflexivity.
Defined.

(** X2. With unique primary keys, a root has level 0, a category is one
    level below its parent, and a level is smaller than the number of
    categories. *)
Theorem level_counts_parents (cs : list Category) :
  category_ids_unique cs = true ->
  (forall fuel c, cat_parent c = None -> level (S fuel) cs c = Some 0%nat)
  /\ (forall fuel p c k,
        In p cs -> cat_parent c = Some (cat_id p) ->
        level fuel cs p = Some k -> level (S fuel) cs c = Some (S k))
  /\ (forall fuel c k,
        In c cs -> level fuel cs c = Some k -> (k < List.length cs)%nat).
Proof.
  intros Hu. split; [|split].
  - intros fuel c Hroot. now rewrite level_unfold, Hroot.
  - intros fuel p c k Hp Hpar Hl.
    apply (level_of_child fuel cs p c k Hu Hp); [|assumption].
    unfold has_parent. rewrite Hpar. apply String.eqb_refl.
  - intros fuel c k. apply level_bound.
Qed.

Lemma level_counts_parents_witness :
  level 3 (categories Examples.shop) Examples.android_phones = Some 2%nat
  /\ (2 < List.length (categories Examples.shop))%nat.
Proof.
  destruct (level_counts_parents (categories Examples.shop) eq_refl) as [_ [Hchild Hbound]].
  assert (level 3 (categories Examples.shop) Examples.android_phones = Some 2%nat) as H.
  { apply (Hchild 2%nat Examples.smartphones Examples.android_phones 1%nat).
    - simpl. tauto.
    - reflexivity.
    - reflexivity. }
  split; [exact H|].
  apply (Hbound 3%nat Examples.android_phones 2%nat); [simpl; tauto | exact H].
Defined.

(** ** Descendants *)

Lemma In_children cs c x :
  In x (children cs c) <-> In x cs /\ has_parent (cat_id c) x = true.
Proof. unfold children. now rewrite In_order_by_name, filter_In. Qed.

Lemma descends_below_child cs c ch x :
  In ch cs -> has_parent (cat_id c) ch = true -> descends cs ch x -> descends cs c x.
Proof.
  intros Hin Hch H. induction H as [d Hd Hp | d x _ IH Hx Hp].
  - apply (descends_step cs c ch d); [now apply descends_child | assumption | assumption].
  - now apply (descends_step cs c d x).
Qed.

Lemma descends_inv cs c x :
  descends cs c x ->
  exists ch, In ch (children cs c) /\ (x = ch \/ descends cs ch x).
Proof.
  induction 1 as [d Hd Hp | d x _ IH Hx Hp].
  - exists d. split; [now apply In_children | now left].
  - destruct IH as [ch [Hch [-> | Hdesc]]]; exists ch; split; trivial; right.
    + now apply descends_child.
    + now apply (descends_step cs ch d x).
Qed.

(** The loop over the children [l] of a category, each followed by its
    own descendants. *)
Lemma children_loop_spec fuel cs
    (IH : forall c acc out,
        _get_children fuel cs c acc = Some out ->
        exists new, out = (acc ++ new)%list /\ forall x, In x new <-> descends cs c x) :
  forall l acc out,
    fold_left
      (fun a child =>
         match a with
         | Some ds => _get_children fuel cs child (ds ++ [child])
         | None => None
         end) l (Some acc) = Some out ->
    exists new,
      out = (acc ++ new)%list
      /\ forall x, In x new <-> exists ch, In ch l /\ (x = ch \/ descends cs ch x).
Proof.
  induction l as [|ch l IHl]; simpl; intros acc out H.
  - injection H as <-. exists []. rewrite app_nil_r. split; [reflexivity|].
    intros x. split; [intros [] | intros [ch [[] _]]].
  - destruct (_get_children fuel cs ch (acc ++ [ch])) as [mid|] eqn:E.
    + destruct (IH ch _ _ E) as [new1 [-> Hnew1]].
      destruct (IHl _ _ H) as [new2 [-> Hnew2]].
      exists (ch :: new1 ++ new2)%list. split.
      * rewrite <- !app_assoc. reflexivity.
      * intros x. simpl. rewrite in_app_iff, Hnew1, Hnew2. split.
        -- intros [<- | [Hd | [ch' [Hch' Hx]]]].
           ++ exists ch. auto.
           ++ exists ch. auto.
           ++ exists ch'. auto.
        -- intros [ch' [[<- | Hch'] [-> | Hd]]]; auto.
           ++ right. right. exists ch'. auto.
           ++ right. right. exists ch'. auto.
    + exfalso. clear -H. induction l as [|a l IHl']; simpl in H; [discriminate | auto].
Qed.

Lemma get_children_spec fuel cs : forall c acc out,
  _get_children fuel cs c acc = Some out ->
  exists new, out = (acc ++ new)%list /\ forall x, In x new <-> descends cs c x.
Proof.
  induction fuel as [|fuel IH]; intros c acc out H; [discriminate|].
  simpl in H. destruct (children_loop_spec fuel cs IH _ _ _ H) as [new [-> Hnew]].
  exists new. split; [reflexivity|]. intros x. rewrite Hnew. split.
  - intros [ch [Hch [-> | Hd]]]; apply In_children in Hch; destruct Hch as [Hin Hp].
    + now apply descends_child.
    + now apply (descends_below_child cs c ch x).
  - apply descends_inv.
Qed.

Lemma get_descendants_spec fuel cs c ds :
  get_descendants fuel cs c = Some ds -> forall x, In x ds <-> descends cs c x.
Proof.
  unfold get_descendants. intros H.
  destruct (get_children_spec fuel cs c [] ds H) as [new [-> Hnew]]. exact Hnew.
Qed.

(** X3. What [get_descendants] returns is exactly the set of categories
    reached from the category through child links: every child, every
    child of a returned category, and nothing else.  Whether a category is
    active plays no part. *)
Theorem get_descendants_is_reachability (fuel : nat) (cs : list Category)
    (c : Category) (ds : list Category) :
  get_descendants fuel cs c = Some ds ->
  forall x, In x ds <-> descends cs c x.
Proof. apply get_descendants_spec. Qed.

Lemma get_descendants_is_reachability_witness :
  In Examples.still_listed
     [Examples.retired; Examples.still_listed; Examples.smartphones;
      Examples.android_phones]
  <-> descends (categories Examples.pruned_catalogue) Examples.electronics
               Examples.still_listed.
Proof.
  apply (get_descendants_is_reachability 4 (categories Examples.pruned_catalogue)
           Examples.electronics).
  reflexivity.
Defined.

(** Below a category every level is larger. *)
Lemma descends_deeper cs c x fuel k :
  category_ids_unique cs = true -> In c cs ->
  level fuel cs c = Some k -> descends cs c x ->
  exists fuel' j, level fuel' cs x = Some j /\ (k < j)%nat.
Proof.
  intros Hu Hc Hl H. induction H as [d Hd Hp | d x Hdesc IH Hx Hp].
  - exists (S fuel), (S k). split; [|lia]. now apply (level_of_child fuel cs c d k).
  - destruct IH as [f' [j [Hj Hlt]]].
    assert (In d cs) as Hd by (destruct Hdesc; assumption).
    exists (S f'), (S j). split; [|lia]. now apply (level_of_child f' cs d x j).
Qed.

Lemma get_children_total cs :
  category_ids_unique cs = true ->
  forall fuel c acc lfuel k,
    In c cs -> level lfuel cs c = Some k -> (List.length cs <= fuel + k)%nat ->
    exists out, _get_children fuel cs c acc = Some out.
Proof.
  intros Hu. induction fuel as [|fuel IH]; intros c acc lfuel k Hc Hl Hle.
  - pose proof (level_bound _ _ _ _ Hc Hl). lia.
  - simpl.
    assert (forall l, incl l (children cs c) ->
              forall a, exists out,
                fold_left
                  (fun a child =>
                     match a with
                     | Some ds => _get_children fuel cs child (ds ++ [child])
                     | None => None
                     end) l (Some a) = Some out) as Hloop.
    { induction l as [|ch l IHl]; intros Hincl a; simpl; [eauto|].
      assert (In ch (children cs c)) as Hch by (apply Hincl; now left).
      apply In_children in Hch. destruct Hch as [Hin Hp].
      destruct (IH ch (a ++ [ch])%list (S lfuel) (S k) Hin) as [mid ->].
      - now apply (level_of_child lfuel cs c ch k).
      - lia.
      - apply IHl. intros x Hx. apply Hincl. now right. }
    apply Hloop. apply incl_refl.
Qed.

(** X4. With unique primary keys, [get_descendants] returns for every
    category whose parent chain ends at a root, as soon as the depth
    allowed exceeds the number of categories; and the category is not
    among its own descendants. *)
Theorem get_descendants_returns (cs : list Category) (c : Category)
    (lfuel k : nat) :
  category_ids_unique cs = true ->
  In c cs ->
  level lfuel cs c = Some k ->
  exists ds,
    get_descendants (S (List.length cs)) cs c = Some ds /\ ~ In c ds.
Proof.
  intros Hu Hc Hl.
  destruct (get_children_total cs Hu (S (List.length cs)) c [] lfuel k Hc Hl) as [ds Hds];
    [lia|].
  exists ds. split; [exact Hds|]. intros Hin.
  apply (get_descendants_spec _ _ _ _ Hds) in Hin.
  destruct (descends_deeper cs c c lfuel k Hu Hc Hl Hin) as [f' [j [Hj Hlt]]].
  pose proof (level_deterministic _ _ _ _ _ _ Hl Hj). lia.
Qed.

Lemma get_descendants_returns_witness :
  exists ds,
    get_descendants (S (List.length (categories Examples.pruned_catalogue)))
                    (categories Examples.pruned_catalogue) Examples.retired = Some ds
    /\ ~ In Examples.retired ds.
Proof.
  apply (get_descendants_returns (categories Examples.pruned_catalogue)
           Examples.retired 2 1).
  - reflexivity.
  - simpl. tauto.
  - reflexivity.
Defined.

(** [get_descendants] returns for a category whose parent chain ends
    at a root, at any depth above the number of categories, and what it
    returns is what child links reach. *)
Lemma get_descendants_total cs c lfuel k fuel :
  category_ids_unique cs = true -> In c cs -> level lfuel cs c = Some k ->
  (List.length cs < fuel)%nat ->
  exists ds,
    get_descendants fuel cs c = Some ds /\ forall x, In x ds <-> descends cs c x.
Proof.
  intros Hu Hc Hl Hfuel.
  destruct (get_children_total cs Hu fuel c [] lfuel k Hc Hl) as [ds Hds]; [lia|].
  exists ds. split; [exact Hds|]. now apply (get_descendants_spec fuel cs c ds).
Qed.

(** ** The average price over a subtree *)

(** C8. [category_average_price] answers 404 when no active category has
    the given id (the category is absent or inactive).  When the category
    is active and neither it nor any category below it holds an active
    product, the view returns, and answers with [product_count = 0] and
    [average_price = None]: no number is made up and nothing is divided.
    The traversal of the descendants comes to its end within a depth of
    the number of categories plus one: primary keys are unique and the
    chain of parents of the category ends at a root. *)
Theorem average_price_without_products (fuel : nat) (d : DB) (category_id : uuid) :
  ((forall c, In c (categories d) -> cat_id c = category_id -> cat_is_active c = false) ->
   category_average_price fuel d category_id = Some (HTTP_404 "Category not found"))
  /\
  (forall c lfuel k,
     category_ids_unique (categories d) = true ->
     In c (categories d) -> cat_id c = category_id -> cat_is_active c = true ->
     level lfuel (categories d) c = Some k ->
     (List.length (categories d) < fuel)%nat ->
     (forall p x, In p (products d) -> prod_is_active p = true ->
                  x = c \/ descends (categories d) c x -> prod_category p <> cat_id x) ->
     category_average_price fuel d category_id
     = Some (HTTP_200 (mkAveragePrice (cat_id c) (cat_name c) None 0
                         (Some "No products found in this category")))).
Proof.
  split.
  - intros H. unfold category_average_price.
    rewrite objects_get_none; [reflexivity|].
    intros c Hc. destruct (String.eqb (cat_id c) category_id) eqn:E; [|reflexivity].
    apply String.eqb_eq in E. now rewrite (H c Hc E).
  - intros c lfuel k Hu Hc Hid Ha Hl Hfuel Hnone. unfold category_average_price.
    subst category_id.
    destruct (get_descendants_total (categories d) c lfuel k fuel Hu Hc Hl Hfuel)
      as [ds [Hds Hspec]].
    rewrite (objects_get_unique cat_id cat_is_active _ c Hu Hc Ha), Hds.
    rewrite products_in_nil; [reflexivity|].
    intros p Hp Hpa x [<- | Hx]; apply (Hnone p); auto.
    right. now apply Hspec.
Qed.

Lemma average_price_without_products_witness :
  category_average_price 4 Examples.shop "c-9" = Some (HTTP_404 "Category not found")
  /\ category_average_price 4 Examples.shop "c-2"
     = Some (HTTP_200 (mkAveragePrice "c-2" "Smartphones" None 0
                         (Some "No products found in this category"))).
Proof.
  split.
  - apply (average_price_without_products 4 Examples.shop "c-9").
    simpl. intros c [<- | [<- | [<- | []]]]; discriminate.
  - apply (proj2 (average_price_without_products 4 Examples.shop "c-2")
             Examples.smartphones 2%nat 1%nat).
    + reflexivity.
    + simpl. tauto.
    + reflexivity.
    + reflexivity.
    + reflexivity.
    + simpl. lia.
    + intros p x [<- | []] _ Hx.
      assert (In x [Examples.smartphones; Examples.android_phones]) as Hin.
      { destruct Hx as [-> | Hx]; [now left | right].
        now apply (get_descendants_spec 4 (categories Examples.shop)
                     Examples.smartphones [Examples.android_phones] eq_refl). }
      destruct Hin as [<- | [<- | []]]; discriminate.
Defined.

(** X5. [category_average_price] counts the active products of the whole
    subtree, whatever the state of the sub-categories: an active product
    in the category or in any category reached from it through child
    links, active or not, makes the view return an answer that carries a
    positive [product_count] and a numeric average.  The traversal of the
    descendants comes to its end within a depth of the number of
    categories plus one: primary keys are unique and the chain of parents
    of the category ends at a root.  In every 200 answer the average is
    [None] exactly when the count is 0. *)
Theorem average_price_counts_subtree :
  (forall fuel d c lfuel k x p,
     category_ids_unique (categories d) = true ->
     In c (categories d) -> cat_is_active c = true ->
     level lfuel (categories d) c = Some k ->
     (List.length (categories d) < fuel)%nat ->
     x = c \/ descends (categories d) c x ->
     In p (products d) -> prod_is_active p = true -> prod_category p = cat_id x ->
     exists data,
       category_average_price fuel d (cat_id c) = Some (HTTP_200 data)
       /\ (0 < product_count data)%nat /\ average_price data <> None)
  /\ (forall fuel d category_id data,
        category_average_price fuel d category_id = Some (HTTP_200 data) ->
        (average_price data = None <-> product_count data = 0%nat)).
Proof.
  split.
  - intros fuel d c lfuel k x p Hu Hc Hact Hl Hfuel Hx Hp Hpa Hcat.
    unfold category_average_price.
    destruct (get_descendants_total (categories d) c lfuel k fuel Hu Hc Hl Hfuel)
      as [ds [Hds Hspec]].
    rewrite (objects_get_unique cat_id cat_is_active _ c Hu Hc Hact), Hds.
    assert (In p (products_in (c :: ds) (products d))) as Hin.
    { unfold products_in. apply filter_In. split; [assumption|].
      rewrite Hpa, andb_true_r. apply existsb_exists. exists x. split.
      - destruct Hx as [-> | Hx]; [now left | right]. now apply Hspec.
      - rewrite Hcat. apply String.eqb_refl. }
    destruct (products_in (c :: ds) (products d)) as [|q qs]; [contradiction|].
    eexists. split; [reflexivity|]. simpl. split; [lia | discriminate].
  - intros fuel d category_id data. unfold category_average_price.
    destruct (objects_get _ (categories d)) as [c|e]; [|destruct e; discriminate].
    destruct (get_descendants fuel (categories d) c) as [ds|]; [|discriminate].
    destruct (products_in (c :: ds) (products d)) as [|q qs];
      intros [= <-]; simpl; split; try reflexivity; discriminate.
Qed.

Lemma average_price_counts_subtree_witness :
  exists data,
    category_average_price 7 Fixtures.clearance_shop "c-1" = Some (HTTP_200 data)
    /\ (0 < product_count data)%nat /\ average_price data <> None.
Proof.
  apply (proj1 average_price_counts_subtree 7%nat Fixtures.clearance_shop
           Examples.electronics 1%nat 0%nat Examples.retired Fixtures.clearance_item).
  - reflexivity.
  - simpl. tauto.
  - reflexivity.
  - reflexivity.
  - simpl. lia.
  - right. apply descends_child; [simpl; tauto | reflexivity].
  - simpl. tauto.
  - reflexivity.
  - reflexivity.
Defined.

(** ** The category list and the category tree *)

Lemma ascii_compare_trans_le a b c :
  Ascii.compare a b <> Gt -> Ascii.compare b c <> Gt -> Ascii.compare a c <> Gt.
Proof.
  unfold Ascii.compare. rewrite !N.compare_le_iff. lia.
Qed.

Lemma string_compare_trans_le : forall s1 s2 s3,
  String.compare s1 s2 <> Gt -> String.compare s2 s3 <> Gt -> String.compare s1 s3 <> Gt.
Proof.
  induction s1 as [|a s1 IH]; intros [|b s2] [|c s3]; simpl; try congruence.
  intros H12 H23.
  destruct (Ascii.compare a b) eqn:Eab; try congruence;
    destruct (Ascii.compare b c) eqn:Ebc; try congruence.
  - apply Ascii.compare_eq_iff in Eab, Ebc. subst.
    assert (Ascii.compare c c = Eq) as -> by (unfold Ascii.compare; apply N.compare_refl).
    now apply (IH s2 s3).
  - apply Ascii.compare_eq_iff in Eab. subst. now rewrite Ebc.
  - apply Ascii.compare_eq_iff in Ebc. subst. now rewrite Eab.
  - assert (Ascii.compare a c = Lt) as ->; [|discriminate].
    unfold Ascii.compare in *. rewrite N.compare_lt_iff in *. lia.
Qed.

Lemma leb_trans s1 s2 s3 :
  String.leb s1 s2 = true -> String.leb s2 s3 = true -> String.leb s1 s3 = true.
Proof.
  unfold String.leb. intros H12 H23.
  pose proof (string_compare_trans_le s1 s2 s3) as H.
  destruct (String.compare s1 s2); destruct (String.compare s2 s3);
    destruct (String.compare s1 s3); try reflexivity; try discriminate;
    exfalso; apply H; congruence.
Qed.

Lemma insert_first c l :
  (forall x, In x l -> String.leb (cat_name c) (cat_name x) = true) ->
  insert_by_name c l = c :: l.
Proof.
  destruct l as [|d l]; simpl; [reflexivity|]. intros H.
  now rewrite (H d (or_introl eq_refl)).
Qed.

Lemma insert_sorted c l :
  sorted_by_name l -> sorted_by_name (insert_by_name c l).
Proof.
  induction l as [|d l IH]; simpl; intros Hs.
  - split; [intros x [] | exact I].
  - destruct Hs as [Hd Hs].
    destruct (String.leb (cat_name c) (cat_name d)) eqn:E; simpl.
    + split; [|split; assumption]. intros x [<- | Hx]; [exact E|].
      apply (leb_trans _ (cat_name d)); [exact E | now apply Hd].
    + split; [|now apply IH]. intros x Hx.
      apply In_insert_by_name in Hx. destruct Hx as [-> | Hx]; [|now apply Hd].
      destruct (String.leb_total (cat_name d) (cat_name c)) as [H | H];
        [exact H | congruence].
Qed.

Lemma order_by_name_sorted l : sorted_by_name (order_by_name l).
Proof.
  induction l as [|a l IH]; simpl; [exact I | now apply insert_sorted].
Qed.

Lemma filter_insert p c l :
  sorted_by_name l ->
  filter p (insert_by_name c l)
  = if p c then insert_by_name c (filter p l) else filter p l.
Proof.
  induction l as [|d l IH]; simpl; intros Hs.
  - now destruct (p c).
  - destruct Hs as [Hd Hs].
    destruct (String.leb (cat_name c) (cat_name d)) eqn:E; simpl.
    + destruct (p c) eqn:Ec; [|reflexivity].
      rewrite insert_first; [reflexivity|].
      intros x Hx.
      assert (x = d \/ In x l) as Hx'.
      { destruct (p d); [destruct Hx as [<- | Hx]; [now left | right] | right];
          now apply (proj1 (filter_In p x l)). }
      destruct Hx' as [-> | Hx']; [exact E|].
      apply (leb_trans _ (cat_name d)); [exact E | now apply Hd].
    + rewrite (IH Hs). destruct (p d), (p c); simpl; try rewrite E; reflexivity.
Qed.

Lemma filter_order_by_name p l :
  filter p (order_by_name l) = order_by_name (filter p l).
Proof.
  induction l as [|a l IH]; simpl; [reflexivity|].
  rewrite filter_insert by apply order_by_name_sorted.
  rewrite IH. now destruct (p a).
Qed.

Lemma filter_filter {A} (p q : A -> bool) l :
  filter p (filter q l) = filter (fun x => p x && q x) l.
Proof.
  induction l as [|a l IH]; simpl; [reflexivity|].
  destruct (q a); simpl; [destruct (p a); simpl; now rewrite IH|].
  now rewrite andb_false_r.
Qed.

Lemma category_list_active_children cs parent :
  category_list cs (option_map cat_id parent) = active_children cs parent
  \/ (exists p, parent = Some p /\ cat_id p = "").
Proof.
  unfold category_list, active_children. destruct parent as [p|]; simpl.
  - destruct (String.eqb (cat_id p) "") eqn:E.
    + right. exists p. split; [reflexivity | now apply String.eqb_eq].
    + left. now rewrite filter_order_by_name, filter_filter.
  - left. now rewrite filter_order_by_name, filter_filter.
Qed.

(** X6. The category tree and the category list agree: the top-level
    nodes of [category_tree] are, in order, the rows the list view returns
    for a request without [parent] parameter, and the children of every
    node are the rows it returns for [parent=<id of the node>].  Primary
    keys are unique and none is the empty string. *)
Theorem category_list_matches_tree (d : DB) (fuel : nat) (tree : list TreeNode) :
  category_ids_unique (categories d) = true ->
  (forall c, In c (categories d) -> cat_id c <> "") ->
  category_tree fuel d = Some tree ->
  map node_id tree = map cat_id (category_list (categories d) None)
  /\ forall n, in_forest n tree ->
       map node_id (node_children n)
       = map cat_id (category_list (categories d) (Some (node_id n))).
Proof.
  intros Hu Hne Htree. unfold category_tree in Htree. split.
  - rewrite (build_tree_roots _ _ _ _ _ Htree).
    destruct (category_list_active_children (categories d) None) as [E | [p [[=] _]]].
    change (category_list (categories d) None = active_children (categories d) None)
      in E.
    now rewrite E.
  - intros n Hn.
    destruct (build_tree_nodes _ _ _ Hu None tree n I Htree Hn)
      as [c [Hc [_ [Hnode [_ [Hch _]]]]]].
    assert (node_id n = cat_id c) as -> by (rewrite Hnode; reflexivity).
    rewrite Hch.
    destruct (category_list_active_children (categories d) (Some c))
      as [E | [p [[= <-] Hp]]].
    + change (category_list (categories d) (Some (cat_id c))
              = active_children (categories d) (Some c)) in E.
      now rewrite E.
    + exfalso. now apply (Hne c).
Qed.

Lemma category_list_matches_tree_witness :
  exists tree,
    category_tree 7 Examples.pruned_catalogue = Some tree
    /\ map node_id tree
       = map cat_id (category_list (categories Examples.pruned_catalogue) None)
    /\ forall n, in_forest n tree ->
         map node_id (node_children n)
         = map cat_id (category_list (categories Examples.pruned_catalogue)
                                     (Some (node_id n))).
Proof.
  destruct (category_tree 7 Examples.pruned_catalogue) as [tree|] eqn:Htree;
    [|discriminate Htree].
  exists tree. split; [reflexivity|].
  apply (category_list_matches_tree Examples.pruned_catalogue 7 tree).
  - reflexivity.
  - simpl. intros c [<- | [<- | [<- | [<- | [<- | [<- | []]]]]]]; discriminate.
  - exact Htree.
Defined.

(** X7. The category list shows active categories only, sorted by name.
    Without [parent] parameter it shows the roots; with [parent=<id>] the
    children of that category; with an empty [parent=] every active
    category, at whatever depth. *)
Theorem category_list_contents (cs : list Category) (parent : option string) :
  sorted_by_name (category_list cs parent)
  /\ forall c,
       In c (category_list cs parent) <->
       In c cs /\ cat_is_active c = true
       /\ match parent with
          | None => cat_parent c = None
          | Some parent_id => parent_id = "" \/ cat_parent c = Some parent_id
          end.
Proof.
  split.
  - unfold category_list. destruct parent as [pid|].
    + destruct (String.eqb pid ""); [apply order_by_name_sorted|].
      rewrite filter_order_by_name. apply order_by_name_sorted.
    + rewrite filter_order_by_name. apply order_by_name_sorted.
  - intros c. unfold category_list. destruct parent as [pid|].
    + destruct (String.eqb pid "") eqn:E.
      * apply String.eqb_eq in E. rewrite In_order_by_name, filter_In. tauto.
      * apply String.eqb_neq in E.
        rewrite filter_In, In_order_by_name, filter_In. unfold has_parent.
        destruct (cat_parent c) as [q|].
        -- rewrite String.eqb_eq. split.
           ++ intros [[H1 H2] ->]. auto.
           ++ intros [H1 [H2 [H3 | [= ->]]]]; [contradiction | auto].
        -- split; [intros [_ [=]] | intros [_ [_ [H | [=]]]]; contradiction].
    + rewrite filter_In, In_order_by_name, filter_In. unfold is_root.
      destruct (cat_parent c); intuition discriminate.
Qed.

(** ** Order statistics and order detail *)

Import OrderViews.

Lemma status_buckets (l : list Order) :
  let count code := List.length (filter (fun o => String.eqb (order_status o) code) l) in
  (count "pending" + (count "confirmed" + (count "processing" + (count "shipped"
   + (count "delivered" + (count "cancelled" + 0)))))
   + List.length (undeclared_status l))%nat
  = List.length l.
Proof.
  unfold undeclared_status. cbv zeta.
  set (und := fun o : Order =>
                negb (existsb (fun choice => String.eqb (order_status o) (fst choice))
                              STATUS_CHOICES)).
  assert (forall o, und o
                    = negb (String.eqb (order_status o) "pending"
                            || String.eqb (order_status o) "confirmed"
                            || String.eqb (order_status o) "processing"
                            || String.eqb (order_status o) "shipped"
                            || String.eqb (order_status o) "delivered"
                            || String.eqb (order_status o) "cancelled")) as Hund.
  { intros o. unfold und. simpl. now rewrite !orb_false_r, !orb_assoc. }
  clearbody und.
  induction l as [|o l IH]; [reflexivity|].
  cbn [filter]. rewrite Hund.
  destruct (String.eqb (order_status o) "pending") eqn:E1;
    [apply String.eqb_eq in E1; rewrite ?E1; simpl; lia|].
  destruct (String.eqb (order_status o) "confirmed") eqn:E2;
    [apply String.eqb_eq in E2; rewrite ?E2; simpl; lia|].
  destruct (String.eqb (order_status o) "processing") eqn:E3;
    [apply String.eqb_eq in E3; rewrite ?E3; simpl; lia|].
  destruct (String.eqb (order_status o) "shipped") eqn:E4;
    [apply String.eqb_eq in E4; rewrite ?E4; simpl; lia|].
  destruct (String.eqb (order_status o) "delivered") eqn:E5;
    [apply String.eqb_eq in E5; rewrite ?E5; simpl; lia|].
  destruct (String.eqb (order_status o) "cancelled") eqn:E6;
    [apply String.eqb_eq in E6; rewrite ?E6; simpl; lia|].
  simpl. lia.
Qed.

(** X8. [order_statistics] reports one count per declared status, under
    its display name and in the order of [STATUS_CHOICES].  The counts add
    up to [total_orders] less the customer's orders whose status is none
    of the six declared codes: such an order is counted in the total and
    in no bucket. *)
Theorem statistics_buckets_and_total (d : DB) (customer : uuid) :
  let stats := order_statistics d customer in
  map fst (orders_by_status stats)
  = ["Pending"; "Confirmed"; "Processing"; "Shipped"; "Delivered"; "Cancelled"]
  /\ (sum_counts (orders_by_status stats)
      + List.length (undeclared_status (orders_of d customer)))%nat
     = total_orders stats.
Proof.
  split; [reflexivity|].
  apply (status_buckets (orders_of d customer)).
Qed.

(** tests.py, [test_order_statistics]: one order with the undeclared status
    [completed] and one pending order. *)
Example statistics_of_the_test :
  order_statistics
    (mkDB [] []
       [mkOrder "o-1" "ORD-1" "customer-1" "completed" 9999 "123 Test Street" None;
        mkOrder "o-2" "ORD-2" "customer-1" "pending" 14999 "456 Another Street" None]
       [])
    "customer-1"
  = mkStatistics 2 24998
      [("Pending", 1%nat); ("Confirmed", 0%nat); ("Processing", 0%nat);
       ("Shipped", 0%nat); ("Delivered", 0%nat); ("Cancelled", 0%nat)].
Proof. reflexivity. Qed.

Lemma set_field_keeps_customer f k v f' :
  set_field f k v = Ok f' -> String.eqb k "customer" = false ->
  f_customer f' = f_customer f.
Proof.
  unfold set_field. intros H Hk. rewrite Hk in H.
  repeat match type of H with
         | context [if ?b then _ else _] => destruct b
         end;
    destruct v; try discriminate H; injection H as <-; reflexivity.
Qed.

Lemma init_fields_keeps_customer kwargs : forall f f',
  init_fields kwargs f = Ok f' ->
  (forall kv, In kv kwargs -> String.eqb (fst kv) "customer" = false) ->
  f_customer f' = f_customer f.
Proof.
  induction kwargs as [|[k v] rest IH]; simpl; intros f f' H Hk.
  - now injection H as <-.
  - destruct (set_field f k v) as [f1|e] eqn:E; [|discriminate].
    rewrite (IH f1 f' H); [|intros kv Hkv; apply Hk; now right].
    apply (set_field_keeps_customer f k v f1 E). apply (Hk (k, v)). now left.
Qed.

Lemma call_kwargs_ok explicit starstar kwargs :
  call_kwargs explicit starstar = Ok kwargs ->
  kwargs = (explicit ++ starstar)%list
  /\ forall kv, In kv starstar -> dict_mem (fst kv) explicit = false.
Proof.
  unfold call_kwargs.
  destruct (find (fun kv => dict_mem (fst kv) explicit) starstar) as [[k v]|] eqn:E;
    [discriminate|].
  intros [= <-]. split; [reflexivity|].
  intros kv Hkv. apply (find_none _ _ E kv Hkv).
Qed.

Lemma Order_objects_create_customer user rest w w' o :
  (forall kv, In kv rest -> String.eqb (fst kv) "customer" = false) ->
  Order_objects_create (("customer", VUser user) :: ("total_amount", VDecimal 0) :: rest) w
  = (w', Ok o) ->
  order_customer o = user.
Proof.
  intros Hrest. unfold Order_objects_create. intros H.
  apply bind_ok in H. destruct H as [w1 [pk [_ H]]].
  apply bind_ok in H. destruct H as [w2 [f [H1 H]]].
  apply lift_inv in H1. destruct H1 as [_ Hf]. simpl in Hf.
  apply init_fields_keeps_customer in Hf; [|assumption]. simpl in Hf.
  rewrite Hf in H.
  destruct (f_total_amount f) as [t|]; [|discriminate].
  destruct (f_shipping_address f) as [a|]; [|discriminate].
  apply Order_save_ok in H. destruct H as [w3 [_ [_ ->]]].
  now destruct (String.eqb _ "").
Qed.

(** The order [create] returns belongs to the caller. *)
Lemma create_customer user validated_data w w' o :
  create user validated_data w = (w', Ok o) -> order_customer o = user.
Proof.
  unfold create. intros H. apply atomic_inv in H. unfold create_body in H.
  apply bind_ok in H. destruct H as [w1 [popped [_ H]]].
  apply bind_ok in H. destruct H as [w2 [items [_ H]]].
  apply bind_ok in H. destruct H as [w3 [kwargs [H1 H]]].
  apply lift_inv in H1. destruct H1 as [_ Hk].
  apply call_kwargs_ok in Hk. destruct Hk as [-> Hrest].
  apply bind_ok in H. destruct H as [w4 [order [H1 H]]].
  apply Order_objects_create_customer in H1.
  - apply bind_ok in H. destruct H as [w5 [total [_ H]]].
    apply Order_save_ok in H. destruct H as [w6 [_ [_ ->]]].
    destruct (String.eqb _ ""); exact H1.
  - intros kv Hkv. specialize (Hrest kv Hkv). simpl in Hrest.
    apply orb_false_iff in Hrest. destruct Hrest as [Hr _].
    rewrite String.eqb_sym. exact Hr.
Qed.

Lemma fold_sum_app (l : list Order) (o : Order) (z : Z) :
  fold_left (fun acc order => acc + total_amount order) (l ++ [o]) z
  = fold_left (fun acc order => acc + total_amount order) l z + total_amount o.
Proof. now rewrite fold_left_app. Qed.

(** X9. An order committed by [create] shows in the statistics of the
    customer who placed it, and only there: that customer's
    [total_orders] grows by one and [total_spent] by the order's
    [total_amount]; the statistics of every other customer are what they
    were. *)
Theorem statistics_after_create (user : uuid) (validated_data : dict) (w w' : World)
    (o : Order) :
  create user validated_data w = (w', Ok o) ->
  total_orders (order_statistics (db w') user)
  = S (total_orders (order_statistics (db w) user))
  /\ total_spent (order_statistics (db w') user)
     = total_spent (order_statistics (db w) user) + total_amount o
  /\ forall other, other <> user ->
       order_statistics (db w') other = order_statistics (db w) other.
Proof.
  intros H. pose proof (create_customer _ _ _ _ _ H) as Hc.
  apply create_ok in H. destruct H as [items [new [_ [Hord _]]]].
  assert (forall u, orders_of (db w') u
                    = (orders_of (db w) u
                       ++ if String.eqb (order_customer o) u then [o] else [])%list) as Hof.
  { intros u. unfold orders_of. rewrite Hord, filter_app. reflexivity. }
  split; [|split].
  - unfold order_statistics. simpl. rewrite Hof, Hc, String.eqb_refl, length_app.
    simpl. lia.
  - unfold order_statistics. simpl. rewrite Hof, Hc, String.eqb_refl.
    apply fold_sum_app.
  - intros other Hne. unfold order_statistics. rewrite Hof, Hc.
    apply String.eqb_neq in Hne. rewrite String.eqb_sym in Hne. rewrite Hne.
    now rewrite app_nil_r.
Qed.

Lemma first_order_committed :
  create "customer-1" Fixtures.first_order_data Examples.ticking_world
  = (Examples.after_first_order, Ok Fixtures.first_order).
Proof.
  assert (snd (create "customer-1" Fixtures.first_order_data Examples.ticking_world)
          = Ok Fixtures.first_order) as H by (vm_compute; reflexivity).
  unfold Examples.after_first_order, Fixtures.first_order_data in *.
  destruct (create "customer-1" _ Examples.ticking_world) as [w1 r].
  simpl in *. now rewrite H.
Qed.

Lemma statistics_after_create_witness :
  total_orders (order_statistics (db Examples.after_first_order) "customer-1")
  = S (total_orders (order_statistics (db Examples.ticking_world) "customer-1"))
  /\ total_spent (order_statistics (db Examples.after_first_order) "customer-1")
     = total_spent (order_statistics (db Examples.ticking_world) "customer-1")
       + total_amount Fixtures.first_order
  /\ forall other, other <> "customer-1" ->
       order_statistics (db Examples.after_first_order) other
       = order_statistics (db Examples.ticking_world) other.
Proof.
  exact (statistics_after_create "customer-1" Fixtures.first_order_data
           Examples.ticking_world Examples.after_first_order Fixtures.first_order
           first_order_committed).
Defined.

Lemma filter_id_fresh (os : list Order) (k : uuid) (p : Order -> bool) :
  existsb (fun q => String.eqb (order_id q) k) os = false ->
  filter (fun q => String.eqb (order_id q) k) (filter p os) = [].
Proof.
  intros Hex. apply filter_none. intros q Hq. apply filter_In in Hq.
  destruct Hq as [Hq _]. rewrite String.eqb_sym.
  now apply (order_id_absent os k q).
Qed.

(** X10. An order committed by [create] can be read back through the
    order detail view by the customer who placed it, and the view returns
    exactly that order; for any other customer the same primary key is a
    404. *)
Theorem order_detail_after_create (user : uuid) (validated_data : dict) (w w' : World)
    (o : Order) :
  create user validated_data w = (w', Ok o) ->
  order_detail (db w') user (order_id o) = Ok o
  /\ forall other, other <> user ->
       order_detail (db w') other (order_id o) = Raise Http404.
Proof.
  intros H. pose proof (create_customer _ _ _ _ _ H) as Hc.
  apply create_ok in H. destruct H as [items [new [_ [Hord [Hid _]]]]].
  split.
  - unfold order_detail, objects_get, orders_of.
    rewrite Hord, filter_app, filter_app, (filter_id_fresh _ _ _ Hid). simpl.
    rewrite Hc, String.eqb_refl. simpl. now rewrite String.eqb_refl.
  - intros other Hne. unfold order_detail, objects_get, orders_of.
    rewrite Hord, filter_app, filter_app, (filter_id_fresh _ _ _ Hid). simpl.
    apply String.eqb_neq in Hne. rewrite String.eqb_sym in Hne.
    rewrite Hc, Hne. reflexivity.
Qed.

Lemma order_detail_after_create_witness :
  order_detail (db Examples.after_first_order) "customer-1" (order_id Fixtures.first_order)
  = Ok Fixtures.first_order
  /\ forall other, other <> "customer-1" ->
       order_detail (db Examples.after_first_order) other (order_id Fixtures.first_order)
       = Raise Http404.
Proof.
  exact (order_detail_after_create "customer-1" Fixtures.first_order_data
           Examples.ticking_world Examples.after_first_order Fixtures.first_order
           first_order_committed).
Defined.

(** ** Quantities below one *)

(** X11. [validate_items] compares a quantity with the stock only from
    above: a line with a negative quantity for an active product passes.
    [create] never commits such a line: the check of the [quantity] column
    refuses the item, [create] raises, and the database is as before. *)
Theorem negative_quantity_stops_at_commit :
  (forall d p q,
     product_ids_unique d = true -> In p (products d) -> prod_is_active p = true ->
     q <= stock_quantity p ->
     validate_items d [mkItem (Some (prod_id p)) (Some (JInt q))]
     = Ok [mkItem (Some (prod_id p)) (Some (JInt q))])
  /\ (forall user validated_data items line q w,
        dict_get "items" validated_data = Some (VItems items) ->
        In line items -> item_quantity line = Some (JInt q) -> q < 0 ->
        exists e, snd (create user validated_data w) = Raise e
                  /\ is_validation_error e = false
                  /\ db (fst (create user validated_data w)) = db w).
Proof.
  split.
  - intros d p q Hu Hp Hact Hq. unfold validate_items. simpl.
    rewrite (objects_get_unique prod_id prod_is_active _ p Hu Hp Hact).
    assert ((q >? stock_quantity p) = false) as ->; [|reflexivity].
    rewrite Z.gtb_ltb. now apply Z.ltb_ge.
  - intros user vd items line q w Hget Hline Hq Hneg.
    destruct (create user vd w) as [w' [o|e]] eqn:E; simpl.
    + exfalso. apply create_ok in E.
      destruct E as [items' [new [Hget' [_ [_ [_ [_ [_ [Hlines _]]]]]]]]].
      rewrite Hget in Hget'. injection Hget' as <-.
      destruct (Forall2_In_l _ _ _ _ Hlines Hline) as [i [_ Hi]].
      destruct Hi as [_ [H2 [_ [H4 _]]]].
      unfold units in H2. rewrite Hq in H2. injection H2 as H2. lia.
    + exists e. split; [reflexivity|]. split.
      * now apply (create_quiet user vd w w').
      * apply atomic_inv in E. tauto.
Qed.

Lemma negative_quantity_stops_at_commit_witness :
  validate_items Examples.shop
    [mkItem (Some (prod_id Examples.test_product)) (Some (JInt (-3)))]
  = Ok [mkItem (Some (prod_id Examples.test_product)) (Some (JInt (-3)))]
  /\ exists e,
       snd (create "customer-1" (Examples.order_data [Fixtures.minus_three])
                   Examples.test_world) = Raise e
       /\ is_validation_error e = false
       /\ db (fst (create "customer-1" (Examples.order_data [Fixtures.minus_three])
                          Examples.test_world)) = db Examples.test_world.
Proof.
  destruct negative_quantity_stops_at_commit as [Hvalid Hcommit]. split.
  - assert (-3 <= stock_quantity Examples.test_product) as Hq by (vm_compute; discriminate).
    exact (Hvalid Examples.shop Examples.test_product (-3) eq_refl
             (or_introl eq_refl) eq_refl Hq).
  - assert (-3 < 0) as Hneg by lia.
    exact (Hcommit "customer-1" (Examples.order_data [Fixtures.minus_three])
             [Fixtures.minus_three] Fixtures.minus_three (-3) Examples.test_world
             eq_refl (or_introl eq_refl) eq_refl Hneg).
Defined.

(** ** Creating a product under a category path *)

Import ProductCreation.

Lemma Category_insert_inv c w w' r :
  Category_insert c w = (w', r) ->
  match r with
  | Ok _ =>
      db w' = set_categories (db w) (categories (db w) ++ [c])
      /\ existsb (fun x => String.eqb (cat_id x) (cat_id c)) (categories (db w)) = false
  | Raise _ => db w' = db w
  end.
Proof.
  unfold Category_insert, bind, get_db, raise, put_db. intros H.
  repeat match type of H with
         | context [if ?b then _ else _] => let E := fresh "E" in destruct b eqn:E
         end;
    injection H as <- <-; auto.
Qed.

Lemma Category_objects_create_inv name parent slug w w' r :
  Category_objects_create name parent slug w = (w', r) ->
  match r with
  | Ok c =>
      cat_name c = name /\ cat_parent c = option_map cat_id parent
      /\ db w' = set_categories (db w) (categories (db w) ++ [c])
      /\ existsb (fun x => String.eqb (cat_id x) (cat_id c)) (categories (db w)) = false
  | Raise _ => db w' = db w
  end.
Proof.
  unfold Category_objects_create, bind at 1, new_uuid. intros H.
  destruct (bind_inv _ _ _ _ _ H) as [[w1 [[] [H1 H2]]] | [e [H1 ->]]].
  - unfold ret in H2. injection H2 as <- <-.
    apply Category_insert_inv in H1. simpl in H1. tauto.
  - now apply Category_insert_inv in H1.
Qed.

Lemma parent_is_created name parent slug pk :
  parent_is parent (mkCategory pk name None (option_map cat_id parent) slug true) = true.
Proof.
  destruct parent as [p|]; [|reflexivity].
  unfold parent_is, has_parent. simpl. apply String.eqb_refl.
Qed.

Lemma Category_get_or_create_inv name parent slug w w' r :
  Category_get_or_create name parent slug w = (w', r) ->
  match r with
  | Ok c =>
      cat_name c = name /\ parent_is parent c = true
      /\ ((db w' = db w /\ In c (categories (db w)))
          \/ (db w' = set_categories (db w) (categories (db w) ++ [c])
              /\ existsb (fun x => String.eqb (cat_id x) (cat_id c)) (categories (db w))
                 = false))
  | Raise _ => db w' = db w
  end.
Proof.
  assert (forall d c, Category_objects_get d name parent = Ok c ->
            cat_name c = name /\ parent_is parent c = true /\ In c (categories d)) as Hget.
  { intros d c Hc. apply objects_get_In in Hc. destruct Hc as [Hin [Hp _]].
    apply andb_true_iff in Hp. destruct Hp as [Hn Hp]. apply String.eqb_eq in Hn. auto. }
  unfold Category_get_or_create.
  destruct (Category_objects_get (db w) name parent) as [c|e] eqn:E.
  - intros [= <- <-]. destruct (Hget _ _ E) as [Hn [Hp Hin]]. auto.
  - assert (forall e', (w, @Raise Category e') = (w', r) ->
                match r with Ok _ => False | Raise _ => db w' = db w end) as Hraise.
    { intros e' [= <- <-]. reflexivity. }
    destruct e; try (intros H; apply Hraise in H; destruct r; [contradiction | exact H]).
    destruct (atomic (Category_objects_create name parent slug) w) as [w1 [c|e1]] eqn:Ea.
    + intros [= <- <-]. apply atomic_inv in Ea.
      pose proof (Category_objects_create_inv _ _ _ _ _ _ Ea) as [Hn [Hp [Hdb Hfresh]]].
      split; [assumption|]. split; [|now right].
      unfold Category_objects_create, bind at 1, new_uuid in Ea.
      destruct (bind_inv _ _ _ _ _ Ea) as [[w2 [[] [_ H2]]] | [e2 [_ [=]]]].
      unfold ret in H2. injection H2 as _ <-. apply parent_is_created.
    + apply atomic_inv in Ea. destruct Ea as [Hdb _].
      destruct e1; try (intros [= <- <-]; exact Hdb).
      destruct (Category_objects_get (db w1) name parent) as [c|e2] eqn:E2.
      * intros [= <- <-]. destruct (Hget _ _ E2) as [Hn [Hp Hin]].
        rewrite Hdb in Hin. auto.
      * destruct e2; intros [= <- <-]; exact Hdb.
Qed.

Lemma find_in_prefix {A} (f : A -> bool) (l ext : list A) (a : A) :
  find f l = Some a -> find f (l ++ ext) = Some a.
Proof.
  induction l as [|b l IH]; simpl; [discriminate|].
  destruct (f b); [trivial | exact IH].
Qed.

Lemma parent_of_app cs ext x prev :
  parent_of cs x = Some prev -> parent_of (cs ++ ext) x = Some prev.
Proof.
  unfold parent_of, category_by_id. destruct (cat_parent x) as [pid|]; [|trivial].
  destruct (find _ cs) as [p|] eqn:E; [|discriminate].
  now rewrite (find_in_prefix _ cs ext p E).
Qed.

Lemma path_from_app_table cs ext l : forall prev,
  path_from cs prev l -> path_from (cs ++ ext) prev l.
Proof.
  induction l as [|x l IH]; simpl; intros prev; [trivial|].
  intros [H1 H2]. split; [now apply parent_of_app | now apply IH].
Qed.

Lemma parent_of_selected cs parent c :
  category_ids_unique cs = true ->
  (forall p, parent = Some p -> In p cs) ->
  parent_is parent c = true -> parent_of cs c = Some parent.
Proof.
  intros Hu Hin Hp. unfold parent_of. destruct parent as [p|]; simpl in Hp.
  - unfold has_parent in Hp. destruct (cat_parent c) as [pid|]; [|discriminate].
    apply String.eqb_eq in Hp. subst pid. unfold category_by_id.
    now rewrite (find_unique_key cat_id cs p Hu (Hin p eq_refl)).
  - unfold is_root in Hp. now destruct (cat_parent c).
Qed.

Lemma unique_after_insert cs c :
  category_ids_unique cs = true ->
  existsb (fun x => String.eqb (cat_id x) (cat_id c)) cs = false ->
  category_ids_unique (cs ++ [c]) = true.
Proof.
  unfold category_ids_unique. rewrite !distinct_NoDup, map_app. intros Hnd Hfresh.
  apply NoDup_snoc; [assumption | now apply existsb_key_false].
Qed.

Lemma last_cons {A} (a : A) (l : list A) (d : A) : last (a :: l) d = last l a.
Proof.
  revert a d. induction l as [|b l IH]; intros a d; [reflexivity|].
  change (last (b :: l) d = last (b :: l) a). now rewrite (IH b d), (IH b a).
Qed.

Section CategoryPath.

Variable lower : string -> string.

(** The loop over the names: the table only grows, by rows with fresh
    keys, and the categories it walks through form a chain below
    [parent]. *)
Lemma category_path_spec names : forall parent w w' r,
  category_ids_unique (categories (db w)) = true ->
  (forall p, parent = Some p -> In p (categories (db w))) ->
  category_path lower names parent w = (w', r) ->
  (exists ext, categories (db w') = (categories (db w) ++ ext)%list)
  /\ products (db w') = products (db w)
  /\ orders (db w') = orders (db w)
  /\ order_items (db w') = order_items (db w)
  /\ category_ids_unique (categories (db w')) = true
  /\ forall final, r = Ok final ->
       exists chain,
         map cat_name chain = names
         /\ path_from (categories (db w')) parent chain
         /\ final = last (map Some chain) parent
         /\ (forall x, In x chain -> In x (categories (db w'))).
Proof.
  induction names as [|n rest IH]; intros parent w w' r Hu Hparent H.
  - simpl in H. unfold ret in H. injection H as <- <-.
    repeat split; trivial.
    + exists []. now rewrite app_nil_r.
    + intros final [= <-]. exists []. simpl. repeat split; trivial. intros x [].
  - simpl in H.
    destruct (bind_inv _ _ _ _ _ H) as [[w1 [c [H1 H2]]] | [e [H1 ->]]].
    + apply Category_get_or_create_inv in H1. destruct H1 as [Hn [Hp Hcase]].
      assert (exists ext1,
                categories (db w1) = (categories (db w) ++ ext1)%list
                /\ products (db w1) = products (db w)
                /\ orders (db w1) = orders (db w)
                /\ order_items (db w1) = order_items (db w)
                /\ category_ids_unique (categories (db w1)) = true
                /\ In c (categories (db w1))) as [ext1 [Hc1 [Hp1 [Ho1 [Hi1 [Hu1 Hin1]]]]]].
      { destruct Hcase as [[-> Hin] | [-> Hfresh]].
        - exists []. rewrite app_nil_r. repeat split; trivial.
        - exists [c]. simpl. repeat split; trivial.
          + now apply unique_after_insert.
          + apply in_or_app. right. now left. }
      assert (forall p, Some c = Some p -> In p (categories (db w1))) as Hparent1
        by (intros p [= <-]; exact Hin1).
      destruct (IH (Some c) w1 w' r Hu1 Hparent1 H2)
        as [[ext2 Hc2] [Hp2 [Ho2 [Hi2 [Hu2 Hchain]]]]].
      repeat split; try congruence.
      * exists (ext1 ++ ext2)%list. rewrite Hc2, Hc1, app_assoc. reflexivity.
      * intros final Hr. destruct (Hchain final Hr) as [chain [Hnames [Hpath [Hlast Hall]]]].
        exists (c :: chain). simpl. rewrite Hn, Hnames. repeat split; trivial.
        -- rewrite Hc2. apply parent_of_app. apply parent_of_selected; trivial.
           intros p Hpar. rewrite Hc1. apply in_or_app. left. now apply Hparent.
        -- rewrite Hlast. symmetry.
           apply (last_cons (Some c) (map Some chain) parent).
        -- intros x [<- | Hx]; [|now apply Hall].
           rewrite Hc2. apply in_or_app. now left.
    + apply Category_get_or_create_inv in H1. rewrite H1.
      repeat split; trivial; [|discriminate]. exists []. now rewrite app_nil_r.
Qed.

End CategoryPath.

Lemma path_from_snoc_inv cs l c : forall prev,
  path_from cs prev (l ++ [c]) ->
  path_from cs prev l /\ parent_of cs c = Some (last (map Some l) prev).
Proof.
  induction l as [|x l IH]; simpl; intros prev.
  - tauto.
  - intros [H1 H2]. destruct (IH (Some x) H2) as [H3 H4].
    repeat split; trivial. rewrite H4. f_equal. symmetry.
    apply (last_cons (Some x) (map Some l) prev).
Qed.

Lemma parent_of_cases cs c start :
  parent_of cs c = Some start ->
  match start with
  | None => cat_parent c = None
  | Some p => exists pid, cat_parent c = Some pid /\ category_by_id cs pid = Some p
  end.
Proof.
  unfold parent_of. destruct (cat_parent c) as [pid|].
  - destruct (category_by_id cs pid) as [p|] eqn:E; [|discriminate].
    intros [= <-]. eauto.
  - now intros [= <-].
Qed.

(** Walking up a chain that starts at a root takes as many turns as the
    chain is long. *)
Lemma climb cs l : forall c,
  path_from cs None (l ++ [c]) ->
  exists start,
    parent_of cs c = Some start
    /\ level (S (List.length l)) cs c = Some (List.length l)
    /\ forall path,
         full_path_loop (S (List.length l)) cs start path
         = Some (map cat_name l ++ path)%list.
Proof.
  induction l as [|p l0 IH] using rev_ind; intros c H.
  - simpl in H. destruct H as [H _]. exists None. split; [exact H|].
    apply parent_of_cases in H. split; [|reflexivity].
    now rewrite level_unfold, H.
  - apply path_from_snoc_inv in H. destruct H as [Hp Hc].
    rewrite map_app in Hc. cbn [map] in Hc. rewrite last_last in Hc.
    destruct (IH p Hp) as [start [Hs [Hl Hfull]]].
    exists (Some p). split; [exact Hc|].
    apply parent_of_cases in Hc. destruct Hc as [pid [Hpid Hfind]].
    rewrite length_app, Nat.add_1_r. split.
    + now rewrite level_unfold, Hpid, Hfind, Hl.
    + intros path. change (full_path_loop (S (S (List.length l0))) cs (Some p) path)
        with (match parent_of cs p with
              | Some next => full_path_loop (S (List.length l0)) cs next (cat_name p :: path)
              | None => None
              end).
      rewrite Hs, Hfull, map_app, <- app_assoc. reflexivity.
Qed.

Lemma Product_insert_inv p w w' r :
  Product_insert p w = (w', r) ->
  match r with
  | Ok _ => db w' = set_products (db w) (products (db w) ++ [p])
  | Raise _ => db w' = db w
  end.
Proof.
  unfold Product_insert, bind, get_db, raise, put_db. intros H.
  repeat match type of H with
         | context [if ?b then _ else _] => let E := fresh "E" in destruct b eqn:E
         end;
    injection H as <- <-; auto.
Qed.

Lemma Product_objects_create_inv data category w w' r :
  Product_objects_create data category w = (w', r) ->
  match r with
  | Ok p =>
      exists c, category = Some c /\ prod_category p = cat_id c
                /\ db w' = set_products (db w) (products (db w) ++ [p])
  | Raise e =>
      db w' = db w
      /\ (category = None ->
          e = IntegrityError "products: null value in column category_id")
  end.
Proof.
  unfold Product_objects_create, bind at 1, new_uuid.
  destruct category as [c|].
  - intros H. destruct (bind_inv _ _ _ _ _ H) as [[w1 [[] [H1 H2]]] | [e [H1 ->]]].
    + unfold ret in H2. injection H2 as <- <-.
      apply Product_insert_inv in H1. exists c. auto.
    + apply Product_insert_inv in H1. split; [exact H1 | discriminate].
  - unfold raise. intros [= <- <-]. auto.
Qed.

(** X12. With unique category keys, a product that
    [ProductCreateSerializer.create] returns has been appended to the
    products, the categories have only gained rows, and the product is
    filed under a category whose full path is the given names joined by
    " > " and whose level is the number of names less one: the names form
    a chain of categories from a root, found or created on the way. *)
Theorem create_product_files_under_path (lower : string -> string)
    (data : ProductData) (w w' : World) (p : Product) :
  category_ids_unique (categories (db w)) = true ->
  create_product lower data w = (w', Ok p) ->
  products (db w') = (products (db w) ++ [p])%list
  /\ (exists ext, categories (db w') = (categories (db w) ++ ext)%list)
  /\ exists c,
       In c (categories (db w')) /\ prod_category p = cat_id c
       /\ level (List.length (pd_categories data)) (categories (db w')) c
          = Some (List.length (pd_categories data) - 1)%nat
       /\ get_full_path (List.length (pd_categories data)) (categories (db w')) c
          = Some (join " > " (pd_categories data)).
Proof.
  intros Hu H. unfold create_product in H.
  apply bind_ok in H. destruct H as [w1 [parent [H1 H2]]].
  assert (forall q : Category, @None Category = Some q -> In q (categories (db w))) as Hnone
    by discriminate.
  destruct (category_path_spec lower _ None w w1 (Ok parent) Hu Hnone H1)
    as [Hext [Hp1 [_ [_ [Hu1 Hchain]]]]].
  apply Product_objects_create_inv in H2. destruct H2 as [c [-> [Hcat Hdb]]].
  destruct (Hchain (Some c) eq_refl) as [chain [Hnames [Hpath [Hlast Hall]]]].
  assert (categories (db w') = categories (db w1)) as Hcs by (rewrite Hdb; reflexivity).
  split; [rewrite Hdb; simpl; now rewrite Hp1|].
  split; [rewrite Hcs; exact Hext|].
  destruct (exists_last (l := chain)) as [l [c' Hl]].
  { intros ->. discriminate Hlast. }
  subst chain. rewrite map_app in Hlast. cbn [map] in Hlast.
  rewrite last_last in Hlast. injection Hlast as <-.
  destruct (climb _ l c Hpath) as [start [Hs [Hlevel Hfull]]].
  exists c. rewrite Hcs, <- Hnames, length_map, length_app, Nat.add_1_r.
  repeat split; trivial.
  - apply Hall. apply in_or_app. right. now left.
  - rewrite Hlevel. f_equal. lia.
  - unfold get_full_path. rewrite Hs, Hfull, map_app. reflexivity.
Qed.

Lemma new_product_committed :
  create_product Fixtures.ascii_lower Fixtures.new_product Examples.test_world
  = (fst (create_product Fixtures.ascii_lower Fixtures.new_product Examples.test_world),
     Ok (mkProduct "uuid-2" "New Product" 14999 "NEW-001" "uuid-1" 5 true)).
Proof.
  assert (snd (create_product Fixtures.ascii_lower Fixtures.new_product Examples.test_world)
          = Ok (mkProduct "uuid-2" "New Product" 14999 "NEW-001" "uuid-1" 5 true)) as H
    by (vm_compute; reflexivity).
  destruct (create_product Fixtures.ascii_lower Fixtures.new_product Examples.test_world)
    as [w1 r].
  simpl in *. now rewrite H.
Qed.

Lemma create_product_files_under_path_witness :
  products (db (fst (create_product Fixtures.ascii_lower Fixtures.new_product
                                    Examples.test_world)))
  = (products (db Examples.test_world)
     ++ [mkProduct "uuid-2" "New Product" 14999 "NEW-001" "uuid-1" 5 true])%list
  /\ (exists ext,
        categories (db (fst (create_product Fixtures.ascii_lower Fixtures.new_product
                                            Examples.test_world)))
        = (categories (db Examples.test_world) ++ ext)%list)
  /\ exists c,
       In c (categories (db (fst (create_product Fixtures.ascii_lower
                                    Fixtures.new_product Examples.test_world))))
       /\ prod_category (mkProduct "uuid-2" "New Product" 14999 "NEW-001" "uuid-1" 5 true)
          = cat_id c
       /\ level (List.length (pd_categories Fixtures.new_product))
                (categories (db (fst (create_product Fixtures.ascii_lower
                                        Fixtures.new_product Examples.test_world)))) c
          = Some (List.length (pd_categories Fixtures.new_product) - 1)%nat
       /\ get_full_path (List.length (pd_categories Fixtures.new_product))
                        (categories (db (fst (create_product Fixtures.ascii_lower
                                                Fixtures.new_product Examples.test_world)))) c
          = Some (join " > " (pd_categories Fixtures.new_product)).
Proof.
  exact (create_product_files_under_path Fixtures.ascii_lower Fixtures.new_product
           Examples.test_world _ _ eq_refl new_product_committed).
Defined.

(** X13. [ProductCreateSerializer.create] runs outside any transaction.
    With an empty list of category names it raises the not-null violation
    of [category] and writes nothing.  Whenever it raises, the products
    are untouched and the categories have only gained rows; and when it is
    the insertion of the product that fails, the categories the loop
    created before stay in the table. *)
Theorem create_product_failure (lower : string -> string) (data : ProductData)
    (w : World) :
  (pd_categories data = [] ->
   exists w',
     create_product lower data w
     = (w', Raise (IntegrityError "products: null value in column category_id"))
     /\ db w' = db w)
  /\ (forall w' e,
        category_ids_unique (categories (db w)) = true ->
        create_product lower data w = (w', Raise e) ->
        products (db w') = products (db w)
        /\ exists ext, categories (db w') = (categories (db w) ++ ext)%list)
  /\ (forall w1 last w' e,
        category_path lower (pd_categories data) None w = (w1, Ok last) ->
        create_product lower data w = (w', Raise e) ->
        db w' = db w1).
Proof.
  split; [|split].
  - intros Hnil. unfold create_product. rewrite Hnil. simpl.
    eexists. split; reflexivity.
  - intros w' e Hu H. unfold create_product in H.
    assert (forall q : Category, @None Category = Some q -> In q (categories (db w)))
      as Hnone by discriminate.
    destruct (bind_inv _ _ _ _ _ H) as [[w1 [parent [H1 H2]]] | [e' [H1 _]]].
    + destruct (category_path_spec lower _ None w w1 (Ok parent) Hu Hnone H1)
        as [Hext [Hp1 _]].
      apply Product_objects_create_inv in H2. destruct H2 as [-> _]. auto.
    + destruct (category_path_spec lower _ None w w' (Raise e') Hu Hnone H1)
        as [Hext [Hp1 _]]. auto.
  - intros w1 final w' e Hloop H. unfold create_product, bind in H.
    rewrite Hloop in H. apply Product_objects_create_inv in H. tauto.
Qed.

Lemma clashing_product_refused :
  create_product Fixtures.ascii_lower Fixtures.clashing_product Examples.test_world
  = (fst (create_product Fixtures.ascii_lower Fixtures.clashing_product Examples.test_world),
     Raise (IntegrityError "products_sku_key")).
Proof.
  assert (snd (create_product Fixtures.ascii_lower Fixtures.clashing_product
                              Examples.test_world)
          = Raise (IntegrityError "products_sku_key")) as H by (vm_compute; reflexivity).
  destruct (create_product Fixtures.ascii_lower Fixtures.clashing_product
                           Examples.test_world) as [w1 r].
  simpl in *. now rewrite H.
Qed.

Lemma create_product_failure_witness :
  products (db (fst (create_product Fixtures.ascii_lower Fixtures.clashing_product
                                    Examples.test_world)))
  = products (db Examples.test_world)
  /\ exists ext,
       categories (db (fst (create_product Fixtures.ascii_lower Fixtures.clashing_product
                                           Examples.test_world)))
       = (categories (db Examples.test_world) ++ ext)%list.
Proof.
  exact (proj1 (proj2 (create_product_failure Fixtures.ascii_lower
                         Fixtures.clashing_product Examples.test_world))
           _ _ eq_refl clashing_product_refused).
Defined.

(** The categories of the failed creation are in the table. *)
Example clashing_product_leaves_categories :
  map cat_name
      (categories (db (fst (create_product Fixtures.ascii_lower Fixtures.clashing_product
                                           Examples.test_world))))
  = ["Electronics"; "Smartphones"; "Android Phones"; "Computers"; "Laptops"].
Proof. vm_compute. reflexivity. Qed.

Lemma parent_is_of_path cs x prev :
  parent_of cs x = Some prev -> parent_is prev x = true.
Proof.
  intros H. apply parent_of_cases in H. destruct prev as [p|]; simpl.
  - destruct H as [pid [Hpid Hfind]]. apply category_by_id_In in Hfind.
    destruct Hfind as [_ <-]. unfold has_parent. rewrite Hpid. apply String.eqb_refl.
  - unfold is_root. now rewrite H.
Qed.

Lemma existing_path_found (lower : string -> string) (w : World) chain : forall parent,
  category_names_unique (categories (db w)) = true ->
  path_from (categories (db w)) parent chain ->
  (forall x, In x chain -> In x (categories (db w))) ->
  category_path lower (map cat_name chain) parent w
  = (w, Ok (last (map Some chain) parent)).
Proof.
  induction chain as [|x chain IH]; intros parent Hu Hpath Hall; [reflexivity|].
  destruct Hpath as [Hx Hrest]. simpl map. cbn [category_path]. unfold bind.
  assert (Category_get_or_create (cat_name x) parent
            (replace_spaces (lower (cat_name x))) w = (w, Ok x)) as ->.
  { unfold Category_get_or_create, Category_objects_get.
    rewrite (objects_get_unique cat_name (parent_is parent) _ x Hu
               (Hall x (or_introl eq_refl)) (parent_is_of_path _ _ _ Hx)).
    reflexivity. }
  rewrite (IH (Some x) Hu Hrest); [|intros y Hy; apply Hall; now right].
  f_equal. f_equal. symmetry. apply (last_cons (Some x) (map Some chain) parent).
Qed.

(** X14. When the category names are unique and the given names already
    are the names of a chain of categories from a root, the loop of
    [ProductCreateSerializer.create] finds every one of them and creates
    none: the table of categories after the call is the table before,
    whether the product itself is then stored or refused. *)
Theorem existing_path_is_reused (lower : string -> string) (data : ProductData)
    (w : World) (chain : list Category) :
  category_names_unique (categories (db w)) = true ->
  path_from (categories (db w)) None chain ->
  (forall x, In x chain -> In x (categories (db w))) ->
  map cat_name chain = pd_categories data ->
  categories (db (fst (create_product lower data w))) = categories (db w).
Proof.
  intros Hu Hpath Hall Hnames. unfold create_product, bind.
  rewrite <- Hnames, (existing_path_found lower w chain None Hu Hpath Hall).
  destruct (Product_objects_create data _ w) as [w' [p|e]] eqn:E;
    apply Product_objects_create_inv in E; simpl.
  - destruct E as [c [_ [_ ->]]]. reflexivity.
  - destruct E as [-> _]. reflexivity.
Qed.

Lemma existing_path_is_reused_witness :
  categories
    (db (fst (create_product Fixtures.ascii_lower
                (mkProductData "Pixel" 59900 "PIX-001" (Some 4) None
                   ["Electronics"; "Smartphones"; "Android Phones"])
                Examples.test_world)))
  = categories (db Examples.test_world).
Proof.
  assert (path_from (categories (db Examples.test_world)) None
            [Examples.electronics; Examples.smartphones; Examples.android_phones]) as Hpath
    by (simpl; repeat split; reflexivity).
  assert (forall x,
            In x [Examples.electronics; Examples.smartphones; Examples.android_phones] ->
            In x (categories (db Examples.test_world))) as Hall
    by (intros x Hx; exact Hx).
  exact (existing_path_is_reused Fixtures.ascii_lower
           (mkProductData "Pixel" 59900 "PIX-001" (Some 4) None
              ["Electronics"; "Smartphones"; "Android Phones"])
           Examples.test_world
           [Examples.electronics; Examples.smartphones; Examples.android_phones]
           eq_refl Hpath Hall eq_refl).
Defined.
